(** * mitthichat: the client-side cryptographic layer (src/lib/crypto.ts)

    A shallow embedding of [crypto.ts] and of the parts of the Web platform
    it calls (atob/btoa, TextEncoder/TextDecoder, Blob, crypto.getRandomValues
    and crypto.subtle), followed by the properties of the layer.

    Conventions.
    - A byte is a [Byte.byte]; a [Uint8Array] or [ArrayBuffer] is a list of
      bytes.
    - A JavaScript string is the list of its UTF-16 code units, each an [N].
    - Sizes and offsets are JavaScript numbers holding integers: [Z].
    - An [async] function is a computation in the monad [M]: it reads and
      updates the [World] (the random source and the record of AES-GCM
      invocations) and either returns a value or throws.  [await] is [bind];
      a rejected promise is [Throw]. *)

From Stdlib Require Import String Ascii.
From Stdlib Require Import List ZArith NArith Arith Lia ZifyNat Bool.
From Stdlib.Strings Require Import Byte.
From Equations Require Import Equations.
Import ListNotations.

Set Implicit Arguments.

(* ================================================================== *)
(** * Bytes and JavaScript strings *)
(* ================================================================== *)

Module Bytes.

Definition bytes := list byte.

(** [ToUint8]: the value stored in a [Uint8Array] cell. *)
Definition u8 (n : N) : byte :=
  match Byte.of_N (n mod 256) with
  | Some b => b
  | None => x00
  end.

(** Bitwise exclusive or of two bytes. *)
Definition xor8 (a b : byte) : byte :=
  let '(a0, (a1, (a2, (a3, (a4, (a5, (a6, a7))))))) := Byte.to_bits a in
  let '(b0, (b1, (b2, (b3, (b4, (b5, (b6, b7))))))) := Byte.to_bits b in
  Byte.of_bits
    (xorb a0 b0, (xorb a1 b1, (xorb a2 b2, (xorb a3 b3,
    (xorb a4 b4, (xorb a5 b5, (xorb a6 b6, xorb a7 b7))))))).

(** Pointwise xor; the result has the length of the first argument when
    the second is at least as long. *)
Fixpoint xorBytes (a b : bytes) : bytes :=
  match a, b with
  | x :: a', y :: b' => xor8 x y :: xorBytes a' b'
  | _, _ => a
  end.

(** [byteLength] as a JavaScript number. *)
Definition size (b : bytes) : Z := Z.of_nat (length b).

(** A bound of [slice(start, end)] brought into the array: a negative
    bound counts from the end, and every bound is clamped to the array. *)
Definition relativeIndex (sz i : Z) : Z :=
  if (i <? 0)%Z then Z.max (sz + i) 0 else Z.min i sz.

(** The range [start, end) of [Blob.prototype.slice] and
    [TypedArray.prototype.slice]. *)
Definition slice (b : bytes) (start stop : Z) : bytes :=
  let sz := size b in
  let s := relativeIndex sz start in
  let e := relativeIndex sz stop in
  firstn (Z.to_nat (Z.max (e - s) 0)) (skipn (Z.to_nat s) b).

Definition eqb (a b : bytes) : bool :=
  if list_eq_dec Byte.byte_eq_dec a b then true else false.

End Bytes.
Export Bytes.

Module JSString.

(** A JavaScript string: its UTF-16 code units. *)
Definition t := list N.

(** The string whose code units are the characters of an ASCII literal. *)
Definition js (s : string) : t := map N_of_ascii (list_ascii_of_string s).

Definition eqb (a b : t) : bool :=
  if list_eq_dec N.eq_dec a b then true else false.

(** [String.fromCharCode(...bytes)]: one code unit per byte. *)
Definition fromCharCode (b : bytes) : t := map Byte.to_N b.

(** [Uint8Array.from(str, c => c.charCodeAt(0))]: each code unit is
    stored through [ToUint8]. *)
Definition toUint8Array (s : t) : bytes := map u8 s.

Definition isLeadSurrogate (c : N) : bool := (0xD800 <=? c)%N && (c <=? 0xDBFF)%N.
Definition isTrailSurrogate (c : N) : bool := (0xDC00 <=? c)%N && (c <=? 0xDFFF)%N.

(** A string that converts to UTF-8 and back without loss: every code
    unit is below 2^16 and surrogates come in lead/trail pairs. *)
Fixpoint wellFormed (s : t) : bool :=
  match s with
  | [] => true
  | c :: rest =>
      if isLeadSurrogate c then
        match rest with
        | d :: rest' => isTrailSurrogate d && wellFormed rest'
        | [] => false
        end
      else if isTrailSurrogate c then false
      else (c <? 0x10000)%N && wellFormed rest
  end.

End JSString.

(* ================================================================== *)
(** * Exceptions and the async monad *)
(* ================================================================== *)

(** The exceptions the platform calls of [crypto.ts] can raise. *)
Inductive Exn : Type :=
| InvalidCharacterError   (* atob / btoa *)
| InvalidAccessError      (* key not usable for the operation, or not extractable *)
| OperationError          (* AES-GCM authentication failure, bad lengths *)
| DataError               (* bad key data on import *)
| SyntaxError             (* bad key usages *)
| NotSupportedError       (* algorithm or format not supported *)
| QuotaExceededError      (* getRandomValues of more than 65536 bytes *)
| RangeError.             (* TypedArray.set past the end of the target *)

Inductive Result (A : Type) : Type :=
| Ok (a : A)
| Throw (e : Exn).
Arguments Ok {A} a.
Arguments Throw {A} e.

(** One call of [crypto.subtle.encrypt] with AES-GCM, as the platform saw
    it: the raw key, the nonce, the associated data and the plaintext. *)
Record GcmCall : Type := mkGcmCall {
  call_key : bytes;
  call_iv : bytes;
  call_aad : bytes;
  call_plaintext : bytes
}.

(** The state outside the program: the output of the platform's random
    generator ([entropy i] is the i-th byte it will ever produce, [cursor]
    the number of bytes drawn so far), and the AES-GCM encryptions made so
    far, oldest first. *)
Record World : Type := mkWorld {
  entropy : nat -> byte;
  cursor : nat;
  gcmLog : list GcmCall
}.

Definition M (A : Type) : Type := World -> Result A * World.

Definition ret {A} (a : A) : M A := fun w => (Ok a, w).

Definition throw {A} (e : Exn) : M A := fun w => (Throw e, w).

Definition bind {A B} (m : M A) (k : A -> M B) : M B :=
  fun w =>
    match m w with
    | (Ok a, w') => k a w'
    | (Throw e, w') => (Throw e, w')
    end.

(** [try { body } catch { handler }] *)
Definition tryCatch {A} (body : M A) (handler : M A) : M A :=
  fun w =>
    match body w with
    | (Ok a, w') => (Ok a, w')
    | (Throw _, w') => handler w'
    end.

(** A synchronous platform call that may throw. *)
Definition lift {A} (r : Result A) : M A := fun w => (r, w).

Declare Scope async_scope.
Delimit Scope async_scope with async.
Notation "x <- m ;; k" := (bind m (fun x => k))
  (at level 61, m at next level, right associativity) : async_scope.
Notation "' pat <- m ;; k" := (bind m (fun x => match x with pat => k end))
  (at level 61, pat pattern, m at next level, right associativity) : async_scope.
Open Scope async_scope.

(* ================================================================== *)
(** * Base64: [btoa] and [atob] *)
(* ================================================================== *)

Module Base64.

(** The base64 alphabet: the code unit of the digit [i], for [i < 64]. *)
Definition digit (i : N) : N :=
  (if i <? 26 then 65 + i                (* A-Z *)
   else if i <? 52 then 97 + (i - 26)    (* a-z *)
   else if i <? 62 then 48 + (i - 52)    (* 0-9 *)
   else if i =? 62 then 43               (* + *)
   else 47)%N.                           (* / *)

(** The value of a base64 digit, [None] outside the alphabet. *)
Definition value (c : N) : option N :=
  (if (65 <=? c) && (c <=? 90) then Some (c - 65)
   else if (97 <=? c) && (c <=? 122) then Some (c - 97 + 26)
   else if (48 <=? c) && (c <=? 57) then Some (c - 48 + 52)
   else if c =? 43 then Some 62
   else if c =? 47 then Some 63
   else None)%N.

Definition pad : N := 61.  (* = *)

(** Base64 of a sequence of byte values, with padding. *)
Fixpoint encode (l : list N) : JSString.t :=
  (match l with
   | [] => []
   | [a] => [digit (a / 4); digit ((a mod 4) * 16); pad; pad]
   | [a; b] =>
       [digit (a / 4); digit ((a mod 4) * 16 + b / 16);
        digit ((b mod 16) * 4); pad]
   | a :: b :: c :: rest =>
       digit (a / 4) :: digit ((a mod 4) * 16 + b / 16)
       :: digit ((b mod 16) * 4 + c / 64) :: digit (c mod 64)
       :: encode rest
   end)%N.

(** [btoa(s)]: throws when a code unit of [s] is above 0xFF. *)
Definition btoa (s : JSString.t) : Result JSString.t :=
  if forallb (fun c => c <=? 0xFF)%N s then Ok (encode s)
  else Throw InvalidCharacterError.

Definition isAsciiWhitespace (c : N) : bool :=
  ((c =? 9) || (c =? 10) || (c =? 12) || (c =? 13) || (c =? 32))%N.

(** Remove one or two trailing [=]. *)
Definition stripPadding (s : JSString.t) : JSString.t :=
  match rev s with
  | y :: r =>
      if (y =? pad)%N then
        match r with
        | z :: r' => if (z =? pad)%N then rev r' else rev r
        | [] => rev r
        end
      else s
  | [] => s
  end.

(** The values of the digits of [s], [None] when a code unit is outside
    the alphabet. *)
Fixpoint values (s : JSString.t) : option (list N) :=
  match s with
  | [] => Some []
  | c :: rest =>
      match value c, values rest with
      | Some v, Some vs => Some (v :: vs)
      | _, _ => None
      end
  end.

(** Groups of four 6-bit values give three bytes; a final group of three
    gives two bytes and a final group of two gives one, the spare bits
    being dropped. *)
Fixpoint decodeValues (l : list N) : list N :=
  (match l with
   | a :: b :: c :: d :: rest =>
       (a * 4 + b / 16) :: ((b mod 16) * 16 + c / 4) :: ((c mod 4) * 64 + d)
       :: decodeValues rest
   | [a; b; c] => [a * 4 + b / 16; (b mod 16) * 16 + c / 4]
   | [a; b] => [a * 4 + b / 16]
   | _ => []
   end)%N.

(** [atob(s)], the forgiving-base64 decode of the HTML standard: ASCII
    whitespace is removed; when the length is then a multiple of four, one
    or two trailing [=] are removed; a length of 1 modulo 4, or a code unit
    outside the alphabet, is an [InvalidCharacterError]. *)
Definition atob (s : JSString.t) : Result JSString.t :=
  let data := filter (fun c => negb (isAsciiWhitespace c)) s in
  let data :=
    if (Nat.modulo (length data) 4 =? 0)%nat then stripPadding data else data in
  if (Nat.modulo (length data) 4 =? 1)%nat then Throw InvalidCharacterError
  else
    match values data with
    | Some vs => Ok (decodeValues vs)
    | None => Throw InvalidCharacterError
    end.

End Base64.

(* ================================================================== *)
(** * TextEncoder and TextDecoder (UTF-8) *)
(* ================================================================== *)

Module TextCodec.

Import JSString.

(** Conversion of a JavaScript string to scalar values (a [USVString]): a
    surrogate pair is one scalar value, a lone surrogate becomes U+FFFD. *)
Fixpoint toScalarValues (s : JSString.t) : list N :=
  match s with
  | [] => []
  | c :: rest =>
      if isLeadSurrogate c then
        match rest with
        | d :: rest' =>
            if isTrailSurrogate d
            then (0x10000 + (c - 0xD800) * 0x400 + (d - 0xDC00))%N
                 :: toScalarValues rest'
            else 0xFFFD%N :: toScalarValues rest
        | [] => [0xFFFD%N]
        end
      else if isTrailSurrogate c then 0xFFFD%N :: toScalarValues rest
      else c :: toScalarValues rest
  end.

(** The UTF-8 bytes of one scalar value. *)
Definition encodeScalar (c : N) : bytes :=
  (if c <? 0x80 then [u8 c]
   else if c <? 0x800 then [u8 (0xC0 + c / 64); u8 (0x80 + c mod 64)]
   else if c <? 0x10000 then
     [u8 (0xE0 + c / 4096); u8 (0x80 + (c / 64) mod 64); u8 (0x80 + c mod 64)]
   else
     [u8 (0xF0 + c / 262144); u8 (0x80 + (c / 4096) mod 64);
      u8 (0x80 + (c / 64) mod 64); u8 (0x80 + c mod 64)])%N.

(** [new TextEncoder().encode(s)] *)
Definition encode (s : JSString.t) : bytes :=
  flat_map encodeScalar (toScalarValues s).

(** The state of the UTF-8 decoder of the Encoding standard. *)
Record DecoderState : Type := mkDecoderState {
  codePoint : N;
  bytesSeen : N;
  bytesNeeded : N;
  lowerBoundary : N;
  upperBoundary : N
}.

Definition initialState : DecoderState := mkDecoderState 0 0 0 0x80 0xBF.

(** The decoder on a byte when no sequence is open: the code points it
    emits and its next state. *)
Definition startByte (b : N) : list N * DecoderState :=
  (if b <=? 0x7F then ([b], initialState)
   else if (0xC2 <=? b) && (b <=? 0xDF)
     then ([], mkDecoderState (b - 0xC0) 0 1 0x80 0xBF)
   else if (0xE0 <=? b) && (b <=? 0xEF)
     then ([], mkDecoderState (b - 0xE0) 0 2
                 (if b =? 0xE0 then 0xA0 else 0x80)
                 (if b =? 0xED then 0x9F else 0xBF))
   else if (0xF0 <=? b) && (b <=? 0xF4)
     then ([], mkDecoderState (b - 0xF0) 0 3
                 (if b =? 0xF0 then 0x90 else 0x80)
                 (if b =? 0xF4 then 0x8F else 0xBF))
   else ([0xFFFD], initialState))%N.

(** The decoder run over a byte sequence from a state.  A byte outside
    the expected range closes the open sequence with U+FFFD and is then
    read again as a first byte; an open sequence at the end of the input
    gives U+FFFD. *)
Fixpoint decodeFrom (st : DecoderState) (l : bytes) : list N :=
  match l with
  | [] => if (bytesNeeded st =? 0)%N then [] else [0xFFFD%N]
  | byte :: rest =>
      let b := Byte.to_N byte in
      if (bytesNeeded st =? 0)%N then
        let '(out, st') := startByte b in out ++ decodeFrom st' rest
      else if ((lowerBoundary st <=? b) && (b <=? upperBoundary st))%N then
        let cp := (codePoint st * 64 + (b - 0x80))%N in
        if (bytesSeen st + 1 =? bytesNeeded st)%N
        then cp :: decodeFrom initialState rest
        else decodeFrom
               (mkDecoderState cp (bytesSeen st + 1) (bytesNeeded st) 0x80 0xBF)
               rest
      else
        let '(out, st') := startByte b in
        0xFFFD%N :: out ++ decodeFrom st' rest
  end.

(** The code units of one code point. *)
Definition codeUnits (c : N) : JSString.t :=
  (if c <? 0x10000 then [c]
   else [0xD800 + (c - 0x10000) / 0x400; 0xDC00 + (c - 0x10000) mod 0x400])%N.

(** A decoder made with [new TextDecoder()] has [ignoreBOM] false: a first
    code point U+FEFF is a byte order mark and is not part of the output. *)
Definition dropBOM (cps : list N) : list N :=
  match cps with
  | c :: rest => if (c =? 0xFEFF)%N then rest else cps
  | [] => []
  end.

(** [new TextDecoder().decode(b)] *)
Definition decode (b : bytes) : JSString.t :=
  flat_map codeUnits (dropBOM (decodeFrom initialState b)).

End TextCodec.

(* ================================================================== *)
(** * Blob and crypto.getRandomValues *)
(* ================================================================== *)

Module Blob.

Record t : Type := mk {
  contents : bytes;
  type : JSString.t
}.

(** [new Blob([array])] and [new Blob([array], { type })] *)
Definition ofArray (b : bytes) (ty : option JSString.t) : t :=
  mk b (match ty with Some s => s | None => [] end).

(** [blob.size] *)
Definition size (b : t) : Z := Bytes.size (contents b).

(** [blob.slice(start, end)]: the range is brought into the blob; the
    slice has the empty type. *)
Definition slice (b : t) (start stop : Z) : t :=
  mk (Bytes.slice (contents b) start stop) [].

(** [await blob.arrayBuffer()] *)
Definition arrayBuffer (b : t) : M bytes := ret (contents b).

End Blob.

(** [crypto.getRandomValues(new Uint8Array(n))]: the next [n] bytes of the
    random source. *)
Definition getRandomValues (n : nat) : M bytes :=
  fun w =>
    if (65536 <? Z.of_nat n)%Z then (Throw QuotaExceededError, w)
    else (Ok (map (fun i => entropy w (cursor w + i)%nat) (seq 0 n)),
          mkWorld (entropy w) (cursor w + n) (gcmLog w)).

(* ================================================================== *)
(** * crypto.subtle *)
(* ================================================================== *)

(** The cryptographic cores the platform computes with.  They are left
    open: the development holds for every choice of them, in particular
    for SHA-256 and for AES in counter mode with the GHASH tag. *)
Class Primitives : Type := {
  (** SHA-256 of a message. *)
  sha256 : bytes -> bytes;
  (** The [i]-th byte of the AES counter-mode key stream that GCM derives
      from a key and a nonce. *)
  gcmKeystreamByte : bytes -> bytes -> nat -> byte;
  (** The full-length GCM authentication tag of a ciphertext, from key,
      nonce and associated data. *)
  gcmTag : bytes -> bytes -> bytes -> bytes -> bytes
}.

(** What is assumed of the cores: the digest has 32 bytes, the tag 16. *)
Class PrimitivesSpec (P : Primitives) : Prop := {
  sha256_length : forall m, length (sha256 m) = 32%nat;
  gcmTag_length : forall k iv aad c, length (gcmTag k iv aad c) = 16%nat
}.

Module Subtle.

Inductive KeyUsage : Type :=
| encrypt_usage | decrypt_usage | wrapKey_usage | unwrapKey_usage
| deriveKey_usage | deriveBits_usage | sign_usage | verify_usage.

Definition KeyUsage_eqb (a b : KeyUsage) : bool :=
  match a, b with
  | encrypt_usage, encrypt_usage | decrypt_usage, decrypt_usage
  | wrapKey_usage, wrapKey_usage | unwrapKey_usage, unwrapKey_usage
  | deriveKey_usage, deriveKey_usage | deriveBits_usage, deriveBits_usage
  | sign_usage, sign_usage | verify_usage, verify_usage => true
  | _, _ => false
  end.

Definition hasUsage (u : KeyUsage) (l : list KeyUsage) : bool :=
  existsb (KeyUsage_eqb u) l.

(** [key.algorithm] for the two kinds of key [crypto.ts] handles. *)
Inductive KeyAlgorithm : Type :=
| PBKDF2_key
| AES_GCM_key (lengthBits : N).

Definition sameAlgorithmName (a b : KeyAlgorithm) : bool :=
  match a, b with
  | PBKDF2_key, PBKDF2_key => true
  | AES_GCM_key _, AES_GCM_key _ => true
  | _, _ => false
  end.

(** A [CryptoKey] of type "secret".  [keyData] is the internal key
    material, which the program reaches only through [exportKey]. *)
Record CryptoKey : Type := mkCryptoKey {
  extractable : bool;
  algorithm : KeyAlgorithm;
  usages : list KeyUsage;
  keyData : bytes
}.

(** [{ name: 'PBKDF2', salt, iterations, hash: 'SHA-256' }] *)
Record Pbkdf2Params : Type := mkPbkdf2Params {
  salt : bytes;
  iterations : N
}.

(** [{ name: 'AES-GCM', iv, additionalData?, tagLength? }] *)
Record AesGcmParams : Type := mkAesGcmParams {
  iv : bytes;
  additionalData : option bytes;
  tagLength : option N
}.

Section WithPrimitives.

Context {P : Primitives}.

(** ** HMAC-SHA-256 (RFC 2104) and PBKDF2 (RFC 8018, 5.2) *)

(** The key of HMAC brought to the 64-byte block of SHA-256: hashed when
    longer than a block, then padded with zero bytes. *)
Definition hmacBlockKey (k : bytes) : bytes :=
  let k' := if (64 <? length k)%nat then sha256 k else k in
  k' ++ repeat x00 (64 - length k').

Definition hmac (k m : bytes) : bytes :=
  let k0 := hmacBlockKey k in
  sha256 (map (xor8 x5c) k0 ++ sha256 (map (xor8 x36) k0 ++ m)).

(** The four-byte big-endian encoding of a block index. *)
Definition int32be (i : N) : bytes :=
  [u8 (i / 16777216); u8 (i / 65536); u8 (i / 256); u8 i]%N.

(** One iteration of PBKDF2 after the first: the pair is (U_j, U_1 xor
    ... xor U_j). *)
Definition pbkdf2Step (password : bytes) (s : bytes * bytes) : bytes * bytes :=
  let u := hmac password (fst s) in (u, xorBytes (snd s) u).

(** The block T_i = U_1 xor ... xor U_c. *)
Definition pbkdf2Block (password slt : bytes) (c i : N) : bytes :=
  let u1 := hmac password (slt ++ int32be i) in
  snd (N.iter (c - 1) (pbkdf2Step password) (u1, u1)).

(** PBKDF2 with HMAC-SHA-256 as the pseudorandom function: the first
    [dkLen] bytes of T_1, T_2, ... *)
Definition pbkdf2 (password slt : bytes) (c : N) (dkLen : nat) : bytes :=
  let blocks := (dkLen + 31) / 32 in
  firstn dkLen
    (flat_map (fun i => pbkdf2Block password slt c (N.of_nat (S i)))
              (seq 0 blocks)).

(** ** AES-GCM: counter mode and tag *)

Definition keystream (k nonce : bytes) (n : nat) : bytes :=
  map (gcmKeystreamByte k nonce) (seq 0 n).

(** Authenticated encryption: the ciphertext followed by the tag cut to
    [tagBytes] bytes. *)
Definition gcmEncrypt (k nonce aad : bytes) (tagBytes : nat) (p : bytes) : bytes :=
  let c := xorBytes p (keystream k nonce (length p)) in
  c ++ firstn tagBytes (gcmTag k nonce aad c).

(** Authenticated decryption of a ciphertext that ends with its tag:
    [None] when the tag is not the tag of the ciphertext. *)
Definition gcmDecrypt (k nonce aad : bytes) (tagBytes : nat) (data : bytes)
  : option bytes :=
  let n := (length data - tagBytes)%nat in
  let c := firstn n data in
  let t := skipn n data in
  if Bytes.eqb t (firstn tagBytes (gcmTag k nonce aad c))
  then Some (xorBytes c (keystream k nonce n))
  else None.

(** ** The methods of [crypto.subtle] that [crypto.ts] calls *)

(** [importKey('raw', keyData, { name: 'PBKDF2' }, extractable, usages)] *)
Definition importKeyPbkdf2 (data : bytes) (ext : bool) (us : list KeyUsage)
  : M CryptoKey :=
  if negb (forallb (fun u => KeyUsage_eqb u deriveKey_usage
                             || KeyUsage_eqb u deriveBits_usage) us)
  then throw SyntaxError
  else if ext then throw SyntaxError
  else if (length us =? 0)%nat then throw SyntaxError
  else ret (mkCryptoKey false PBKDF2_key us data).

(** The import of raw AES-GCM key material, the last step of
    [deriveKey]. *)
Definition importKeyAesGcm (data : bytes) (ext : bool) (us : list KeyUsage)
  : M CryptoKey :=
  if negb (forallb (fun u => KeyUsage_eqb u encrypt_usage
                             || KeyUsage_eqb u decrypt_usage
                             || KeyUsage_eqb u wrapKey_usage
                             || KeyUsage_eqb u unwrapKey_usage) us)
  then throw SyntaxError
  else
    let bits := (8 * N.of_nat (length data))%N in
    if negb ((bits =? 128) || (bits =? 192) || (bits =? 256))%N
    then throw DataError
    else if (length us =? 0)%nat then throw SyntaxError
    else ret (mkCryptoKey ext (AES_GCM_key bits) us data).

(** [deriveKey(pbkdf2Params, baseKey, { name: 'AES-GCM', length },
    extractable, usages)] *)
Definition deriveKey (params : Pbkdf2Params) (baseKey : CryptoKey)
    (lengthBits : N) (ext : bool) (us : list KeyUsage) : M CryptoKey :=
  if negb (sameAlgorithmName PBKDF2_key (algorithm baseKey))
  then throw InvalidAccessError
  else if negb (hasUsage deriveKey_usage (usages baseKey))
  then throw InvalidAccessError
  else if negb ((lengthBits =? 128) || (lengthBits =? 192) || (lengthBits =? 256))%N
  then throw OperationError
  else if (iterations params =? 0)%N then throw OperationError
  else
    let secret := pbkdf2 (keyData baseKey) (salt params) (iterations params)
                         (N.to_nat (lengthBits / 8)) in
    importKeyAesGcm secret ext us.

(** The tag length of the parameters in bytes: 128 bits when absent. *)
Definition tagBytesOf (params : AesGcmParams) : Result nat :=
  match tagLength params with
  | None => Ok 16%nat
  | Some t =>
      if ((t =? 32) || (t =? 64) || (t =? 96) || (t =? 104) || (t =? 112)
          || (t =? 120) || (t =? 128))%N
      then Ok (N.to_nat (t / 8))
      else Throw OperationError
  end.

Definition aadOf (params : AesGcmParams) : bytes :=
  match additionalData params with
  | Some a => a
  | None => []
  end.

(** The longest plaintext AES-GCM takes: 2^39 - 256 bytes. *)
Definition maxPlaintext : Z := 2 ^ 39 - 256.

(** [encrypt(aesGcmParams, key, data)].  The call is entered in the
    world's record of AES-GCM encryptions. *)
Definition encrypt (params : AesGcmParams) (key : CryptoKey) (data : bytes)
  : M bytes :=
  if negb (sameAlgorithmName (AES_GCM_key 0) (algorithm key))
  then throw InvalidAccessError
  else if negb (hasUsage encrypt_usage (usages key))
  then throw InvalidAccessError
  else if (maxPlaintext <? Bytes.size data)%Z then throw OperationError
  else
    tagBytes <- lift (tagBytesOf params) ;;
    fun w =>
      (Ok (gcmEncrypt (keyData key) (iv params) (aadOf params) tagBytes data),
       mkWorld (entropy w) (cursor w)
               (gcmLog w ++ [mkGcmCall (keyData key) (iv params)
                                       (aadOf params) data])).

(** [decrypt(aesGcmParams, key, data)] *)
Definition decrypt (params : AesGcmParams) (key : CryptoKey) (data : bytes)
  : M bytes :=
  if negb (sameAlgorithmName (AES_GCM_key 0) (algorithm key))
  then throw InvalidAccessError
  else if negb (hasUsage decrypt_usage (usages key))
  then throw InvalidAccessError
  else
    tagBytes <- lift (tagBytesOf params) ;;
    if (length data <? tagBytes)%nat then throw OperationError
    else
      match gcmDecrypt (keyData key) (iv params) (aadOf params) tagBytes data with
      | Some p => ret p
      | None => throw OperationError
      end.

(** [exportKey('raw', key)]: refused for a key that is not extractable. *)
Definition exportKey (key : CryptoKey) : M bytes :=
  if negb (extractable key) then throw InvalidAccessError
  else
    match algorithm key with
    | AES_GCM_key _ => ret (keyData key)
    | PBKDF2_key => throw NotSupportedError
    end.

(** [digest('SHA-256', data)] *)
Definition digest (data : bytes) : M bytes := ret (sha256 data).

End WithPrimitives.

End Subtle.

(* ================================================================== *)
(** * src/lib/crypto.ts *)
(* ================================================================== *)

Module Crypto.

Definition PBKDF2_ITERATIONS : N := 200000.
Definition SALT_LENGTH : nat := 16.
Definition IV_LENGTH : nat := 12.
Definition KEY_LENGTH : N := 256.

(** The [salt] argument of [deriveKey]: [Uint8Array | string]. *)
Inductive Salt : Type :=
| SaltArray (a : bytes)
| SaltString (s : JSString.t).

(** The result of [encryptString]: [{ ciphertext, iv }], both base64. *)
Record EncryptedString : Type := mkEncryptedString {
  ciphertext : JSString.t;
  iv : JSString.t
}.

(** The result of [encryptFileStream]: [{ encryptedBlob, iv }].  Its [iv]
    is the field [fileIv] here; [iv] is the field of [EncryptedString]. *)
Record EncryptedFile : Type := mkEncryptedFile {
  encryptedBlob : Blob.t;
  fileIv : JSString.t
}.

(** [target.set(source, position)] on [Uint8Array]s. *)
Definition typedArraySet (target source : bytes) (position : nat) : Result bytes :=
  if (length target <? position + length source)%nat then Throw RangeError
  else Ok (firstn position target ++ source
           ++ skipn (position + length source) target).

(** [for (const chunk of chunks) { combined.set(chunk, position);
    position += chunk.length; }] *)
Fixpoint combineLoop (chunks : list bytes) (combined : bytes) (position : nat)
  : Result bytes :=
  match chunks with
  | [] => Ok combined
  | chunk :: rest =>
      match typedArraySet combined chunk position with
      | Ok combined' => combineLoop rest combined' (position + length chunk)
      | Throw e => Throw e
      end
  end.

(** The "Combine all chunks" block shared by [encryptFileStream] and
    [decryptFileStream]. *)
Definition combineChunks (chunks : list bytes) : Result bytes :=
  let totalLength := fold_left (fun sum chunk => sum + length chunk)%nat chunks 0%nat in
  let combined := repeat x00 totalLength in
  combineLoop chunks combined 0.

(** 2 MiB chunks *)
Definition chunkSize : Z := 2 * 1024 * 1024.

(** [{ name: 'AES-GCM', iv }] *)
Definition aesGcm (nonce : bytes) : Subtle.AesGcmParams :=
  Subtle.mkAesGcmParams nonce None None.

Section WithPrimitives.

Context {P : Primitives}.

(** [deriveKey], crypto.ts lines 17-49.  Both platform calls are given
    [extractable = false]. *)
Definition deriveKey (roomCode : JSString.t) (salt : Salt) : M Subtle.CryptoKey :=
  saltArray <-
    match salt with
    | SaltString s =>
        decoded <- lift (Base64.atob s) ;;
        ret (JSString.toUint8Array decoded)
    | SaltArray a => ret a
    end ;;
  (* Import room code as key material *)
  keyMaterial <-
    Subtle.importKeyPbkdf2 (TextCodec.encode roomCode) false
      [Subtle.deriveBits_usage; Subtle.deriveKey_usage] ;;
  (* Derive key using PBKDF2 *)
  key <-
    Subtle.deriveKey (Subtle.mkPbkdf2Params saltArray PBKDF2_ITERATIONS)
      keyMaterial KEY_LENGTH false
      [Subtle.encrypt_usage; Subtle.decrypt_usage] ;;
  ret key.

(** [generateSalt], lines 55-58. *)
Definition generateSalt : M JSString.t :=
  salt <- getRandomValues SALT_LENGTH ;;
  lift (Base64.btoa (JSString.fromCharCode salt)).

(** [encryptString], lines 66-83. *)
Definition encryptString (plaintext : JSString.t) (key : Subtle.CryptoKey)
  : M EncryptedString :=
  nonce <- getRandomValues IV_LENGTH ;;
  let encoded := TextCodec.encode plaintext in
  ct <- Subtle.encrypt (aesGcm nonce) key encoded ;;
  ctB64 <- lift (Base64.btoa (JSString.fromCharCode ct)) ;;
  ivB64 <- lift (Base64.btoa (JSString.fromCharCode nonce)) ;;
  ret (mkEncryptedString ctB64 ivB64).

(** [decryptString], lines 92-107. *)
Definition decryptString (ct ivB64 : JSString.t) (key : Subtle.CryptoKey)
  : M JSString.t :=
  ctDecoded <- lift (Base64.atob ct) ;;
  let ciphertextArray := JSString.toUint8Array ctDecoded in
  ivDecoded <- lift (Base64.atob ivB64) ;;
  let ivArray := JSString.toUint8Array ivDecoded in
  plaintext <- Subtle.decrypt (aesGcm ivArray) key ciphertextArray ;;
  ret (TextCodec.decode plaintext).

(** [while (offset < file.size) { ... offset += chunkSize; }] of
    [encryptFileStream] (lines 124-136), from an offset and the chunks
    pushed so far.  The nonce is the one drawn before the loop. *)
Equations? encryptLoop (file : Blob.t) (key : Subtle.CryptoKey) (nonce : bytes)
    (offset : Z) (chunks : list bytes)
  : M (list bytes) by wf (Z.to_nat (Blob.size file - offset)) lt :=
encryptLoop file key nonce offset chunks with Z_lt_dec offset (Blob.size file) := {
  | left _ =>
      let chunk := Blob.slice file offset (offset + chunkSize) in
      arrayBuffer <- Blob.arrayBuffer chunk ;;
      encrypted <- Subtle.encrypt (aesGcm nonce) key arrayBuffer ;;
      encryptLoop file key nonce (offset + chunkSize) (chunks ++ [encrypted])
  | right _ => ret chunks }.
Proof. unfold chunkSize. lia. Qed.

(** [encryptFileStream], lines 115-151. *)
Definition encryptFileStream (file : Blob.t) (key : Subtle.CryptoKey)
  : M EncryptedFile :=
  nonce <- getRandomValues IV_LENGTH ;;
  chunks <- encryptLoop file key nonce 0 [] ;;
  (* Combine all chunks *)
  combined <- lift (combineChunks chunks) ;;
  ivB64 <- lift (Base64.btoa (JSString.fromCharCode nonce)) ;;
  ret (mkEncryptedFile
         (Blob.ofArray combined (Some (JSString.js "application/octet-stream")))
         ivB64).

(** [while (offset < blob.size) { ... offset += chunkSize; }] of
    [decryptFileStream] (lines 170-182): the blob is read in ranges of
    [chunkSize] bytes. *)
Equations? decryptLoop (blob : Blob.t) (key : Subtle.CryptoKey) (ivArray : bytes)
    (offset : Z) (chunks : list bytes)
  : M (list bytes) by wf (Z.to_nat (Blob.size blob - offset)) lt :=
decryptLoop blob key ivArray offset chunks with Z_lt_dec offset (Blob.size blob) := {
  | left _ =>
      let chunk := Blob.slice blob offset (offset + chunkSize) in
      arrayBuffer <- Blob.arrayBuffer chunk ;;
      decrypted <- Subtle.decrypt (aesGcm ivArray) key arrayBuffer ;;
      decryptLoop blob key ivArray (offset + chunkSize) (chunks ++ [decrypted])
  | right _ => ret chunks }.
Proof. unfold chunkSize. lia. Qed.

(** [decryptFileStream], lines 160-194. *)
Definition decryptFileStream (blob : Blob.t) (ivB64 : JSString.t)
    (key : Subtle.CryptoKey) : M Blob.t :=
  ivDecoded <- lift (Base64.atob ivB64) ;;
  let ivArray := JSString.toUint8Array ivDecoded in
  chunks <- decryptLoop blob key ivArray 0 [] ;;
  (* Combine all chunks *)
  combined <- lift (combineChunks chunks) ;;
  ret (Blob.ofArray combined None).

(** [computeVerifierHash], lines 201-205. *)
Definition computeVerifierHash (key : Subtle.CryptoKey) : M JSString.t :=
  exported <- Subtle.exportKey key ;;
  hash <- Subtle.digest exported ;;
  lift (Base64.btoa (JSString.fromCharCode hash)).

(** [verifyRoomCode], lines 214-226. *)
Definition verifyRoomCode (roomCode salt expectedHash : JSString.t) : M bool :=
  tryCatch
    (key <- deriveKey roomCode (SaltString salt) ;;
     hash <- computeVerifierHash key ;;
     ret (JSString.eqb hash expectedHash))
    (ret false).

End WithPrimitives.

End Crypto.

(* ================================================================== *)
(** * Vocabulary of the properties *)
(* ================================================================== *)

(** A room key as [Crypto.deriveKey] makes them: an AES-GCM key that may
    encrypt and decrypt. *)
Definition validRoomKey (key : Subtle.CryptoKey) : bool :=
  Subtle.sameAlgorithmName (Subtle.AES_GCM_key 0) (Subtle.algorithm key)
  && Subtle.hasUsage Subtle.encrypt_usage (Subtle.usages key)
  && Subtle.hasUsage Subtle.decrypt_usage (Subtle.usages key).

(** The [n] successive ranges of [Crypto.chunkSize] bytes of [b] that
    start at [offset]. *)
Fixpoint chunksFrom (n : nat) (b : bytes) (offset : Z) : list bytes :=
  match n with
  | O => []
  | S n' =>
      Bytes.slice b offset (offset + Crypto.chunkSize)
      :: chunksFrom n' b (offset + Crypto.chunkSize)
  end.

(** The number of chunks of [sz] bytes: [sz / chunkSize] rounded up. *)
Definition chunkCount (sz : Z) : nat :=
  Z.to_nat ((sz + Crypto.chunkSize - 1) / Crypto.chunkSize).

(** The chunks of a payload: 2 MiB each, the last one possibly shorter. *)
Definition chunksOf (b : bytes) : list bytes :=
  chunksFrom (chunkCount (Bytes.size b)) b 0.

(** The AES-GCM encryptions made between two worlds. *)
Definition callsSince (w w' : World) : list GcmCall :=
  skipn (length (gcmLog w)) (gcmLog w').

(** What [Subtle.decrypt] does to one range of the blob under
    [{ name: 'AES-GCM', iv }]: no associated data, 16-byte tag. *)
Definition openChunk {P : Primitives} (key nonce c : bytes) : option bytes :=
  if (length c <? 16)%nat then None
  else Subtle.gcmDecrypt key nonce [] 16 c.

Fixpoint openAll {P : Primitives} (key nonce : bytes) (cs : list bytes)
  : option (list bytes) :=
  match cs with
  | [] => Some []
  | c :: rest =>
      match openChunk key nonce c, openAll key nonce rest with
      | Some p, Some ps => Some (p :: ps)
      | _, _ => None
      end
  end.

(** The key derivation in the words of the specification: PBKDF2 over
    HMAC-SHA-256, 200,000 iterations, on the UTF-8 encoding of the room
    code with the salt as salt, 256 bits (32 bytes) of output. *)
Definition specDerive {P : Primitives} (roomCode : JSString.t) (salt : bytes)
  : bytes :=
  Subtle.pbkdf2 (TextCodec.encode roomCode) salt 200000 32.

(** Base64 without the padding. *)
Fixpoint encodeBody (l : list N) : JSString.t :=
  (match l with
   | [] => []
   | [a] => [Base64.digit (a / 4); Base64.digit ((a mod 4) * 16)]
   | [a; b] =>
       [Base64.digit (a / 4); Base64.digit ((a mod 4) * 16 + b / 16);
        Base64.digit ((b mod 16) * 4)]
   | a :: b :: c :: rest =>
       Base64.digit (a / 4) :: Base64.digit ((a mod 4) * 16 + b / 16)
       :: Base64.digit ((b mod 16) * 4 + c / 64) :: Base64.digit (c mod 64)
       :: encodeBody rest
   end)%N.

(** The bytes [Crypto.deriveKey] takes as salt: the array itself, or the
    base64 decoding of the string. *)
Definition saltBytesOf (salt : Crypto.Salt) : Result bytes :=
  match salt with
  | Crypto.SaltArray a => Ok a
  | Crypto.SaltString s =>
      match Base64.atob s with
      | Ok decoded => Ok (JSString.toUint8Array decoded)
      | Throw e => Throw e
      end
  end.

(** The key the specification derives from a room code and salt bytes, as
    a [CryptoKey]: AES-GCM, 256 bits, for encryption and decryption, not
    extractable. *)
Definition derivedKey {P : Primitives} (roomCode : JSString.t) (salt : bytes)
  : Subtle.CryptoKey :=
  Subtle.mkCryptoKey false (Subtle.AES_GCM_key 256)
    [Subtle.encrypt_usage; Subtle.decrypt_usage]
    (specDerive roomCode salt).

(** A Unicode scalar value: a code point that is not a surrogate. *)
Definition isScalar (c : N) : Prop :=
  (c < 0xD800 \/ (0xE000 <= c /\ c < 0x110000))%N.

(** A string without the byte order mark it may begin with. *)
Definition withoutBOM (s : JSString.t) : JSString.t :=
  match s with
  | c :: rest => if (c =? 0xFEFF)%N then rest else s
  | [] => []
  end.

(** A character that may appear in the body of a base64 text: a digit of
    the alphabet. *)
Definition isDigit (c : N) : Prop := exists i, (i < 64)%N /\ c = Base64.digit i.

(** The ciphertext part of an encryption: the plaintext under the key
    stream. *)
Definition gcmBody {P : Primitives} (k nonce p : bytes) : bytes :=
  xorBytes p (Subtle.keystream k nonce (length p)).

(** The world after further AES-GCM encryptions. *)
Definition logged (w : World) (calls : list GcmCall) : World :=
  mkWorld (entropy w) (cursor w) (gcmLog w ++ calls).

(** The next [n] bytes of the random source of a world, and the world
    once they are drawn. *)
Definition drawn (w : World) (n : nat) : bytes :=
  map (fun i => entropy w (cursor w + i)%nat) (seq 0 n).

Definition advanced (w : World) (n : nat) : World :=
  mkWorld (entropy w) (cursor w + n) (gcmLog w).

(** ** A concrete choice of the cores

    Checksums in place of SHA-256, of the AES key stream and of the GCM
    tag: enough to run the program on examples. *)

Definition sumBytes (b : bytes) : N :=
  fold_right (fun x acc => Byte.to_N x + acc)%N 0%N b.

Definition checksumPrimitives : Primitives := {|
  sha256 := fun m => u8 (sumBytes m + N.of_nat (length m)) :: repeat x00 31;
  gcmKeystreamByte := fun k nonce i => u8 (sumBytes k + sumBytes nonce + N.of_nat i);
  gcmTag := fun k nonce aad c =>
    u8 (sumBytes k + sumBytes nonce + sumBytes aad + sumBytes c)
    :: repeat x01 15
|}.

(** The payload of the repository's test "should handle large files
    (chunked encryption)": 3 * 1024 * 1024 bytes, the [i]-th being
    [i % 256]. *)
Definition largeContent : bytes :=
  map (fun i => u8 (N.of_nat i)) (seq 0 (Z.to_nat (3 * 1024 * 1024))).

Definition largeFile : Blob.t :=
  Blob.mk largeContent (JSString.js "application/octet-stream").

(** A plaintext of 2 MiB - 16 bytes, all equal: with its tag it fills one
    range of the decryptor. *)
Definition fullPlain (b : byte) : bytes :=
  repeat b (Z.to_nat (Crypto.chunkSize - 16)).

(** A world whose random source counts 0, 1, 2, ... *)
Definition world0 : World := mkWorld (fun i => u8 (N.of_nat i)) 0 [].

(** A 256-bit AES-GCM key with the properties [Crypto.deriveKey] gives its
    keys. *)
Definition sampleKey : Subtle.CryptoKey :=
  Subtle.mkCryptoKey false (Subtle.AES_GCM_key 256)
    [Subtle.encrypt_usage; Subtle.decrypt_usage] (repeat x2a 32).

(* ================================================================== *)
(** * Strings of the pages *)
(* ================================================================== *)

Module JSText.

(** The code units ECMAScript counts as [WhiteSpace] or [LineTerminator],
    which [trim] removes: TAB, LF, VT, FF, CR, SPACE, NBSP, the space
    separators of Unicode, LS, PS and U+FEFF. *)
Definition isWhiteSpace (c : N) : bool :=
  ((c =? 0x9) || (c =? 0xA) || (c =? 0xB) || (c =? 0xC) || (c =? 0xD)
   || (c =? 0x20) || (c =? 0xA0) || (c =? 0x1680)
   || ((0x2000 <=? c) && (c <=? 0x200A))
   || (c =? 0x2028) || (c =? 0x2029) || (c =? 0x202F) || (c =? 0x205F)
   || (c =? 0x3000) || (c =? 0xFEFF))%N.

Fixpoint trimStart (s : JSString.t) : JSString.t :=
  match s with
  | [] => []
  | c :: rest => if isWhiteSpace c then trimStart rest else s
  end.

Definition trimEnd (s : JSString.t) : JSString.t := rev (trimStart (rev s)).

(** [s.trim()] *)
Definition trim (s : JSString.t) : JSString.t := trimEnd (trimStart s).

(** [ToBoolean] of a string: the empty string is falsy. *)
Definition truthy (s : JSString.t) : bool :=
  match s with [] => false | _ :: _ => true end.

(** [ToBoolean] of an optional string: [undefined] and [''] are falsy. *)
Definition truthyOpt (s : option JSString.t) : bool :=
  match s with Some s => truthy s | None => false end.

(** [s.startsWith(prefix)] *)
Definition startsWith (s prefix : JSString.t) : bool :=
  JSString.eqb (firstn (length prefix) s) prefix.

(** [s.substring(start, end)]: both bounds are brought into the string
    and swapped when out of order. *)
Definition substring (s : JSString.t) (start stop : nat) : JSString.t :=
  let a := Nat.min start (length s) in
  let b := Nat.min stop (length s) in
  firstn (Nat.max a b - Nat.min a b) (skipn (Nat.min a b) s).

(** [s.padStart(targetLength, padString)] *)
Definition padStart (s : JSString.t) (targetLength : nat)
    (padString : JSString.t) : JSString.t :=
  if (targetLength <=? length s)%nat then s
  else
    match padString with
    | [] => s
    | _ :: _ =>
        let fillLen := (targetLength - length s)%nat in
        firstn fillLen (concat (repeat padString fillLen)) ++ s
    end.

(** The digit [d] of a number written in base 16: [0-9a-f]. *)
Definition hexDigit (d : N) : N := (if d <? 10 then 48 + d else 87 + d)%N.

(** [b.toString(16)] for an element [b] of a [Uint8Array]: one or two
    digits, no leading zero. *)
Definition toString16 (b : byte) : JSString.t :=
  let n := Byte.to_N b in
  (if n <? 16 then [hexDigit n] else [hexDigit (n / 16); hexDigit (n mod 16)])%N.

End JSText.

(* ================================================================== *)
(** * Pages: state, services and notices *)
(* ================================================================== *)

(** What a page can catch: an exception of the platform, or the rejection
    of a call to Firestore, Storage or [fetch]. *)
Inductive Failure : Type :=
| DomException (e : Exn)
| ServiceFailure (message : JSString.t).

Inductive Outcome (A : Type) : Type :=
| Done (a : A)
| Failed (f : Failure).

Arguments Done {A} a.
Arguments Failed {A} f.

(** What a page tells the user or the console. *)
Inductive Notice : Type :=
| ConsoleError (label : JSString.t) (f : Failure)
| ConsoleWarn (label : JSString.t) (f : Failure)
| Alert (text : JSString.t).

(** A page: the React state of the component, the state of the services
    it calls (Firestore, Storage, the clock), the world of [crypto], and
    the notices given so far. *)
Record Page (St Env : Type) : Type := mkPage {
  ui : St;
  services : Env;
  world : World;
  notices : list Notice
}.

Arguments mkPage {St Env} ui services world notices.
Arguments ui {St Env} p.
Arguments services {St Env} p.
Arguments world {St Env} p.
Arguments notices {St Env} p.

(** An event handler of a page. *)
Definition Handler (St Env A : Type) : Type :=
  Page St Env -> Outcome A * Page St Env.

Definition hret {St Env A} (a : A) : Handler St Env A := fun p => (Done a, p).

Definition hbind {St Env A B} (m : Handler St Env A) (k : A -> Handler St Env B) : Handler St Env B :=
  fun p =>
    match m p with
    | (Done a, p') => k a p'
    | (Failed f, p') => (Failed f, p')
    end.

(** [try { body } catch (err) { handler }] *)
Definition hcatch {St Env A} (body : Handler St Env A) (handler : Failure -> Handler St Env A)
  : Handler St Env A :=
  fun p =>
    match body p with
    | (Done a, p') => (Done a, p')
    | (Failed f, p') => handler f p'
    end.

(** [try { body } finally { finalizer }] *)
Definition hfinally {St Env A} (body : Handler St Env A) (finalizer : Handler St Env unit)
  : Handler St Env A :=
  fun p =>
    match body p with
    | (r, p') =>
        match finalizer p' with
        | (Done _, p'') => (r, p'')
        | (Failed f, p'') => (Failed f, p'')
        end
    end.

(** [await] of a call into crypto.ts. *)
Definition await {St Env A} (m : M A) : Handler St Env A :=
  fun p =>
    match m (world p) with
    | (Ok a, w') => (Done a, mkPage (ui p) (services p) w' (notices p))
    | (Throw e, w') =>
        (Failed (DomException e), mkPage (ui p) (services p) w' (notices p))
    end.

(** A call to a service. *)
Definition service {St Env A} (op : Env -> Outcome A * Env) : Handler St Env A :=
  fun p =>
    match op (services p) with
    | (r, env') => (r, mkPage (ui p) env' (world p) (notices p))
    end.

(** The state the handler was created with. *)
Definition getState {St Env} : Handler St Env St := fun p => (Done (ui p), p).

(** A React state setter. *)
Definition setState {St Env} (f : St -> St) : Handler St Env unit :=
  fun p => (Done tt, mkPage (f (ui p)) (services p) (world p) (notices p)).

(** [console.error], [console.warn], [alert]. *)
Definition notify {St Env} (n : Notice) : Handler St Env unit :=
  fun p => (Done tt, mkPage (ui p) (services p) (world p) (notices p ++ [n])).

Declare Scope page_scope.
Delimit Scope page_scope with page.
Notation "x <- m ;; k" := (hbind m (fun x => k))
  (at level 61, m at next level, right associativity) : page_scope.
Notation "m ;;; k" := (hbind m (fun _ => k))
  (at level 61, right associativity) : page_scope.

(* ================================================================== *)
(** * firebase.ts: the documents *)
(* ================================================================== *)

Module Firebase.

(** A Firestore [Timestamp]. *)
Record Timestamp : Type := mkTimestamp {
  seconds : Z;
  nanoseconds : Z
}.

(** [RoomMetadata], lines 59-64. *)
Record RoomMetadata : Type := mkRoomMetadata {
  salt : JSString.t;
  verifierHash : option JSString.t;
  createdAt : Timestamp;
  lastActivity : Timestamp
}.

End Firebase.

(* ================================================================== *)
(** * RoomJoin.tsx (unnamed/part_001, lines 399-586) *)
(* ================================================================== *)

Module RoomJoin.

(** The [useState] cells of the component. *)
Record State : Type := mkState {
  roomCode : JSString.t;
  isCreating : bool;
  isJoining : bool;
  error : option JSString.t
}.

(** The object handed to [onJoin]. *)
Record RoomState : Type := mkRoomState {
  roomId : JSString.t;
  joinedRoomCode : JSString.t;
  key : Subtle.CryptoKey;
  salt : JSString.t;
  peerId : JSString.t
}.

Definition setError {Env} (e : option JSString.t) : Handler State Env unit :=
  setState (fun s => mkState (roomCode s) (isCreating s) (isJoining s) e).

Definition setIsCreating {Env} (b : bool) : Handler State Env unit :=
  setState (fun s => mkState (roomCode s) b (isJoining s) (error s)).

Definition setIsJoining {Env} (b : bool) : Handler State Env unit :=
  setState (fun s => mkState (roomCode s) (isCreating s) b (error s)).

Section WithServices.

Context {P : Primitives}.

(** The services of the page: [createRoom] and [getRoomMetadata] of
    firebase.ts, [generatePeerId] of webrtc.ts, and the [onJoin] property
    of the component. *)
Variable Env : Type.
Variable createRoom :
  JSString.t -> JSString.t -> option JSString.t -> Env -> Outcome unit * Env.
Variable getRoomMetadata :
  JSString.t -> Env -> Outcome (option Firebase.RoomMetadata) * Env.
Variable generatePeerId : Env -> Outcome JSString.t * Env.
Variable onJoin : RoomState -> Env -> Outcome unit * Env.

(** [generateRoomId], lines 580-586. *)
Definition generateRoomId (code : JSString.t) : M JSString.t :=
  let data := TextCodec.encode code in
  hashBuffer <- Subtle.digest data ;;
  let hashArray := hashBuffer in
  ret (JSText.substring
         (concat (map (fun b => JSText.padStart (JSText.toString16 b) 2
                                  (JSString.js "0"))
                      hashArray))
         0 32).

(** [handleCreateRoom], lines 415-455. *)
Definition handleCreateRoom : Handler State Env unit :=
  (s <- getState ;;
   let roomCode := roomCode s in
   if negb (JSText.truthy (JSText.trim roomCode)) then
     setError (Some (JSString.js "Please enter a room code"))
   else
     setIsCreating true ;;;
     setError None ;;;
     hfinally
       (hcatch
          ((* Generate salt *)
           salt <- await Crypto.generateSalt ;;
           (* Derive key *)
           key <- await (Crypto.deriveKey roomCode (Crypto.SaltString salt)) ;;
           (* Generate verifier hash *)
           verifierHash <- await (Crypto.computeVerifierHash key) ;;
           (* Generate room ID from room code hash *)
           roomId <- await (generateRoomId roomCode) ;;
           (* Create room in Firestore *)
           service (createRoom roomId salt (Some verifierHash)) ;;;
           peerId <- service generatePeerId ;;
           service (onJoin (mkRoomState roomId roomCode key salt peerId)))
          (fun err =>
             notify (ConsoleError (JSString.js "Error creating room:") err) ;;;
             setError (Some (JSString.js "Failed to create room. Please try again."))))
       (setIsCreating false))%page.

(** [handleJoinRoom], lines 457-507. *)
Definition handleJoinRoom : Handler State Env unit :=
  (s <- getState ;;
   let roomCode := roomCode s in
   if negb (JSText.truthy (JSText.trim roomCode)) then
     setError (Some (JSString.js "Please enter a room code"))
   else
     setIsJoining true ;;;
     setError None ;;;
     hfinally
       (hcatch
          ((* Generate room ID from room code *)
           roomId <- await (generateRoomId roomCode) ;;
           (* Get room metadata *)
           metadata <- service (getRoomMetadata roomId) ;;
           match metadata with
           | None =>
               setError (Some (JSString.js "Room not found. Please check your room code.")) ;;;
               setIsJoining false
           | Some metadata =>
               let join : Handler State Env unit :=
                 (* Derive key *)
                 key <- await (Crypto.deriveKey roomCode
                                 (Crypto.SaltString (Firebase.salt metadata))) ;;
                 peerId <- service generatePeerId ;;
                 service (onJoin (mkRoomState roomId roomCode key
                                    (Firebase.salt metadata) peerId)) in
               (* Verify room code (optional but recommended) *)
               match Firebase.verifierHash metadata with
               | Some expected =>
                   if JSText.truthy expected then
                     isValid <- await (Crypto.verifyRoomCode roomCode
                                         (Firebase.salt metadata) expected) ;;
                     if negb isValid then
                       setError (Some (JSString.js "Invalid room code. Please check and try again.")) ;;;
                       setIsJoining false
                     else join
                   else join
               | None => join
               end
           end)
          (fun err =>
             notify (ConsoleError (JSString.js "Error joining room:") err) ;;;
             setError (Some (JSString.js "Failed to join room. Please check your room code and try again."))))
       (setIsJoining false))%page.

End WithServices.

End RoomJoin.

(* ================================================================== *)
(** * Vocabulary of the properties of the pages *)
(* ================================================================== *)

(** Lower-case hexadecimal, two digits for each byte. *)
Definition hexOf (b : bytes) : JSString.t :=
  flat_map (fun x => [JSText.hexDigit (Byte.to_N x / 16);
                      JSText.hexDigit (Byte.to_N x mod 16)]%N) b.

Definition isLowerHex (c : N) : bool :=
  ((48 <=? c) && (c <=? 57) || (97 <=? c) && (c <=? 102))%N.

(** The identifier of the room of a room code: the first 16 bytes of the
    SHA-256 digest of its UTF-8 encoding, in hexadecimal. *)
Definition roomIdOf {P : Primitives} (code : JSString.t) : JSString.t :=
  hexOf (firstn 16 (sha256 (TextCodec.encode code))).

(** The state of [RoomJoin] with another error line and other flags. *)
Definition joinState (s : RoomJoin.State) (creating joining : bool)
    (e : option string) : RoomJoin.State :=
  RoomJoin.mkState (RoomJoin.roomCode s) creating joining
    (option_map JSString.js e).

(** A room store for examples: the rooms created, newest first. *)
Definition sampleCreateRoom (roomId salt : JSString.t) (h : option JSString.t)
    (env : list (JSString.t * Firebase.RoomMetadata))
  : Outcome unit * list (JSString.t * Firebase.RoomMetadata) :=
  (Done tt,
   (roomId, Firebase.mkRoomMetadata salt h (Firebase.mkTimestamp 0 0)
              (Firebase.mkTimestamp 0 0)) :: env).

Definition sampleGetRoomMetadata (roomId : JSString.t)
    (env : list (JSString.t * Firebase.RoomMetadata))
  : Outcome (option Firebase.RoomMetadata) * list (JSString.t * Firebase.RoomMetadata) :=
  (Done (option_map snd
           (find (fun r => JSString.eqb (fst r) roomId) env)), env).

Definition samplePeerId (env : list (JSString.t * Firebase.RoomMetadata))
  : Outcome JSString.t * list (JSString.t * Firebase.RoomMetadata) :=
  (Done (JSString.js "peer_0_abcdefghi"), env).

Definition sampleOnJoin (rs : RoomJoin.RoomState)
    (env : list (JSString.t * Firebase.RoomMetadata))
  : Outcome unit * list (JSString.t * Firebase.RoomMetadata) :=
  (Done tt, env).

(** A stored room with a verifier hash, and one without. *)
Definition verifiedRoom : Firebase.RoomMetadata :=
  Firebase.mkRoomMetadata (JSString.js "AAAAAAAAAAAAAAAAAAAAAA==")
    (Some (JSString.js "aGFzaA==")) (Firebase.mkTimestamp 0 0)
    (Firebase.mkTimestamp 0 0).

Definition plainRoom : Firebase.RoomMetadata :=
  Firebase.mkRoomMetadata (JSString.js "AAAAAAAAAAAAAAAAAAAAAA==")
    None (Firebase.mkTimestamp 0 0) (Firebase.mkTimestamp 0 0).

Definition joinPage (md : Firebase.RoomMetadata)
  : Page RoomJoin.State (list (JSString.t * Firebase.RoomMetadata)) :=
  mkPage (RoomJoin.mkState (JSString.js "room") false false None)
    [(roomIdOf (P := checksumPrimitives) (JSString.js "room"), md)] world0 [].

(* ================================================================== *)
(** * firebase.ts: messages and their pages *)
(* ================================================================== *)

Module Messages.

Import Firebase.

Inductive ContentType : Type := text | image | audio | video | file.

(** [mediaMeta] of [EncryptedMessage], lines 72-80. *)
Record MediaMeta : Type := mkMediaMeta {
  storagePath : JSString.t;
  fileName : option JSString.t;
  fileNameIv : option JSString.t;
  fileSize : option Z;
  mimeType : option JSString.t;
  mimeTypeIv : option JSString.t;
  mediaIv : option JSString.t
}.

(** [Omit<EncryptedMessage, 'timestamp'>]: what [sendMessage] is given. *)
Record Outgoing : Type := mkOutgoing {
  ciphertext : JSString.t;
  iv : JSString.t;
  senderFingerprint : option JSString.t;
  contentType : ContentType;
  mediaMeta : option MediaMeta
}.

(** [EncryptedMessage], lines 66-81: a message with the [timestamp]
    [sendMessage] adds (line 145). *)
Record EncryptedMessage : Type := mkEncryptedMessage {
  body : Outgoing;
  timestamp : Timestamp
}.

(** [timestamp.toDate()]: the milliseconds of a [Date]. *)
Definition toDate (t : Timestamp) : Z :=
  (seconds t * 1000 + nanoseconds t / 1000000)%Z.

Section Queries.

(** The state of Firestore, its [QueryDocumentSnapshot]s with their
    [data()], and [getDocs] on a query of the messages of a room ordered
    by [timestamp], newest first. *)
Variable Env : Type.
Variable Doc : Type.
Variable data : Doc -> EncryptedMessage.

Record Query : Type := mkQuery {
  room : JSString.t;
  startAfter : option Doc;
  limit : nat
}.

Variable getDocs : Query -> Env -> Outcome (list Doc) * Env.

Record MessagePage : Type := mkMessagePage {
  messages : list EncryptedMessage;
  lastDoc : option Doc
}.

(** [getMessages], lines 161-188. *)
Definition getMessages (roomId : JSString.t) (pageSize : option nat)
    (lastDoc : option Doc) : Env -> Outcome MessagePage * Env :=
  fun env =>
    let pageSize := match pageSize with Some n => n | None => 50%nat end in
    let q := mkQuery roomId None pageSize in
    let q :=
      match lastDoc with
      | Some d => mkQuery roomId (Some d) pageSize
      | None => q
      end in
    match getDocs q env with
    | (Failed f, env') => (Failed f, env')
    | (Done snapshot, env') =>
        let '(messages, newLastDoc) :=
          fold_left
            (fun (acc : list EncryptedMessage * option Doc) doc =>
               (fst acc ++ [data doc],
                match snd acc with
                | None => Some doc
                | Some d => Some d
                end))
            snapshot ([], None) in
        (* Reverse to get chronological order *)
        (Done (mkMessagePage (rev messages) newLastDoc), env')
    end.

End Queries.

End Messages.

(* ================================================================== *)
(** * ChatRoom.tsx (unnamed/part_001, lines 1-312) *)
(* ================================================================== *)

(** [Promise.all] of handlers: every one runs; the result is the list of
    their results, or a failure when one of them fails.  When several
    fail, the first in the list is reported here. *)
Fixpoint promiseAll {St Env A} (ms : list (Handler St Env A)) : Handler St Env (list A) :=
  match ms with
  | [] => hret []
  | m :: rest =>
      fun p =>
        match m p with
        | (r, p') =>
            match promiseAll rest p' with
            | (rs, p'') =>
                (match r, rs with
                 | Done a, Done l => Done (a :: l)
                 | Failed f, _ => Failed f
                 | Done _, Failed f => Failed f
                 end, p'')
            end
        end
  end.

Module ChatRoom.

Import Messages.

(** [DecryptedMessage], as [decryptMessage] builds it. *)
Record DecryptedMessage : Type := mkDecryptedMessage {
  id : JSString.t;
  content : JSString.t;
  timestamp : Z;
  contentType : ContentType;
  mediaUrl : option JSString.t;
  mediaIv : JSString.t;
  fileName : option JSString.t;
  fileSize : option Z;
  mimeType : option JSString.t
}.

(** A [File]: a blob with a name. *)
Record File : Type := mkFile {
  name : JSString.t;
  blob : Blob.t
}.

Section WithServices.

Context {P : Primitives}.

Variable Env : Type.
Variable Doc : Type.

(** The [useState] and [useRef] cells of the component. *)
Record State : Type := mkState {
  messages : list DecryptedMessage;
  loading : bool;
  loadingMore : bool;
  hasMore : bool;
  lastDocRef : option Doc;
  isInCall : bool
}.

Definition setMessages (f : list DecryptedMessage -> list DecryptedMessage)
  : Handler State Env unit :=
  setState (fun s => mkState (f (messages s)) (loading s) (loadingMore s)
                       (hasMore s) (lastDocRef s) (isInCall s)).

Definition setLoading (b : bool) : Handler State Env unit :=
  setState (fun s => mkState (messages s) b (loadingMore s) (hasMore s)
                       (lastDocRef s) (isInCall s)).

Definition setLoadingMore (b : bool) : Handler State Env unit :=
  setState (fun s => mkState (messages s) (loading s) b (hasMore s)
                       (lastDocRef s) (isInCall s)).

Definition setHasMore (b : bool) : Handler State Env unit :=
  setState (fun s => mkState (messages s) (loading s) (loadingMore s) b
                       (lastDocRef s) (isInCall s)).

Definition setLastDocRef (d : option Doc) : Handler State Env unit :=
  setState (fun s => mkState (messages s) (loading s) (loadingMore s)
                       (hasMore s) d (isInCall s)).

(** The property [roomState] of the component. *)
Variable roomState : RoomJoin.RoomState.

(** The services of the page: [getMessages], [sendMessage],
    [uploadEncryptedFile] and [downloadEncryptedFile] of firebase.ts; the
    file identifier made of [Date.now()] and [Math.random()]; and the
    download of a blob under a name through an anchor element. *)
Variable getMessages :
  JSString.t -> option nat -> option Doc -> Env -> Outcome (MessagePage Doc) * Env.
Variable sendMessage : JSString.t -> Outgoing -> Env -> Outcome JSString.t * Env.
Variable uploadEncryptedFile :
  JSString.t -> JSString.t -> Blob.t -> Env -> Outcome JSString.t * Env.
Variable downloadEncryptedFile : JSString.t -> Env -> Outcome Blob.t * Env.
Variable newFileId : Env -> Outcome JSString.t * Env.
Variable saveAs : Blob.t -> JSString.t -> Env -> Outcome unit * Env.

(** [a || b] on strings. *)
Definition orElse (a : option JSString.t) (b : JSString.t) : JSString.t :=
  match a with
  | Some s => if JSText.truthy s then s else b
  | None => b
  end.

(** [decryptMessage], lines 109-169, for a message with the [id] it was
    given. *)
Definition decryptMessage (msgId : JSString.t) (encryptedMsg : EncryptedMessage)
  : Handler State Env DecryptedMessage :=
  let m := body encryptedMsg in
  let key := RoomJoin.key roomState in
  (hcatch
    (content <-
       (if JSText.truthy (ciphertext m) then
          await (Crypto.decryptString (ciphertext m) (iv m) key)
        else hret []) ;;
     media <-
       match mediaMeta m with
       | None => hret (None, None, None)
       | Some meta =>
           if JSText.truthy (storagePath meta) then
             (* Decrypt filename and mimeType if they exist *)
             fileName <-
               match Messages.fileName meta, fileNameIv meta with
               | Some sealedName, Some nameIv =>
                   if JSText.truthy sealedName && JSText.truthy nameIv then
                     hcatch
                       (n <- await (Crypto.decryptString sealedName nameIv key) ;;
                        hret (Some n))
                       (fun e =>
                          notify (ConsoleWarn
                                    (JSString.js "Failed to decrypt filename:") e) ;;;
                          hret (Some (JSString.js "encrypted-file")))
                   else hret None
               | _, _ => hret None
               end ;;
             mimeType <-
               match Messages.mimeType meta, mimeTypeIv meta with
               | Some sealedType, Some typeIv =>
                   if JSText.truthy sealedType && JSText.truthy typeIv then
                     hcatch
                       (t <- await (Crypto.decryptString sealedType typeIv key) ;;
                        hret (Some t))
                       (fun e =>
                          notify (ConsoleWarn
                                    (JSString.js "Failed to decrypt mimeType:") e) ;;;
                          hret None)
                   else hret None
               | _, _ => hret None
               end ;;
             hret (Some (storagePath meta), fileName, mimeType)
           else hret (None, None, None)
       end ;;
     let '(mediaUrl, fileName, mimeType) := media in
     hret (mkDecryptedMessage
             msgId
             content
             (toDate (Messages.timestamp encryptedMsg))
             (Messages.contentType m)
             mediaUrl
             (orElse (match mediaMeta m with
                      | Some meta => Messages.mediaIv meta
                      | None => None
                      end) (iv m))
             fileName
             (match mediaMeta m with
              | Some meta => Messages.fileSize meta
              | None => None
              end)
             mimeType))
    (fun error =>
       notify (ConsoleError (JSString.js "Decryption error:") error) ;;;
       (fun p => (Failed error, p))))%page.

(** [loadMessages], lines 60-77. *)
Definition loadMessages : Handler State Env unit :=
  (hfinally
     (hcatch
        (setLoading true ;;;
         page <- service (getMessages (RoomJoin.roomId roomState) None None) ;;
         decrypted <- promiseAll (map (decryptMessage []) (Messages.messages page)) ;;
         setMessages (fun _ => decrypted) ;;;
         setLastDocRef (lastDoc page) ;;;
         setHasMore (length (Messages.messages page) =? 50)%nat)
        (fun error =>
           notify (ConsoleError (JSString.js "Error loading messages:") error)))
     (setLoading false))%page.

(** [loadMoreMessages], lines 79-107. *)
Definition loadMoreMessages : Handler State Env unit :=
  (s <- getState ;;
   if loadingMore s || negb (hasMore s) then hret tt
   else
     hfinally
       (hcatch
          (setLoadingMore true ;;;
           cursor <- (fun p => (Done (lastDocRef (ui p)), p)) ;;
           page <- service (getMessages (RoomJoin.roomId roomState)
                              (Some 50%nat) cursor) ;;
           if (length (Messages.messages page) =? 0)%nat then
             setHasMore false
           else
             decrypted <- promiseAll (map (decryptMessage [])
                                        (Messages.messages page)) ;;
             setMessages (fun prev => decrypted ++ prev) ;;;
             setLastDocRef (lastDoc page) ;;;
             setHasMore (length (Messages.messages page) =? 50)%nat)
          (fun error =>
             notify (ConsoleError (JSString.js "Error loading more messages:") error)))
       (setLoadingMore false))%page.

(** The callback given to [subscribeToMessages], lines 37-52. *)
Definition onMessage (msgId : JSString.t) (encryptedMsg : EncryptedMessage)
  : Handler State Env unit :=
  (hcatch
     (decrypted <- decryptMessage msgId encryptedMsg ;;
      setMessages (fun prev =>
                     (* Avoid duplicates *)
                     if existsb (fun m => JSString.eqb (id m) msgId) prev
                     then prev
                     else prev ++ [decrypted]))
     (fun error =>
        notify (ConsoleError (JSString.js "Error decrypting message:") error)))%page.


(** [handleSendFile], lines 189-222. *)
Definition handleSendFile (file : File) : Handler State Env unit :=
  (let type := Blob.type (blob file) in
   hcatch
     (encrypted <- await (Crypto.encryptFileStream (blob file)
                            (RoomJoin.key roomState)) ;;
      fileId <- service newFileId ;;
      storagePath <- service (uploadEncryptedFile (RoomJoin.roomId roomState)
                                fileId (Crypto.encryptedBlob encrypted)) ;;
      (* Encrypt filename and metadata *)
      encryptedFileName <-
        await (Crypto.encryptString (name file) (RoomJoin.key roomState)) ;;
      encryptedMimeType <-
        await (Crypto.encryptString
                 (if JSText.truthy type then type
                  else JSString.js "application/octet-stream")
                 (RoomJoin.key roomState)) ;;
      service (sendMessage (RoomJoin.roomId roomState)
                 (mkOutgoing
                    [] (* No text content for file messages *)
                    (Crypto.fileIv encrypted)
                    None
                    (if JSText.startsWith type (JSString.js "image/") then image
                     else if JSText.startsWith type (JSString.js "audio/") then audio
                     else if JSText.startsWith type (JSString.js "video/") then video
                     else Messages.file)
                    (Some (mkMediaMeta
                             storagePath
                             (Some (Crypto.ciphertext encryptedFileName))
                             (Some (Crypto.iv encryptedFileName))
                             (Some (Blob.size (blob file)))
                             (Some (Crypto.ciphertext encryptedMimeType))
                             (Some (Crypto.iv encryptedMimeType))
                             (Some (Crypto.fileIv encrypted)))))) ;;;
      hret tt)
     (fun error =>
        notify (ConsoleError (JSString.js "Error sending file:") error) ;;;
        notify (Alert (JSString.js "Failed to send file. Please try again."))))%page.

(** [handleDownloadMedia], lines 224-244. *)
Definition handleDownloadMedia (message : DecryptedMessage) : Handler State Env unit :=
  (match mediaUrl message with
   | None => hret tt
   | Some url =>
       if negb (JSText.truthy url) || negb (JSText.truthy (mediaIv message))
       then hret tt
       else
         hcatch
           (encryptedBlob <- service (downloadEncryptedFile url) ;;
            decryptedBlob <- await (Crypto.decryptFileStream encryptedBlob
                                      (mediaIv message) (RoomJoin.key roomState)) ;;
            (* Create download link *)
            service (saveAs decryptedBlob
                       (orElse (fileName message) (JSString.js "download"))))
           (fun error =>
              notify (ConsoleError (JSString.js "Error downloading media:") error) ;;;
              notify (Alert (JSString.js "Failed to download media.")))
   end)%page.

End WithServices.

End ChatRoom.

(* ================================================================== *)
(** * Vocabulary of the properties of ChatRoom.tsx *)
(* ================================================================== *)

(** What [decryptString] answers under a valid room key. *)
Definition opened {P : Primitives} (key : Subtle.CryptoKey)
    (ct ivB64 : JSString.t) : Result JSString.t :=
  match Base64.atob ct with
  | Throw e => Throw e
  | Ok c =>
      match Base64.atob ivB64 with
      | Throw e => Throw e
      | Ok d =>
          match openChunk (Subtle.keyData key) (JSString.toUint8Array d)
                          (JSString.toUint8Array c) with
          | Some p => Ok (TextCodec.decode p)
          | None => Throw OperationError
          end
      end
  end.

(** Base64 of the AES-GCM encryption of a string under a nonce. *)
Definition sealedText {P : Primitives} (key : Subtle.CryptoKey) (nonce : bytes)
    (s : JSString.t) : JSString.t :=
  Base64.encode
    (JSString.fromCharCode
       (Subtle.gcmEncrypt (Subtle.keyData key) nonce [] 16 (TextCodec.encode s))).

Definition base64 (b : bytes) : JSString.t :=
  Base64.encode (JSString.fromCharCode b).

(** A room entered with a key. *)
Definition roomWith (key : Subtle.CryptoKey) : RoomJoin.RoomState :=
  RoomJoin.mkRoomState (JSString.js "00112233445566778899aabbccddeeff")
    (JSString.js "room") key (JSString.js "AAAAAAAAAAAAAAAAAAAAAA==")
    (JSString.js "peer_0_abcdefghi").


Definition chatPage : Page (ChatRoom.State unit) (list Messages.Outgoing) :=
  mkPage (ChatRoom.mkState [] false false true None false) [] world0 [].

Definition isWarning (n : Notice) : bool :=
  match n with ConsoleWarn _ _ => true | _ => false end.

(** The blob [encryptFileStream] makes of a payload under a nonce. *)
Definition sealedBlob {P : Primitives} (key : Subtle.CryptoKey) (nonce : bytes)
    (b : bytes) : Blob.t :=
  Blob.ofArray
    (concat (map (Subtle.gcmEncrypt (Subtle.keyData key) nonce [] 16)
                 (chunksOf b)))
    (Some (JSString.js "application/octet-stream")).

(** The MIME type sent for a file: its own, or the default when it has
    none. *)
Definition typeSent (f : ChatRoom.File) : JSString.t :=
  if JSText.truthy (Blob.type (ChatRoom.blob f)) then Blob.type (ChatRoom.blob f)
  else JSString.js "application/octet-stream".

(** A file for examples, and services that store one upload and hand it
    back. *)
Definition sampleFile : ChatRoom.File :=
  ChatRoom.mkFile (JSString.js "a.txt")
    (Blob.mk [x68; x69] (JSString.js "text/plain")).

Record Cloud : Type := mkCloud {
  uploads : list Blob.t;
  sent : list Messages.Outgoing;
  saved : list (Blob.t * JSString.t)
}.

Definition cloudSend (roomId : JSString.t) (m : Messages.Outgoing) (c : Cloud)
  : Outcome JSString.t * Cloud :=
  (Done (JSString.js "doc1"), mkCloud (uploads c) (m :: sent c) (saved c)).

Definition cloudUpload (roomId fileId : JSString.t) (b : Blob.t) (c : Cloud)
  : Outcome JSString.t * Cloud :=
  (Done (JSString.js "https://storage/0"), mkCloud (b :: uploads c) (sent c) (saved c)).

Definition cloudDownload (url : JSString.t) (c : Cloud) : Outcome Blob.t * Cloud :=
  match uploads c with
  | b :: _ => (Done b, c)
  | [] => (Failed (ServiceFailure (JSString.js "Failed to download file: Not Found")), c)
  end.

Definition cloudFileId (c : Cloud) : Outcome JSString.t * Cloud :=
  (Done (JSString.js "0_abcdefghi"), c).

Definition cloudSaveAs (b : Blob.t) (fileName : JSString.t) (c : Cloud)
  : Outcome unit * Cloud :=
  (Done tt, mkCloud (uploads c) (sent c) ((b, fileName) :: saved c)).

Definition cloudPage (c : Cloud) : Page (ChatRoom.State unit) Cloud :=
  mkPage (ChatRoom.mkState [] false false true None false) c world0 [].

(** The message [decryptMessage] makes of the message of [sampleFile]. *)
Definition sampleMedia : ChatRoom.DecryptedMessage :=
  ChatRoom.mkDecryptedMessage (JSString.js "doc1") [] 1000 Messages.file
    (Some (JSString.js "https://storage/0")) (base64 (drawn world0 12))
    (Some (JSString.js "a.txt")) (Some 2%Z) (Some (JSString.js "text/plain")).

(** A payload in the gap between the sizes that can be shared and the
    size of a chunk. *)
Definition gapPayload : bytes := repeat x00 (Z.to_nat 2097137).

(** A message the room key can read: its text, when it has one, opens. *)
Definition readable {P : Primitives} (key : Subtle.CryptoKey)
    (em : Messages.EncryptedMessage) : bool :=
  let m := Messages.body em in
  if JSText.truthy (Messages.ciphertext m) then
    match opened key (Messages.ciphertext m) (Messages.iv m) with
    | Ok _ => true
    | Throw _ => false
    end
  else true.

(** A decrypted message under another [id]. *)
Definition withId (i : JSString.t) (d : ChatRoom.DecryptedMessage)
  : ChatRoom.DecryptedMessage :=
  ChatRoom.mkDecryptedMessage i (ChatRoom.content d) (ChatRoom.timestamp d)
    (ChatRoom.contentType d) (ChatRoom.mediaUrl d) (ChatRoom.mediaIv d)
    (ChatRoom.fileName d) (ChatRoom.fileSize d) (ChatRoom.mimeType d).

(** A page with more notices. *)
Definition noticed {St Env} (p : Page St Env) (ns : list Notice) : Page St Env :=
  mkPage (ui p) (services p) (world p) (notices p ++ ns).

(** What [decryptMessage] makes of a message, whatever the [id] and the
    page. *)
Definition decryptsTo {P : Primitives} (Env Doc : Type)
    (roomState : RoomJoin.RoomState) (em : Messages.EncryptedMessage)
    (d : ChatRoom.DecryptedMessage) : Prop :=
  exists warnings,
    forall (msgId : JSString.t) (q : Page (ChatRoom.State Doc) Env),
      ChatRoom.decryptMessage roomState msgId em q
      = (Done (withId msgId d), noticed q warnings).

(** Messages for examples: the text [hi] under the sample key and the
    nonce the sample world draws first, and a history made of it. *)
Definition sampleMessage : Messages.EncryptedMessage :=
  Messages.mkEncryptedMessage
    (Messages.mkOutgoing
       (sealedText (P := checksumPrimitives) sampleKey (drawn world0 12)
          (JSString.js "hi"))
       (base64 (drawn world0 12)) None Messages.text None)
    (Firebase.mkTimestamp 1 0).

Definition sampleGetMessages (roomId : JSString.t) (pageSize : option nat)
    (lastDoc : option unit) (env : list Messages.Outgoing)
  : Outcome (Messages.MessagePage unit) * list Messages.Outgoing :=
  (Done (Messages.mkMessagePage [sampleMessage] (Some tt)), env).

(** The documents that follow a cursor, and the answer of Firestore to a
    query on the documents of a room, newest first: what follows the
    cursor, up to the limit. *)
Fixpoint after {Doc : Type} (same : Doc -> Doc -> bool) (cursor : Doc)
    (docs : list Doc) : list Doc :=
  match docs with
  | [] => []
  | d :: rest => if same d cursor then rest else after same cursor rest
  end.

Definition answer {Doc : Type} (same : Doc -> Doc -> bool) (docs : list Doc)
    (q : Messages.Query Doc) : list Doc :=
  firstn (Messages.limit q)
    (match Messages.startAfter q with
     | None => docs
     | Some cursor => after same cursor docs
     end).

(** A room history for examples: documents are numbered, newest first. *)
Definition numbered (n : nat) : Messages.EncryptedMessage :=
  Messages.mkEncryptedMessage
    (Messages.mkOutgoing [] [] None Messages.text None)
    (Firebase.mkTimestamp (Z.of_nat n) 0).

Definition numberedDocs (q : Messages.Query nat) (env : list nat)
  : Outcome (list nat) * list nat :=
  (Done (answer Nat.eqb env q), env).

(** A page of [ChatRoom] over the numbered history. *)
Definition historyPage (docs : list nat) : Page (ChatRoom.State nat) (list nat) :=
  mkPage (ChatRoom.mkState [] true false true None false) docs world0 [].

(* ================================================================== *)
(** * MessageList.tsx *)
(* ================================================================== *)

Module MessageList.

(** [new Set(prev).add(x)] and [next.delete(x)], the set in insertion
    order. *)
Definition setAdd (s : list JSString.t) (x : JSString.t) : list JSString.t :=
  if existsb (JSString.eqb x) s then s else s ++ [x].

Definition setDelete (s : list JSString.t) (x : JSString.t) : list JSString.t :=
  filter (fun y => negb (JSString.eqb x y)) s.

(** [map.has(k)], [map.get(k)] and [new Map(prev).set(k, v)], the map in
    insertion order. *)
Definition mapGet (m : list (JSString.t * JSString.t)) (k : JSString.t)
  : option JSString.t :=
  option_map snd (find (fun e => JSString.eqb (fst e) k) m).

Definition mapHas (m : list (JSString.t * JSString.t)) (k : JSString.t) : bool :=
  match mapGet m k with Some _ => true | None => false end.

Fixpoint mapSet (m : list (JSString.t * JSString.t)) (k v : JSString.t)
  : list (JSString.t * JSString.t) :=
  match m with
  | [] => [(k, v)]
  | e :: rest =>
      if JSString.eqb (fst e) k then (k, v) :: rest else e :: mapSet rest k v
  end.

(** The [useState] cells of the component. *)
Record State : Type := mkState {
  decryptingMedia : list JSString.t;
  mediaUrls : list (JSString.t * JSString.t)
}.

Section WithServices.

Context {P : Primitives}.

Variable Env : Type.
Variable roomState : RoomJoin.RoomState.

(** [downloadEncryptedFile] of firebase.ts and [URL.createObjectURL]. *)
Variable downloadEncryptedFile : JSString.t -> Env -> Outcome Blob.t * Env.
Variable createObjectURL : Blob.t -> Env -> Outcome JSString.t * Env.

Definition setDecryptingMedia (f : list JSString.t -> list JSString.t)
  : Handler State Env unit :=
  setState (fun s => mkState (f (decryptingMedia s)) (mediaUrls s)).

Definition setMediaUrls
    (f : list (JSString.t * JSString.t) -> list (JSString.t * JSString.t))
  : Handler State Env unit :=
  setState (fun s => mkState (decryptingMedia s) (f (mediaUrls s))).

(** [handleViewMedia], lines 16-39. *)
Definition handleViewMedia (message : ChatRoom.DecryptedMessage)
  : Handler State Env unit :=
  (s <- getState ;;
   match ChatRoom.mediaUrl message with
   | None => hret tt
   | Some url =>
       if negb (JSText.truthy url)
          || negb (JSText.truthy (ChatRoom.mediaIv message))
          || mapHas (mediaUrls s) (ChatRoom.id message)
       then hret tt
       else
         hfinally
           (hcatch
              (setDecryptingMedia (fun prev => setAdd prev (ChatRoom.id message)) ;;;
               (* Download encrypted file *)
               encryptedBlob <- service (downloadEncryptedFile url) ;;
               (* Decrypt using stored IV *)
               decryptedBlob <- await (Crypto.decryptFileStream encryptedBlob
                                         (ChatRoom.mediaIv message)
                                         (RoomJoin.key roomState)) ;;
               url <- service (createObjectURL decryptedBlob) ;;
               setMediaUrls (fun prev => mapSet prev (ChatRoom.id message) url))
              (fun error =>
                 notify (ConsoleError (JSString.js "Error viewing media:") error) ;;;
                 notify (Alert (JSString.js "Failed to load media. Please try again."))))
           (setDecryptingMedia (fun prev => setDelete prev (ChatRoom.id message)))
   end)%page.

(** The address the list shows for the media of a message, lines 60-62:
    [mediaUrls.has(message.id) ? mediaUrls.get(message.id) : ...]. *)
Definition shownMedia (s : State) (message : ChatRoom.DecryptedMessage)
  : option JSString.t :=
  if mapHas (mediaUrls s) (ChatRoom.id message)
  then mapGet (mediaUrls s) (ChatRoom.id message)
  else None.

End WithServices.

End MessageList.

(** Services of [MessageList] for examples: one stored blob, and object
    addresses numbered by the blobs opened. *)
Definition cloudObjectURL (b : Blob.t) (c : Cloud) : Outcome JSString.t * Cloud :=
  (Done (JSString.js "blob:0"), mkCloud (uploads c) (sent c) ((b, []) :: saved c)).

Definition listPage (c : Cloud) : Page MessageList.State Cloud :=
  mkPage (MessageList.mkState [] []) c world0 [].

(** Two media messages of the history: both have the empty [id]. *)
Definition historyMedia : ChatRoom.DecryptedMessage := withId [] sampleMedia.

Definition otherHistoryMedia : ChatRoom.DecryptedMessage :=
  ChatRoom.mkDecryptedMessage [] [] 2000 Messages.image
    (Some (JSString.js "https://storage/1")) (base64 (drawn world0 12))
    None None None.


(* ================================================================== *)
(** * Properties of the platform model *)
(* ================================================================== *)

(** Linear arithmetic with division and remainder by constants. *)
Ltac dlia := zify; Z.to_euclidean_division_equations; lia.

(** ** Bytes *)

Lemma u8_to_N (b : byte) : u8 (Byte.to_N b) = b.
Proof.
  unfold u8. pose proof (Byte.to_N_bounded b).
  rewrite N.mod_small by lia. now rewrite Byte.of_to_N.
Qed.

Lemma to_N_u8 (n : N) : Byte.to_N (u8 n) = (n mod 256)%N.
Proof.
  unfold u8. destruct (Byte.of_N (n mod 256)) eqn:E.
  - now apply Byte.to_of_N.
  - apply Byte.of_N_None_iff in E.
    pose proof (N.mod_upper_bound n 256). lia.
Qed.

Lemma to_N_lt_256 (b : byte) : (Byte.to_N b < 256)%N.
Proof. pose proof (Byte.to_N_bounded b). lia. Qed.

Lemma xor8_involutive (a b : byte) : xor8 (xor8 a b) b = a.
Proof.
  unfold xor8.
  destruct (Byte.to_bits a) as [a0 [a1 [a2 [a3 [a4 [a5 [a6 a7]]]]]]] eqn:Ea.
  destruct (Byte.to_bits b) as [b0 [b1 [b2 [b3 [b4 [b5 [b6 b7]]]]]]] eqn:Eb.
  rewrite Byte.to_bits_of_bits.
  rewrite !xorb_assoc, !xorb_nilpotent, !xorb_false_r.
  rewrite <- Ea. apply Byte.of_bits_to_bits.
Qed.

Lemma xorBytes_length (a b : bytes) : length (xorBytes a b) = length a.
Proof.
  revert b. induction a as [|x a IH]; intros [|y b]; simpl; auto.
Qed.

Lemma xorBytes_involutive (a b : bytes) :
  xorBytes (xorBytes a b) b = a.
Proof.
  revert b. induction a as [|x a IH]; intros [|y b]; simpl; auto.
  now rewrite xor8_involutive, IH.
Qed.

Lemma xorBytes_firstn (a b : bytes) (n : nat) :
  firstn n (xorBytes a b) = xorBytes (firstn n a) (firstn n b).
Proof.
  revert a b. induction n as [|n IH]; intros [|x a] [|y b]; simpl; auto.
  now rewrite IH.
Qed.

Lemma Bytes_eqb_eq (a b : bytes) : Bytes.eqb a b = true <-> a = b.
Proof.
  unfold Bytes.eqb. destruct (list_eq_dec Byte.byte_eq_dec a b); split;
    congruence.
Qed.

Lemma Bytes_eqb_refl (a : bytes) : Bytes.eqb a a = true.
Proof. now apply Bytes_eqb_eq. Qed.

Lemma size_nonneg (b : bytes) : (0 <= Bytes.size b)%Z.
Proof. unfold Bytes.size. lia. Qed.

Lemma size_app (a b : bytes) :
  Bytes.size (a ++ b) = (Bytes.size a + Bytes.size b)%Z.
Proof. unfold Bytes.size. rewrite length_app. lia. Qed.

Lemma slice_nonneg (b : bytes) (start stop : Z) :
  (0 <= start)%Z -> (0 <= stop)%Z ->
  Bytes.slice b start stop
  = firstn (Z.to_nat (Z.max (Z.min stop (Bytes.size b)
                             - Z.min start (Bytes.size b)) 0))
           (skipn (Z.to_nat (Z.min start (Bytes.size b))) b).
Proof.
  intros H0 H1. unfold Bytes.slice, Bytes.relativeIndex.
  destruct (Z.ltb_spec start 0); [lia|].
  destruct (Z.ltb_spec stop 0); [lia|]. reflexivity.
Qed.

(** A range that covers the array is the array. *)
Lemma slice_all (b : bytes) (stop : Z) :
  (Bytes.size b <= stop)%Z -> Bytes.slice b 0 stop = b.
Proof.
  intros H. pose proof (size_nonneg b).
  rewrite slice_nonneg by lia.
  replace (Z.min 0 (Bytes.size b)) with 0%Z by lia.
  replace (Z.min stop (Bytes.size b)) with (Bytes.size b) by lia.
  simpl skipn. apply firstn_all2. unfold Bytes.size in *. lia.
Qed.

Lemma slice_length (b : bytes) (start stop : Z) :
  (0 <= start)%Z -> (start <= stop)%Z ->
  Bytes.size (Bytes.slice b start stop)
  = Z.max 0 (Z.min stop (Bytes.size b) - start)%Z.
Proof.
  intros H0 H1. rewrite slice_nonneg by lia. unfold Bytes.size.
  rewrite length_firstn, length_skipn. lia.
Qed.

(** ** JavaScript strings *)

Lemma toUint8Array_fromCharCode (b : bytes) :
  JSString.toUint8Array (JSString.fromCharCode b) = b.
Proof.
  unfold JSString.toUint8Array, JSString.fromCharCode.
  rewrite map_map. rewrite <- (map_id b) at 2.
  apply map_ext. intros x. apply u8_to_N.
Qed.

Lemma fromCharCode_bounded (b : bytes) :
  Forall (fun c => c < 256)%N (JSString.fromCharCode b).
Proof.
  unfold JSString.fromCharCode. apply Forall_map, Forall_forall.
  intros x _. apply to_N_lt_256.
Qed.

Lemma JSString_eqb_eq (a b : JSString.t) : JSString.eqb a b = true <-> a = b.
Proof.
  unfold JSString.eqb. destruct (list_eq_dec N.eq_dec a b); split; congruence.
Qed.

(** ** Base64 *)

Lemma list_ind3 {A : Type} (Q : list A -> Prop) :
  Q [] -> (forall a, Q [a]) -> (forall a b, Q [a; b]) ->
  (forall a b c l, Q l -> Q (a :: b :: c :: l)) ->
  forall l, Q l.
Proof.
  intros H0 H1 H2 H3. fix IH 1. intros [|a [|b [|c l]]].
  - exact H0.
  - apply H1.
  - apply H2.
  - apply H3, IH.
Qed.

Lemma digits_table :
  forallb (fun i =>
             match Base64.value (Base64.digit i) with
             | Some j => (i =? j)%N
             | None => false
             end
             && negb (Base64.digit i =? Base64.pad)%N
             && negb (Base64.isAsciiWhitespace (Base64.digit i)))
          (map N.of_nat (seq 0 64)) = true.
Proof. vm_compute. reflexivity. Qed.

Lemma digit_facts (i : N) :
  (i < 64)%N ->
  Base64.value (Base64.digit i) = Some i
  /\ (Base64.digit i =? Base64.pad)%N = false
  /\ Base64.isAsciiWhitespace (Base64.digit i) = false.
Proof.
  intros Hi. pose proof digits_table as T.
  rewrite forallb_forall in T. specialize (T i).
  assert (Hin : In i (map N.of_nat (seq 0 64))).
  { apply in_map_iff. exists (N.to_nat i). split; [lia|].
    apply in_seq. lia. }
  specialize (T Hin).
  apply andb_prop in T. destruct T as [T T3].
  apply andb_prop in T. destruct T as [T1 T2].
  destruct (Base64.value (Base64.digit i)) as [j|]; [|discriminate].
  apply N.eqb_eq in T1. subst j.
  apply negb_true_iff in T2. apply negb_true_iff in T3. auto.
Qed.

Lemma value_digit (i : N) :
  (i < 64)%N -> Base64.value (Base64.digit i) = Some i.
Proof. intros H. apply (digit_facts H). Qed.

Lemma isDigit_digit (i : N) : (i < 64)%N -> isDigit (Base64.digit i).
Proof. intros H. now exists i. Qed.

Lemma isDigit_not_pad (c : N) : isDigit c -> (c =? Base64.pad)%N = false.
Proof. intros [i [Hi ->]]. apply (digit_facts Hi). Qed.

Lemma isDigit_not_ws (c : N) : isDigit c -> Base64.isAsciiWhitespace c = false.
Proof. intros [i [Hi ->]]. apply (digit_facts Hi). Qed.

Lemma encodeBody_digits (l : list N) :
  Forall (fun c => c < 256)%N l -> Forall isDigit (encodeBody l).
Proof.
  induction l as [| a | a b | a b c l IH] using list_ind3; intros H.
  - constructor.
  - inversion_clear H. simpl.
    repeat constructor; apply isDigit_digit; dlia.
  - inversion_clear H as [|? ? Ha H']. inversion_clear H'. simpl.
    repeat constructor; apply isDigit_digit; dlia.
  - inversion_clear H as [|? ? Ha H']. inversion_clear H' as [|? ? Hb H''].
    inversion_clear H'' as [|? ? Hc Hl]. simpl.
    repeat (constructor; [apply isDigit_digit; dlia|]). auto.
Qed.

(** The padded text is the body followed by zero, one or two [=]. *)
Lemma encode_body_padding (l : list N) :
  exists p, Base64.encode l = encodeBody l ++ p
            /\ (p = [] \/ p = [Base64.pad] \/ p = [Base64.pad; Base64.pad]).
Proof.
  induction l as [| a | a b | a b c l IH] using list_ind3.
  - exists []. auto.
  - exists [Base64.pad; Base64.pad]. auto.
  - exists [Base64.pad]. auto.
  - destruct IH as [p [E Hp]]. exists p. split; [|exact Hp].
    simpl. now rewrite E.
Qed.

Lemma encode_length_mod4 (l : list N) :
  Nat.modulo (length (Base64.encode l)) 4 = 0%nat.
Proof.
  induction l as [| a | a b | a b c l IH] using list_ind3; try reflexivity.
  change (Base64.encode (a :: b :: c :: l))
    with (Base64.digit (a / 4) :: Base64.digit (a mod 4 * 16 + b / 16)
          :: Base64.digit (b mod 16 * 4 + c / 64) :: Base64.digit (c mod 64)
          :: Base64.encode l)%N.
  cbn [length]. revert IH. generalize (length (Base64.encode l)). intros n Hn.
  change (S (S (S (S n)))) with (4 + n)%nat. dlia.
Qed.

Lemma encodeBody_length_mod4 (l : list N) :
  Nat.modulo (length (encodeBody l)) 4 <> 1%nat.
Proof.
  induction l as [| a | a b | a b c l IH] using list_ind3;
    try (cbn; discriminate).
  change (encodeBody (a :: b :: c :: l))
    with (Base64.digit (a / 4) :: Base64.digit (a mod 4 * 16 + b / 16)
          :: Base64.digit (b mod 16 * 4 + c / 64) :: Base64.digit (c mod 64)
          :: encodeBody l)%N.
  cbn [length]. revert IH. generalize (length (encodeBody l)). intros n Hn.
  change (S (S (S (S n)))) with (4 + n)%nat. dlia.
Qed.

Lemma stripPadding_body (body p : JSString.t) :
  Forall isDigit body ->
  p = [] \/ p = [Base64.pad] \/ p = [Base64.pad; Base64.pad] ->
  Base64.stripPadding (body ++ p) = body.
Proof.
  intros Hb Hp.
  assert (Hlast : forall y r, rev body = y :: r -> (y =? Base64.pad)%N = false).
  { intros y r E. apply isDigit_not_pad.
    rewrite Forall_forall in Hb. apply Hb. apply in_rev. rewrite E. now left. }
  unfold Base64.stripPadding. destruct Hp as [-> | [-> | ->]].
  - rewrite app_nil_r. destruct (rev body) as [|y r] eqn:E; [reflexivity|].
    now rewrite (Hlast y r eq_refl).
  - rewrite rev_app_distr. simpl rev. simpl app. cbv iota beta.
    rewrite N.eqb_refl. destruct (rev body) as [|y r] eqn:E.
    + rewrite <- (rev_involutive body), E. reflexivity.
    + rewrite (Hlast y r eq_refl). rewrite <- E. apply rev_involutive.
  - rewrite rev_app_distr. simpl rev. simpl app. cbv iota beta.
    rewrite N.eqb_refl. apply rev_involutive.
Qed.

Lemma filter_not_ws (s : JSString.t) :
  Forall (fun c => Base64.isAsciiWhitespace c = false) s ->
  filter (fun c => negb (Base64.isAsciiWhitespace c)) s = s.
Proof.
  induction 1 as [|c s Hc _ IH]; simpl; [reflexivity|].
  now rewrite Hc, IH.
Qed.

Lemma encode_no_ws (l : list N) :
  Forall (fun c => c < 256)%N l ->
  Forall (fun c => Base64.isAsciiWhitespace c = false) (Base64.encode l).
Proof.
  intros H. destruct (encode_body_padding l) as [p [-> Hp]].
  apply Forall_app. split.
  - eapply Forall_impl; [|apply encodeBody_digits, H].
    intros c. apply isDigit_not_ws.
  - destruct Hp as [-> | [-> | ->]]; repeat constructor.
Qed.

(** The digits of the body decode to the bytes they were made from. *)
Lemma decode_encodeBody (l : list N) :
  Forall (fun c => c < 256)%N l ->
  exists vs, Base64.values (encodeBody l) = Some vs
             /\ Base64.decodeValues vs = l.
Proof.
  induction l as [| a | a b | a b c l IH] using list_ind3; intros H.
  - exists []. auto.
  - inversion_clear H as [|? ? Ha _]. eexists. split.
    + simpl. rewrite !value_digit by dlia. reflexivity.
    + simpl. f_equal. dlia.
  - inversion_clear H as [|? ? Ha H']. inversion_clear H' as [|? ? Hb _].
    eexists. split.
    + simpl. rewrite !value_digit by dlia. reflexivity.
    + simpl. f_equal; [dlia|]. f_equal. dlia.
  - inversion_clear H as [|? ? Ha H']. inversion_clear H' as [|? ? Hb H''].
    inversion_clear H'' as [|? ? Hc Hl].
    destruct (IH Hl) as [vs [Ev Ed]].
    eexists. split.
    + change (encodeBody (a :: b :: c :: l))
        with (Base64.digit (a / 4) :: Base64.digit (a mod 4 * 16 + b / 16)
              :: Base64.digit (b mod 16 * 4 + c / 64) :: Base64.digit (c mod 64)
              :: encodeBody l)%N.
      cbn [Base64.values]. rewrite !value_digit by dlia. rewrite Ev. reflexivity.
    + cbn [Base64.decodeValues]. rewrite Ed.
      f_equal; [dlia|]. f_equal; [dlia|]. f_equal. dlia.
Qed.

(** [atob] undoes [btoa] on every binary string. *)
Lemma atob_encode (l : list N) :
  Forall (fun c => c < 256)%N l ->
  Base64.atob (Base64.encode l) = Ok l.
Proof.
  intros H. unfold Base64.atob.
  rewrite (filter_not_ws (encode_no_ws H)).
  rewrite encode_length_mod4. rewrite Nat.eqb_refl.
  destruct (encode_body_padding l) as [p [E Hp]].
  rewrite E, (stripPadding_body (encodeBody_digits H) Hp).
  pose proof (encodeBody_length_mod4 l) as Hm.
  destruct (Nat.eqb_spec (Nat.modulo (length (encodeBody l)) 4) 1);
    [contradiction|].
  destruct (decode_encodeBody H) as [vs [-> ->]]. reflexivity.
Qed.

Lemma btoa_fromCharCode (b : bytes) :
  Base64.btoa (JSString.fromCharCode b)
  = Ok (Base64.encode (JSString.fromCharCode b)).
Proof.
  unfold Base64.btoa.
  replace (forallb (fun c => (c <=? 255)%N) (JSString.fromCharCode b)) with true;
    [reflexivity|].
  symmetry. apply forallb_forall. intros c Hc.
  pose proof (fromCharCode_bounded b) as F. rewrite Forall_forall in F.
  specialize (F c Hc). apply N.leb_le. lia.
Qed.

(** The bytes read back from the base64 text of a byte array. *)
Lemma atob_btoa_bytes (b : bytes) :
  Base64.atob (Base64.encode (JSString.fromCharCode b))
  = Ok (JSString.fromCharCode b).
Proof. apply atob_encode, fromCharCode_bounded. Qed.

(** ** AES-GCM *)

Section GcmFacts.

Context {P : Primitives}.

Lemma keystream_length (k nonce : bytes) (n : nat) :
  length (Subtle.keystream k nonce n) = n.
Proof. unfold Subtle.keystream. now rewrite length_map, length_seq. Qed.

Lemma firstn_seq_le (n m a : nat) :
  (n <= m)%nat -> firstn n (seq a m) = seq a n.
Proof.
  revert m a. induction n as [|n IH]; intros [|m] a H; simpl; try lia; auto.
  f_equal. apply IH. lia.
Qed.

Lemma keystream_firstn (k nonce : bytes) (n m : nat) :
  (n <= m)%nat ->
  firstn n (Subtle.keystream k nonce m) = Subtle.keystream k nonce n.
Proof.
  intros H. unfold Subtle.keystream. rewrite firstn_map. f_equal.
  now apply firstn_seq_le.
Qed.

Lemma gcmBody_length (k nonce p : bytes) :
  length (gcmBody k nonce p) = length p.
Proof. apply xorBytes_length. Qed.

Lemma gcmEncrypt_body_tag (k nonce aad p : bytes) (t : nat) :
  Subtle.gcmEncrypt k nonce aad t p
  = gcmBody k nonce p ++ firstn t (gcmTag k nonce aad (gcmBody k nonce p)).
Proof. reflexivity. Qed.

Context {PS : PrimitivesSpec P}.

Lemma gcmEncrypt_length (k nonce aad p : bytes) :
  length (Subtle.gcmEncrypt k nonce aad 16 p) = (length p + 16)%nat.
Proof.
  rewrite gcmEncrypt_body_tag, length_app, gcmBody_length.
  rewrite firstn_all2 by (rewrite gcmTag_length; lia).
  now rewrite gcmTag_length.
Qed.

(** Decryption undoes encryption under the same key, nonce and
    associated data. *)
Lemma gcmDecrypt_gcmEncrypt (k nonce aad p : bytes) :
  Subtle.gcmDecrypt k nonce aad 16 (Subtle.gcmEncrypt k nonce aad 16 p)
  = Some p.
Proof.
  unfold Subtle.gcmDecrypt. rewrite gcmEncrypt_length.
  replace (length p + 16 - 16)%nat with (length (gcmBody k nonce p))
    by (rewrite gcmBody_length; lia).
  rewrite gcmEncrypt_body_tag.
  rewrite firstn_app, Nat.sub_diag, firstn_all, firstn_O, app_nil_r.
  rewrite skipn_app, Nat.sub_diag, skipn_all, skipn_O. simpl app.
  rewrite Bytes_eqb_refl. f_equal.
  rewrite gcmBody_length. unfold gcmBody. apply xorBytes_involutive.
Qed.

Lemma openChunk_gcmEncrypt (k nonce p : bytes) :
  openChunk k nonce (Subtle.gcmEncrypt k nonce [] 16 p) = Some p.
Proof.
  unfold openChunk. rewrite gcmEncrypt_length.
  destruct (Nat.ltb_spec (length p + 16) 16); [lia|].
  apply gcmDecrypt_gcmEncrypt.
Qed.

End GcmFacts.

(** ** crypto.subtle with a room key *)

Section SubtleFacts.

Context {P : Primitives}.

Lemma validRoomKey_parts (key : Subtle.CryptoKey) :
  validRoomKey key = true ->
  Subtle.sameAlgorithmName (Subtle.AES_GCM_key 0) (Subtle.algorithm key) = true
  /\ Subtle.hasUsage Subtle.encrypt_usage (Subtle.usages key) = true
  /\ Subtle.hasUsage Subtle.decrypt_usage (Subtle.usages key) = true.
Proof.
  unfold validRoomKey. intros H.
  apply andb_prop in H. destruct H as [H H3].
  apply andb_prop in H. destruct H as [H1 H2]. auto.
Qed.

Lemma logged_nil (w : World) : logged w [] = w.
Proof. destruct w. unfold logged. simpl. now rewrite app_nil_r. Qed.

Lemma logged_logged (w : World) (a b : list GcmCall) :
  logged (logged w a) b = logged w (a ++ b).
Proof. unfold logged. simpl. now rewrite app_assoc. Qed.

Lemma encrypt_roomKey (key : Subtle.CryptoKey) (nonce data : bytes) (w : World) :
  validRoomKey key = true ->
  (Bytes.size data <= Subtle.maxPlaintext)%Z ->
  Subtle.encrypt (Crypto.aesGcm nonce) key data w
  = (Ok (Subtle.gcmEncrypt (Subtle.keyData key) nonce [] 16 data),
     logged w [mkGcmCall (Subtle.keyData key) nonce [] data]).
Proof.
  intros V Hsz. destruct (validRoomKey_parts key V) as [A [U _]].
  unfold Subtle.encrypt. rewrite A, U. simpl negb. cbv iota.
  destruct (Z.ltb_spec Subtle.maxPlaintext (Bytes.size data)); [lia|].
  reflexivity.
Qed.

Lemma decrypt_roomKey (key : Subtle.CryptoKey) (nonce data : bytes) (w : World) :
  validRoomKey key = true ->
  Subtle.decrypt (Crypto.aesGcm nonce) key data w
  = (match openChunk (Subtle.keyData key) nonce data with
     | Some p => Ok p
     | None => Throw OperationError
     end, w).
Proof.
  intros V. destruct (validRoomKey_parts key V) as [A [_ U]].
  unfold Subtle.decrypt, openChunk. rewrite A, U. simpl negb. cbv iota.
  unfold bind, lift, Crypto.aesGcm, Subtle.tagBytesOf, Subtle.aadOf. simpl.
  destruct (length data <? 16)%nat; [reflexivity|].
  destruct (Subtle.gcmDecrypt _ _ _ _ _); reflexivity.
Qed.

End SubtleFacts.

(** ** Combining the chunks *)

Lemma fold_left_total (chunks : list bytes) (n : nat) :
  fold_left (fun sum chunk => sum + length chunk)%nat chunks n
  = (n + length (concat chunks))%nat.
Proof.
  revert n. induction chunks as [|c chunks IH]; intros n; simpl.
  - lia.
  - rewrite IH, length_app. lia.
Qed.

Lemma typedArraySet_tail (done chunk : bytes) (n : nat) :
  Crypto.typedArraySet (done ++ repeat x00 (length chunk + n)) chunk (length done)
  = Ok ((done ++ chunk) ++ repeat x00 n).
Proof.
  unfold Crypto.typedArraySet.
  rewrite length_app, repeat_length.
  destruct (Nat.ltb_spec (length done + (length chunk + n))
                         (length done + length chunk)); [lia|].
  f_equal.
  rewrite firstn_app, Nat.sub_diag, firstn_all, firstn_O, app_nil_r.
  rewrite skipn_app, skipn_all2 by lia.
  replace (length done + length chunk - length done)%nat with (length chunk) by lia.
  rewrite repeat_app, skipn_app, repeat_length, Nat.sub_diag, skipn_O.
  rewrite skipn_all2 by (rewrite repeat_length; lia).
  simpl. now rewrite <- app_assoc.
Qed.

Lemma combineLoop_concat (chunks : list bytes) (done : bytes) :
  Crypto.combineLoop chunks (done ++ repeat x00 (length (concat chunks)))
                     (length done)
  = Ok (done ++ concat chunks).
Proof.
  revert done. induction chunks as [|c chunks IH]; intros done; simpl.
  - reflexivity.
  - rewrite length_app, typedArraySet_tail.
    replace (length done + length c)%nat with (length (done ++ c))
      by now rewrite length_app.
    rewrite IH. now rewrite <- app_assoc.
Qed.

(** The combined array is the chunks one after the other, and the copy
    never leaves the target array. *)
Lemma combineChunks_concat (chunks : list bytes) :
  Crypto.combineChunks chunks = Ok (concat chunks).
Proof.
  unfold Crypto.combineChunks. rewrite fold_left_total. simpl plus.
  apply (combineLoop_concat chunks []).
Qed.

(* ================================================================== *)
(** * Properties of crypto.ts *)
(* ================================================================== *)

Unset Implicit Arguments.

(** ** The chunk loops *)

Lemma chunkCount_done (sz : Z) : (sz <= 0)%Z -> chunkCount sz = 0%nat.
Proof. unfold chunkCount, Crypto.chunkSize. intros H. dlia. Qed.

Lemma chunkCount_step (sz : Z) :
  (0 < sz)%Z -> chunkCount sz = S (chunkCount (sz - Crypto.chunkSize)).
Proof. unfold chunkCount, Crypto.chunkSize. intros H. dlia. Qed.

Lemma chunkCount_one (sz : Z) :
  (0 < sz <= Crypto.chunkSize)%Z -> chunkCount sz = 1%nat.
Proof. unfold chunkCount, Crypto.chunkSize. intros H. dlia. Qed.

Lemma chunk_size_bound (b : bytes) (offset : Z) :
  (0 <= offset)%Z ->
  (Bytes.size (Bytes.slice b offset (offset + Crypto.chunkSize))
   <= Crypto.chunkSize)%Z.
Proof.
  intros H. rewrite slice_length by (unfold Crypto.chunkSize; lia).
  pose proof (size_nonneg b). unfold Crypto.chunkSize. lia.
Qed.

Section LoopFacts.

Context {P : Primitives}.

Lemma encryptLoop_done file key nonce offset chunks :
  (Blob.size file <= offset)%Z ->
  Crypto.encryptLoop file key nonce offset chunks = ret chunks.
Proof.
  intros H. rewrite Crypto.encryptLoop_equation_1.
  destruct (Z_lt_dec offset (Blob.size file)); [lia|]. reflexivity.
Qed.

Lemma encryptLoop_step file key nonce offset chunks :
  (offset < Blob.size file)%Z ->
  Crypto.encryptLoop file key nonce offset chunks
  = (arrayBuffer <-
       Blob.arrayBuffer (Blob.slice file offset (offset + Crypto.chunkSize)) ;;
     encrypted <- Subtle.encrypt (Crypto.aesGcm nonce) key arrayBuffer ;;
     Crypto.encryptLoop file key nonce (offset + Crypto.chunkSize)
                        (chunks ++ [encrypted])).
Proof.
  intros H. rewrite Crypto.encryptLoop_equation_1.
  destruct (Z_lt_dec offset (Blob.size file)); [|lia]. reflexivity.
Qed.

Lemma decryptLoop_done blob key ivArray offset chunks :
  (Blob.size blob <= offset)%Z ->
  Crypto.decryptLoop blob key ivArray offset chunks = ret chunks.
Proof.
  intros H. rewrite Crypto.decryptLoop_equation_1.
  destruct (Z_lt_dec offset (Blob.size blob)); [lia|]. reflexivity.
Qed.

Lemma decryptLoop_step blob key ivArray offset chunks :
  (offset < Blob.size blob)%Z ->
  Crypto.decryptLoop blob key ivArray offset chunks
  = (arrayBuffer <-
       Blob.arrayBuffer (Blob.slice blob offset (offset + Crypto.chunkSize)) ;;
     decrypted <- Subtle.decrypt (Crypto.aesGcm ivArray) key arrayBuffer ;;
     Crypto.decryptLoop blob key ivArray (offset + Crypto.chunkSize)
                        (chunks ++ [decrypted])).
Proof.
  intros H. rewrite Crypto.decryptLoop_equation_1.
  destruct (Z_lt_dec offset (Blob.size blob)); [|lia]. reflexivity.
Qed.

(** The encryption loop encrypts the chunks of the file in order, each
    under the same key and the same nonce, with no associated data. *)
Lemma encryptLoop_chunks file key nonce :
  validRoomKey key = true ->
  forall n offset acc w,
    (0 <= offset)%Z ->
    n = chunkCount (Blob.size file - offset) ->
    Crypto.encryptLoop file key nonce offset acc w
    = (Ok (acc ++ map (Subtle.gcmEncrypt (Subtle.keyData key) nonce [] 16)
                      (chunksFrom n (Blob.contents file) offset)),
       logged w (map (mkGcmCall (Subtle.keyData key) nonce [])
                     (chunksFrom n (Blob.contents file) offset))).
Proof.
  intros V. induction n as [|n IH]; intros offset acc w H0 Hn.
  - assert (Blob.size file <= offset)%Z.
    { destruct (Z_lt_dec offset (Blob.size file)) as [L|]; [|lia].
      rewrite chunkCount_step in Hn by lia. discriminate. }
    rewrite encryptLoop_done by assumption.
    simpl. now rewrite app_nil_r, logged_nil.
  - assert (offset < Blob.size file)%Z.
    { destruct (Z_lt_dec offset (Blob.size file)) as [|G]; [assumption|].
      rewrite chunkCount_done in Hn by lia. discriminate. }
    rewrite encryptLoop_step by assumption.
    unfold bind at 1. unfold Blob.arrayBuffer, ret. unfold bind at 1.
    rewrite (encrypt_roomKey key); [|assumption|].
    2:{ pose proof (chunk_size_bound (Blob.contents file) offset H0) as B.
        unfold Blob.slice; simpl Blob.contents.
        unfold Subtle.maxPlaintext, Crypto.chunkSize in *. lia. }
    rewrite IH.
    + rewrite logged_logged. cbn [chunksFrom map Blob.slice Blob.contents].
      now rewrite <- app_assoc.
    + unfold Crypto.chunkSize. lia.
    + rewrite chunkCount_step in Hn by lia. injection Hn as ->.
      f_equal. lia.
Qed.

(** The decryption loop opens the 2 MiB ranges of the blob in order, each
    under the same key and nonce with no associated data, and stops with
    [OperationError] at the first range that does not verify. *)
Lemma decryptLoop_chunks blob key ivArray :
  validRoomKey key = true ->
  forall n offset acc w,
    (0 <= offset)%Z ->
    n = chunkCount (Blob.size blob - offset) ->
    Crypto.decryptLoop blob key ivArray offset acc w
    = (match openAll (Subtle.keyData key) ivArray
                     (chunksFrom n (Blob.contents blob) offset) with
       | Some ps => Ok (acc ++ ps)
       | None => Throw OperationError
       end, w).
Proof.
  intros V. induction n as [|n IH]; intros offset acc w H0 Hn.
  - assert (Blob.size blob <= offset)%Z.
    { destruct (Z_lt_dec offset (Blob.size blob)) as [L|]; [|lia].
      rewrite chunkCount_step in Hn by lia. discriminate. }
    rewrite decryptLoop_done by assumption.
    simpl. now rewrite app_nil_r.
  - assert (offset < Blob.size blob)%Z.
    { destruct (Z_lt_dec offset (Blob.size blob)) as [|G]; [assumption|].
      rewrite chunkCount_done in Hn by lia. discriminate. }
    rewrite decryptLoop_step by assumption.
    unfold bind at 1. unfold Blob.arrayBuffer, ret. unfold bind at 1.
    rewrite (decrypt_roomKey key) by assumption.
    cbn [chunksFrom openAll Blob.slice Blob.contents].
    destruct (openChunk _ _ _) as [p|]; [|reflexivity].
    rewrite IH.
    + destruct (openAll _ _ _) as [ps|]; [|reflexivity].
      now rewrite <- app_assoc.
    + unfold Crypto.chunkSize. lia.
    + rewrite chunkCount_step in Hn by lia. injection Hn as ->.
      f_equal. lia.
Qed.

End LoopFacts.

(** ** The stream functions in closed form *)

Lemma chunksOf_nil : chunksOf [] = [].
Proof. reflexivity. Qed.

Lemma chunksOf_single (b : bytes) :
  (0 < Bytes.size b <= Crypto.chunkSize)%Z -> chunksOf b = [b].
Proof.
  intros H. unfold chunksOf. rewrite chunkCount_one by assumption.
  simpl. now rewrite slice_all by lia.
Qed.

Lemma size_zero_nil (b : bytes) : (Bytes.size b <= 0)%Z -> b = [].
Proof. destruct b; [reflexivity|]. unfold Bytes.size. simpl length. lia. Qed.

Lemma getRandomValues_iv (w : World) :
  getRandomValues Crypto.IV_LENGTH w
  = (Ok (drawn w Crypto.IV_LENGTH), advanced w Crypto.IV_LENGTH).
Proof. reflexivity. Qed.

Section StreamFacts.

Context {P : Primitives}.

(** [encryptFileStream] draws one nonce, encrypts every chunk of the file
    under it and returns the ciphertexts one after the other. *)
Lemma encryptFileStream_closed_form file key w :
  validRoomKey key = true ->
  Crypto.encryptFileStream file key w
  = (Ok (Crypto.mkEncryptedFile
           (Blob.ofArray
              (concat (map (Subtle.gcmEncrypt (Subtle.keyData key)
                              (drawn w Crypto.IV_LENGTH) [] 16)
                           (chunksOf (Blob.contents file))))
              (Some (JSString.js "application/octet-stream")))
           (Base64.encode (JSString.fromCharCode (drawn w Crypto.IV_LENGTH)))),
     logged (advanced w Crypto.IV_LENGTH)
            (map (mkGcmCall (Subtle.keyData key) (drawn w Crypto.IV_LENGTH) [])
                 (chunksOf (Blob.contents file)))).
Proof.
  intros V. unfold Crypto.encryptFileStream.
  unfold bind at 1. rewrite getRandomValues_iv.
  unfold bind at 1.
  rewrite (encryptLoop_chunks file key _ V
             (chunkCount (Blob.size file - 0)) 0 [])
    by (try lia; reflexivity).
  rewrite Z.sub_0_r. fold (chunksOf (Blob.contents file)).
  unfold bind at 1, lift at 1. rewrite combineChunks_concat.
  unfold bind at 1, lift at 1. rewrite btoa_fromCharCode.
  reflexivity.
Qed.

(** [decryptFileStream] opens the 2 MiB ranges of the blob one by one
    under the nonce it is given, each with no associated data, and
    returns the plaintexts one after the other; it throws
    [OperationError] when a range does not verify. *)
Lemma decryptFileStream_closed_form blob ivB64 decoded key w :
  validRoomKey key = true ->
  Base64.atob ivB64 = Ok decoded ->
  Crypto.decryptFileStream blob ivB64 key w
  = (match openAll (Subtle.keyData key) (JSString.toUint8Array decoded)
                   (chunksOf (Blob.contents blob)) with
     | Some ps => Ok (Blob.ofArray (concat ps) None)
     | None => Throw OperationError
     end, w).
Proof.
  intros V E. unfold Crypto.decryptFileStream.
  unfold bind at 1, lift at 1. rewrite E.
  unfold bind at 1.
  rewrite (decryptLoop_chunks blob key _ V
             (chunkCount (Blob.size blob - 0)) 0 [])
    by (try lia; reflexivity).
  rewrite Z.sub_0_r. fold (chunksOf (Blob.contents blob)).
  destruct (openAll _ _ _) as [ps|]; [|reflexivity].
  simpl app. unfold bind at 1, lift at 1. rewrite combineChunks_concat.
  reflexivity.
Qed.

End StreamFacts.

(** ** The checksum cores meet what is assumed of the cores *)

Lemma checksumPrimitives_spec : PrimitivesSpec checksumPrimitives.
Proof.
  split; intros; reflexivity.
Qed.

Lemma sampleKey_valid : validRoomKey sampleKey = true.
Proof. reflexivity. Qed.

(* ================================================================== *)
(** * Stream decryption of an empty blob (C10) *)
(* ================================================================== *)

(** C10.  For every key and every IV text that decodes to 12 bytes,
    [decryptFileStream] on a blob of zero bytes returns an empty blob and
    does not throw: the loop body never runs, so no AES-GCM call is made
    and nothing is authenticated.  A chunked payload cut down to zero
    chunks is therefore accepted as an empty payload. *)
Theorem decryptFileStream_empty_blob :
  forall (P : Primitives) (key : Subtle.CryptoKey)
         (ivB64 decoded ty : JSString.t) (w : World),
    Base64.atob ivB64 = Ok decoded ->
    length (JSString.toUint8Array decoded) = 12%nat ->
    Crypto.decryptFileStream (Blob.mk [] ty) ivB64 key w
    = (Ok (Blob.ofArray [] None), w).
Proof.
  intros P key ivB64 decoded ty w E _.
  unfold Crypto.decryptFileStream.
  unfold bind at 1, lift at 1. rewrite E.
  unfold bind at 1.
  rewrite decryptLoop_done by (unfold Blob.size, Bytes.size; simpl; lia).
  reflexivity.
Qed.

Lemma decryptFileStream_empty_blob_witness :
  Base64.atob (JSString.js "AAAAAAAAAAAAAAAA") = Ok (repeat 0%N 12)
  /\ Crypto.decryptFileStream (P := checksumPrimitives) (Blob.mk [] [])
       (JSString.js "AAAAAAAAAAAAAAAA") sampleKey world0
     = (Ok (Blob.ofArray [] None), world0).
Proof.
  split; [reflexivity|].
  apply (decryptFileStream_empty_blob checksumPrimitives sampleKey
           (JSString.js "AAAAAAAAAAAAAAAA") (repeat 0%N 12) [] world0);
    reflexivity.
Defined.

(* ================================================================== *)
(** * Round trip of a payload that fits one decryptor range (C9) *)
(* ================================================================== *)

(** C9.  For every payload of at most 2 MiB - 16 = 2,097,136 bytes and
    every valid room key, [encryptFileStream] succeeds and
    [decryptFileStream], given the encrypted blob and the IV it returned
    and the same key, returns exactly the bytes of the payload.  The one
    ciphertext chunk with its 16-byte tag then fits the first 2 MiB range
    the decryptor reads. *)
Theorem small_file_round_trip :
  forall (P : Primitives) (PS : PrimitivesSpec P)
         (file : Blob.t) (key : Subtle.CryptoKey) (w : World),
    validRoomKey key = true ->
    (Blob.size file <= 2097136)%Z ->
    exists enc w1 out,
      Crypto.encryptFileStream file key w = (Ok enc, w1)
      /\ Crypto.decryptFileStream (Crypto.encryptedBlob enc)
           (Crypto.fileIv enc) key w1 = (Ok out, w1)
      /\ Blob.contents out = Blob.contents file.
Proof.
  intros P PS file key w V Hsz.
  rewrite (encryptFileStream_closed_form file key w V).
  assert (R : forall ct ty w',
             Crypto.decryptFileStream (Blob.ofArray ct ty)
               (Base64.encode (JSString.fromCharCode (drawn w Crypto.IV_LENGTH)))
               key w'
             = (match openAll (Subtle.keyData key) (drawn w Crypto.IV_LENGTH)
                              (chunksOf ct) with
                | Some ps => Ok (Blob.ofArray (concat ps) None)
                | None => Throw OperationError
                end, w')).
  { intros ct ty w'.
    rewrite (decryptFileStream_closed_form _ _ _ key _ V (atob_btoa_bytes _)).
    now rewrite toUint8Array_fromCharCode. }
  destruct (Z_le_gt_dec (Blob.size file) 0) as [Z0|Zpos].
  - rewrite (size_zero_nil (Blob.contents file) Z0).
    rewrite chunksOf_nil.
    eexists. eexists. exists (Blob.ofArray [] None).
    split; [reflexivity|].
    cbn [Crypto.encryptedBlob Crypto.fileIv map concat].
    rewrite R. rewrite chunksOf_nil.
    split; reflexivity.
  - rewrite (chunksOf_single (Blob.contents file))
      by (unfold Blob.size, Crypto.chunkSize in *; lia).
    eexists. eexists. exists (Blob.ofArray (Blob.contents file) None).
    split; [reflexivity|].
    cbn [Crypto.encryptedBlob Crypto.fileIv map concat].
    rewrite app_nil_r. rewrite R.
    rewrite chunksOf_single.
    + cbn [openAll]. rewrite openChunk_gcmEncrypt.
      cbn [concat]. rewrite app_nil_r. split; reflexivity.
    + unfold Bytes.size. rewrite gcmEncrypt_length.
      unfold Blob.size, Bytes.size, Crypto.chunkSize in *. lia.
Qed.

Lemma small_file_round_trip_witness :
  exists enc w1 out,
    Crypto.encryptFileStream (P := checksumPrimitives)
      (Blob.mk [x68; x69] []) sampleKey world0 = (Ok enc, w1)
    /\ Crypto.decryptFileStream (P := checksumPrimitives)
         (Crypto.encryptedBlob enc) (Crypto.fileIv enc) sampleKey w1
       = (Ok out, w1)
    /\ Blob.contents out = [x68; x69].
Proof.
  apply (small_file_round_trip checksumPrimitives checksumPrimitives_spec
           (Blob.mk [x68; x69] []) sampleKey world0).
  - reflexivity.
  - vm_compute. discriminate.
Defined.


(* ================================================================== *)
(** * Key derivation *)
(* ================================================================== *)

Section DeriveFacts.

Context {P : Primitives}.

Lemma importKeyPbkdf2_roomCode (data : bytes) (w : World) :
  Subtle.importKeyPbkdf2 data false
    [Subtle.deriveBits_usage; Subtle.deriveKey_usage] w
  = (Ok (Subtle.mkCryptoKey false Subtle.PBKDF2_key
           [Subtle.deriveBits_usage; Subtle.deriveKey_usage] data), w).
Proof. reflexivity. Qed.

Lemma subtle_deriveKey_roomCode (data sb : bytes) (w : World) :
  Subtle.deriveKey (Subtle.mkPbkdf2Params sb Crypto.PBKDF2_ITERATIONS)
    (Subtle.mkCryptoKey false Subtle.PBKDF2_key
       [Subtle.deriveBits_usage; Subtle.deriveKey_usage] data)
    Crypto.KEY_LENGTH false [Subtle.encrypt_usage; Subtle.decrypt_usage] w
  = Subtle.importKeyAesGcm (Subtle.pbkdf2 data sb 200000 32) false
      [Subtle.encrypt_usage; Subtle.decrypt_usage] w.
Proof. reflexivity. Qed.

Lemma importKeyAesGcm_roomKey (secret : bytes) (w : World) :
  Subtle.importKeyAesGcm secret false
    [Subtle.encrypt_usage; Subtle.decrypt_usage] w
  = (if negb ((8 * N.of_nat (length secret) =? 128)
              || (8 * N.of_nat (length secret) =? 192)
              || (8 * N.of_nat (length secret) =? 256))%N
     then Throw DataError
     else Ok (Subtle.mkCryptoKey false
                (Subtle.AES_GCM_key (8 * N.of_nat (length secret)))
                [Subtle.encrypt_usage; Subtle.decrypt_usage] secret), w).
Proof.
  unfold Subtle.importKeyAesGcm.
  cbn [forallb Subtle.KeyUsage_eqb orb andb negb length Nat.eqb].
  destruct (negb _); reflexivity.
Qed.

(** [deriveKey] decodes the salt, then hands the UTF-8 bytes of the room
    code, the salt, 200000 iterations and 32 bytes of output to PBKDF2 and
    imports the result as a key that is not extractable. *)
Lemma deriveKey_unfold roomCode salt w :
  Crypto.deriveKey roomCode salt w
  = match saltBytesOf salt with
    | Ok sb =>
        Subtle.importKeyAesGcm
          (Subtle.pbkdf2 (TextCodec.encode roomCode) sb 200000 32) false
          [Subtle.encrypt_usage; Subtle.decrypt_usage] w
    | Throw e => (Throw e, w)
    end.
Proof.
  assert (S : forall sb,
             (keyMaterial <-
                Subtle.importKeyPbkdf2 (TextCodec.encode roomCode) false
                  [Subtle.deriveBits_usage; Subtle.deriveKey_usage] ;;
              key <-
                Subtle.deriveKey
                  (Subtle.mkPbkdf2Params sb Crypto.PBKDF2_ITERATIONS)
                  keyMaterial Crypto.KEY_LENGTH false
                  [Subtle.encrypt_usage; Subtle.decrypt_usage] ;;
              ret key) w
             = Subtle.importKeyAesGcm
                 (Subtle.pbkdf2 (TextCodec.encode roomCode) sb 200000 32) false
                 [Subtle.encrypt_usage; Subtle.decrypt_usage] w).
  { intros sb. unfold bind at 1. rewrite importKeyPbkdf2_roomCode.
    unfold bind at 1. rewrite subtle_deriveKey_roomCode.
    destruct (Subtle.importKeyAesGcm _ _ _ w) as [[k|e] w']; reflexivity. }
  unfold Crypto.deriveKey. unfold bind at 1.
  destruct salt as [a|s]; cbn [saltBytesOf].
  - unfold ret at 1. apply S.
  - unfold bind at 1. unfold lift. destruct (Base64.atob s) as [decoded|e].
    + unfold ret at 1. apply S.
    + reflexivity.
Qed.

(** A key that [deriveKey] returns is never extractable, and the
    derivation leaves the world as it was. *)
Lemma deriveKey_not_extractable roomCode salt w :
  snd (Crypto.deriveKey roomCode salt w) = w
  /\ forall key, fst (Crypto.deriveKey roomCode salt w) = Ok key ->
                 Subtle.extractable key = false.
Proof.
  rewrite deriveKey_unfold.
  destruct (saltBytesOf salt) as [sb|e].
  - generalize (Subtle.pbkdf2 (TextCodec.encode roomCode) sb 200000 32).
    intros secret. rewrite importKeyAesGcm_roomKey.
    destruct (negb _); cbn [fst snd]; (split; [reflexivity|]);
      intros key E; inversion E; reflexivity.
  - cbn [fst snd]. split; [reflexivity|]. intros key E. discriminate.
Qed.

Context {PS : PrimitivesSpec P}.

Lemma hmac_length (k m : bytes) : length (Subtle.hmac k m) = 32%nat.
Proof. unfold Subtle.hmac. apply sha256_length. Qed.

Lemma pbkdf2Block_length (password slt : bytes) (c i : N) :
  length (Subtle.pbkdf2Block password slt c i) = 32%nat.
Proof.
  unfold Subtle.pbkdf2Block.
  apply (N.iter_invariant (c - 1) _ (Subtle.pbkdf2Step password)
           (fun s => length (snd s) = 32%nat)).
  - intros s Hs. unfold Subtle.pbkdf2Step. cbn [snd].
    now rewrite xorBytes_length.
  - cbn [snd]. apply hmac_length.
Qed.

Lemma pbkdf2_length_32 (password slt : bytes) (c : N) :
  length (Subtle.pbkdf2 password slt c 32) = 32%nat.
Proof.
  unfold Subtle.pbkdf2.
  change ((32 + 31) / 32)%nat with 1%nat.
  cbn [seq flat_map]. rewrite app_nil_r.
  rewrite firstn_all2 by (rewrite pbkdf2Block_length; lia).
  apply pbkdf2Block_length.
Qed.

Lemma specDerive_length (roomCode : JSString.t) (slt : bytes) :
  length (specDerive roomCode slt) = 32%nat.
Proof. unfold specDerive. apply pbkdf2_length_32. Qed.

(** [deriveKey] in closed form: it fails only when a string salt is not
    base64, and otherwise returns the key of the specification. *)
Lemma deriveKey_closed_form roomCode salt w :
  Crypto.deriveKey roomCode salt w
  = (match saltBytesOf salt with
     | Ok sb => Ok (derivedKey roomCode sb)
     | Throw e => Throw e
     end, w).
Proof.
  rewrite deriveKey_unfold.
  destruct (saltBytesOf salt) as [sb|e]; [|reflexivity].
  unfold derivedKey, specDerive.
  generalize (pbkdf2_length_32 (TextCodec.encode roomCode) sb 200000).
  generalize (Subtle.pbkdf2 (TextCodec.encode roomCode) sb 200000 32).
  intros secret L. rewrite importKeyAesGcm_roomKey, L.
  reflexivity.
Qed.

End DeriveFacts.

(** ** Room codes that differ and derive the same key

    HMAC pads its key with zero bytes up to the block length, so a
    password and the same password followed by a zero byte are the same
    HMAC key, and PBKDF2 derives the same key from both. *)

Section TrailingZero.

Context {P : Primitives}.

Lemma hmacBlockKey_trailing_zero (k : bytes) :
  (length k < 64)%nat ->
  Subtle.hmacBlockKey (k ++ [x00]) = Subtle.hmacBlockKey k.
Proof.
  intros H. unfold Subtle.hmacBlockKey.
  assert (L : length (k ++ [x00]) = S (length k))
    by (rewrite length_app; cbn [length]; lia).
  rewrite L.
  destruct (Nat.ltb_spec 64 (S (length k))); [lia|].
  destruct (Nat.ltb_spec 64 (length k)); [lia|].
  rewrite L, <- app_assoc. f_equal. cbn [app].
  replace (64 - length k)%nat with (S (64 - S (length k))) by lia.
  reflexivity.
Qed.

Lemma pbkdf2_trailing_zero (k slt : bytes) (c : N) (dkLen : nat) :
  (length k < 64)%nat ->
  Subtle.pbkdf2 (k ++ [x00]) slt c dkLen = Subtle.pbkdf2 k slt c dkLen.
Proof.
  intros H. unfold Subtle.pbkdf2, Subtle.pbkdf2Block, Subtle.pbkdf2Step,
    Subtle.hmac.
  now rewrite (hmacBlockKey_trailing_zero k H).
Qed.

(** The room code of the tests and the same code followed by U+0000. *)
Lemma specDerive_trailing_NUL (slt : bytes) :
  specDerive (JSString.js "test-room-code-123" ++ [0%N]) slt
  = specDerive (JSString.js "test-room-code-123") slt.
Proof.
  unfold specDerive.
  change (TextCodec.encode (JSString.js "test-room-code-123" ++ [0%N]))
    with (TextCodec.encode (JSString.js "test-room-code-123") ++ [x00]).
  apply pbkdf2_trailing_zero. vm_compute. lia.
Qed.

End TrailingZero.

(** C8.  [deriveKey] is deterministic and pure.  For every room code and
    every salt of 16 bytes (given as an array, or as the base64 text of
    16 bytes) there is one key that every call returns, whatever the
    state of the world at the call, and the call leaves the world as it
    found it.  The key is the 256-bit AES-GCM key whose bytes are PBKDF2
    over HMAC-SHA-256 with 200,000 iterations of the UTF-8 encoding of
    the room code, salted with the salt: the derivation of the
    specification, [specDerive]. *)
Theorem deriveKey_deterministic :
  forall (P : Primitives) (PS : PrimitivesSpec P)
         (roomCode : JSString.t) (salt : Crypto.Salt) (saltBytes : bytes),
    saltBytesOf salt = Ok saltBytes ->
    length saltBytes = 16%nat ->
    exists key,
      (forall w, Crypto.deriveKey roomCode salt w = (Ok key, w))
      /\ Subtle.keyData key = specDerive roomCode saltBytes
      /\ length (Subtle.keyData key) = 32%nat
      /\ Subtle.algorithm key = Subtle.AES_GCM_key 256.
Proof.
  intros P PS roomCode salt saltBytes E _.
  exists (derivedKey roomCode saltBytes). split; [|split; [|split]].
  - intros w. rewrite deriveKey_closed_form, E. reflexivity.
  - reflexivity.
  - apply specDerive_length.
  - reflexivity.
Qed.

Lemma deriveKey_deterministic_witness :
  exists key,
    (forall w,
        Crypto.deriveKey (P := checksumPrimitives)
          (JSString.js "correct-horse-battery")
          (Crypto.SaltString (JSString.js "AAAAAAAAAAAAAAAAAAAAAA==")) w
        = (Ok key, w))
    /\ Subtle.keyData key
       = specDerive (P := checksumPrimitives)
           (JSString.js "correct-horse-battery") (repeat x00 16)
    /\ length (Subtle.keyData key) = 32%nat
    /\ Subtle.algorithm key = Subtle.AES_GCM_key 256.
Proof.
  apply (deriveKey_deterministic checksumPrimitives checksumPrimitives_spec
           (JSString.js "correct-horse-battery")
           (Crypto.SaltString (JSString.js "AAAAAAAAAAAAAAAAAAAAAA=="))
           (repeat x00 16)).
  - vm_compute. reflexivity.
  - reflexivity.
Defined.

(** C6, as the specification states it, fails: [deriveKey] returns a key
    for the empty room code, for a salt array of three bytes and for the
    base64 text of three bytes. *)
Lemma deriveKey_accepts_empty_code_and_short_salt :
  (exists key,
      Crypto.deriveKey (P := checksumPrimitives) []
        (Crypto.SaltArray (repeat x00 16)) world0 = (Ok key, world0))
  /\ (exists key,
         Crypto.deriveKey (P := checksumPrimitives) (JSString.js "abc")
           (Crypto.SaltArray [x01; x02; x03]) world0 = (Ok key, world0))
  /\ (exists key,
         Crypto.deriveKey (P := checksumPrimitives) (JSString.js "abc")
           (Crypto.SaltString (JSString.js "AQID")) world0 = (Ok key, world0)).
Proof.
  assert (E : saltBytesOf (Crypto.SaltString (JSString.js "AQID"))
              = Ok [x01; x02; x03]) by (vm_compute; reflexivity).
  repeat split;
    rewrite (deriveKey_closed_form (PS := checksumPrimitives_spec));
    [ | | rewrite E]; eexists; reflexivity.
Qed.

(** C6, amended.  [deriveKey] has no [KeyDerivationError] and checks
    neither the room code nor the length of the salt.  For every room
    code, the empty one included, and every salt array, of any length, it
    returns the key derived from them; for a salt string it returns the
    key derived from the base64 decoding of the string, of any length,
    and throws only when the string is not base64: the
    [InvalidCharacterError] of [atob]. *)
Theorem deriveKey_no_validation :
  forall (P : Primitives) (PS : PrimitivesSpec P)
         (roomCode : JSString.t) (salt : Crypto.Salt) (w : World),
    Crypto.deriveKey roomCode salt w
    = (match saltBytesOf salt with
       | Ok sb => Ok (derivedKey roomCode sb)
       | Throw e => Throw e
       end, w)
    /\ match salt with
       | Crypto.SaltArray a => saltBytesOf salt = Ok a
       | Crypto.SaltString s =>
           saltBytesOf salt = Throw InvalidCharacterError
           \/ exists decoded,
               Base64.atob s = Ok decoded
               /\ saltBytesOf salt = Ok (JSString.toUint8Array decoded)
       end.
Proof.
  intros P PS roomCode salt w. split.
  - apply deriveKey_closed_form.
  - destruct salt as [a|s]; [reflexivity|].
    cbn [saltBytesOf]. unfold Base64.atob.
    repeat match goal with
           | |- context [if ?c then _ else _] => destruct c
           | |- context [match Base64.values ?x with _ => _ end] =>
               destruct (Base64.values x)
           end;
      try (left; reflexivity); right; eexists; split; reflexivity.
Qed.

Lemma deriveKey_no_validation_witness :
  Crypto.deriveKey (P := checksumPrimitives) [] (Crypto.SaltArray []) world0
  = (Ok (derivedKey (P := checksumPrimitives) [] []), world0).
Proof.
  apply (deriveKey_no_validation checksumPrimitives checksumPrimitives_spec
           [] (Crypto.SaltArray []) world0).
Defined.

(* ================================================================== *)
(** * The verifier *)
(* ================================================================== *)

Section VerifierFacts.

Context {P : Primitives}.

Lemma computeVerifierHash_not_extractable key w :
  Subtle.extractable key = false ->
  Crypto.computeVerifierHash key w = (Throw InvalidAccessError, w).
Proof.
  intros E. unfold Crypto.computeVerifierHash, bind, Subtle.exportKey.
  rewrite E. reflexivity.
Qed.

End VerifierFacts.

(** C7.  [verifyRoomCode] never throws: for every room code, salt and
    expected hash it returns a boolean.  When the key derivation throws
    the result is [false]; when the derivation returns a key and the
    hashing of that key throws the result is [false]; otherwise the
    result is the comparison of the two hashes. *)
Theorem verifyRoomCode_never_throws :
  forall (P : Primitives) (roomCode salt expectedHash : JSString.t) (w : World),
    (exists b w', Crypto.verifyRoomCode roomCode salt expectedHash w = (Ok b, w'))
    /\ match Crypto.deriveKey roomCode (Crypto.SaltString salt) w with
       | (Throw _, w') =>
           Crypto.verifyRoomCode roomCode salt expectedHash w = (Ok false, w')
       | (Ok key, w') =>
           match Crypto.computeVerifierHash key w' with
           | (Throw _, w'') =>
               Crypto.verifyRoomCode roomCode salt expectedHash w
               = (Ok false, w'')
           | (Ok hash, w'') =>
               Crypto.verifyRoomCode roomCode salt expectedHash w
               = (Ok (JSString.eqb hash expectedHash), w'')
           end
       end.
Proof.
  intros P roomCode salt expectedHash w.
  unfold Crypto.verifyRoomCode, tryCatch, bind, ret.
  destruct (Crypto.deriveKey roomCode (Crypto.SaltString salt) w)
    as [[key|e] w'].
  - destruct (Crypto.computeVerifierHash key w') as [[hash|e] w''];
      (split; [eexists; eexists; reflexivity | reflexivity]).
  - split; [eexists; eexists; reflexivity | reflexivity].
Qed.

(** C2 fails on the code.  A key from [deriveKey] is not extractable, so
    [computeVerifierHash] of it throws [InvalidAccessError] at
    [exportKey]; [verifyRoomCode] catches that and answers [false] for
    every room code, the right one included, whatever the expected
    hash. *)
Theorem verifyRoomCode_rejects_every_code :
  forall (P : Primitives) (roomCode salt expectedHash : JSString.t) (w : World),
    Crypto.verifyRoomCode roomCode salt expectedHash w = (Ok false, w)
    /\ match Crypto.deriveKey roomCode (Crypto.SaltString salt) w with
       | (Ok key, w') =>
           Crypto.computeVerifierHash key w' = (Throw InvalidAccessError, w')
       | (Throw _, _) => True
       end.
Proof.
  intros P roomCode salt expectedHash w.
  destruct (deriveKey_not_extractable roomCode (Crypto.SaltString salt) w)
    as [Hw Hx].
  unfold Crypto.verifyRoomCode, tryCatch, bind, ret.
  destruct (Crypto.deriveKey roomCode (Crypto.SaltString salt) w)
    as [[key|e] w']; cbn [fst snd] in *; subst w'.
  - specialize (Hx key eq_refl).
    rewrite (computeVerifierHash_not_extractable key w Hx).
    split; reflexivity.
  - split; [reflexivity | exact I].
Qed.


(* ================================================================== *)
(** * Nonces and framing of the stream cipher *)
(* ================================================================== *)

Lemma chunksFrom_length (n : nat) (b : bytes) (offset : Z) :
  length (chunksFrom n b offset) = n.
Proof.
  revert offset. induction n as [|n IH]; intros offset; simpl; auto.
Qed.

Lemma chunkCount_two (sz : Z) :
  (Crypto.chunkSize < sz)%Z -> (2 <= chunkCount sz)%nat.
Proof. unfold chunkCount, Crypto.chunkSize. intros H. dlia. Qed.

Lemma chunksOf_two (b : bytes) :
  (Crypto.chunkSize < Bytes.size b)%Z -> (2 <= length (chunksOf b))%nat.
Proof.
  intros H. unfold chunksOf. rewrite chunksFrom_length.
  now apply chunkCount_two.
Qed.

(** The first chunk of a payload of at least 2 MiB is its first 2 MiB. *)
Lemma chunksOf_head (b : bytes) :
  (Crypto.chunkSize <= Bytes.size b)%Z ->
  exists rest,
    chunksOf b = firstn (Z.to_nat Crypto.chunkSize) b :: rest.
Proof.
  intros H. unfold chunksOf.
  rewrite chunkCount_step by (unfold Crypto.chunkSize in *; lia).
  cbn [chunksFrom]. eexists. f_equal.
  pose proof (size_nonneg b).
  rewrite slice_nonneg by (unfold Crypto.chunkSize; lia).
  replace (Z.min 0 (Bytes.size b)) with 0%Z by lia.
  replace (Z.min (0 + Crypto.chunkSize) (Bytes.size b))
    with Crypto.chunkSize by (unfold Crypto.chunkSize in *; lia).
  cbn [Z.to_nat skipn]. f_equal; unfold Crypto.chunkSize; lia.
Qed.

Lemma NoDup_repeat_two {A : Type} (x : A) (n : nat) :
  (2 <= n)%nat -> ~ NoDup (repeat x n).
Proof.
  destruct n as [|[|n]]; try lia. intros _ H. cbn [repeat] in H.
  inversion H as [|? ? Hnin _]. apply Hnin. now left.
Qed.

Lemma callsSince_logged (w w' : World) (calls : list GcmCall) :
  gcmLog w' = gcmLog w -> callsSince w (logged w' calls) = calls.
Proof.
  intros E. unfold callsSince, logged. cbn [gcmLog]. rewrite E.
  rewrite skipn_app, Nat.sub_diag, skipn_all. reflexivity.
Qed.

(** C1 fails on the code.  [encryptFileStream] draws one nonce before
    the loop and passes it to every [crypto.subtle.encrypt] call of the
    loop: every AES-GCM encryption it makes is under the room key and
    that one nonce, with no associated data.  For a payload of more than
    2 MiB there are at least two such encryptions, so the (key, nonce)
    pairs of the stream are not distinct. *)
Theorem encryptFileStream_reuses_nonce :
  forall (P : Primitives) (file : Blob.t) (key : Subtle.CryptoKey) (w : World),
    validRoomKey key = true ->
    (Crypto.chunkSize < Blob.size file)%Z ->
    exists enc w1,
      Crypto.encryptFileStream file key w = (Ok enc, w1)
      /\ callsSince w w1
         = map (mkGcmCall (Subtle.keyData key) (drawn w Crypto.IV_LENGTH) [])
               (chunksOf (Blob.contents file))
      /\ (2 <= length (callsSince w w1))%nat
      /\ ~ NoDup (map (fun c => (call_key c, call_iv c)) (callsSince w w1)).
Proof.
  intros P file key w V Hsz.
  rewrite (encryptFileStream_closed_form file key w V).
  eexists. eexists. split; [reflexivity|].
  rewrite callsSince_logged by reflexivity.
  pose proof (chunksOf_two (Blob.contents file) Hsz) as L.
  split; [reflexivity|]. split.
  - now rewrite length_map.
  - rewrite map_map. cbn [call_key call_iv].
    rewrite map_const. now apply NoDup_repeat_two.
Qed.

(** C3 fails on the code.  For a payload of 2 MiB or more the first
    ciphertext chunk is 2 MiB of ciphertext followed by its 16-byte tag,
    but [decryptFileStream] reads the blob in ranges of 2 MiB: its first
    AES-GCM call receives the ciphertext without the tag and takes the
    last 16 ciphertext bytes as the tag.  So the decryption throws
    [OperationError], unless those 16 bytes happen to be the tag of the
    ciphertext before them. *)
Theorem multi_chunk_stream_not_decryptable :
  forall (P : Primitives) (PS : PrimitivesSpec P)
         (file : Blob.t) (key : Subtle.CryptoKey) (w : World),
    validRoomKey key = true ->
    (Crypto.chunkSize < Blob.size file)%Z ->
    exists enc w1,
      Crypto.encryptFileStream file key w = (Ok enc, w1)
      /\ let n := Z.to_nat Crypto.chunkSize in
         let body := gcmBody (Subtle.keyData key) (drawn w Crypto.IV_LENGTH)
                             (firstn n (Blob.contents file)) in
         Crypto.decryptFileStream (Crypto.encryptedBlob enc)
           (Crypto.fileIv enc) key w1 = (Throw OperationError, w1)
         \/ skipn (n - 16) body
            = gcmTag (Subtle.keyData key) (drawn w Crypto.IV_LENGTH) []
                     (firstn (n - 16) body).
Proof.
  intros P PS file key w V Hsz.
  rewrite (encryptFileStream_closed_form file key w V).
  eexists. eexists. split; [reflexivity|].
  cbn [Crypto.encryptedBlob Crypto.fileIv].
  rewrite (decryptFileStream_closed_form _ _ _ key _ V (atob_btoa_bytes _)).
  rewrite toUint8Array_fromCharCode. cbn [Blob.ofArray Blob.contents].
  set (n := Z.to_nat Crypto.chunkSize).
  set (kd := Subtle.keyData key). set (nonce := drawn w Crypto.IV_LENGTH).
  destruct (chunksOf_head (Blob.contents file)) as [rest0 E0];
    [unfold Blob.size in Hsz; lia|].
  rewrite E0. fold n. cbn [map concat].
  set (c0 := firstn n (Blob.contents file)).
  assert (Lc0 : length c0 = n).
  { unfold c0. rewrite length_firstn. unfold Blob.size, Bytes.size in Hsz.
    unfold n. lia. }
  rewrite gcmEncrypt_body_tag.
  set (body := gcmBody kd nonce c0).
  assert (Lb : length body = n) by (unfold body; now rewrite gcmBody_length).
  set (tail := concat (map (Subtle.gcmEncrypt kd nonce [] 16) rest0)).
  destruct (chunksOf_head ((body ++ firstn 16 (gcmTag kd nonce [] body)) ++ tail))
    as [rest1 E1].
  { rewrite !size_app. unfold Bytes.size at 1. rewrite Lb.
    pose proof (size_nonneg (firstn 16 (gcmTag kd nonce [] body))).
    pose proof (size_nonneg tail). unfold n. lia. }
  rewrite E1. fold n.
  rewrite <- app_assoc, firstn_app, Lb, Nat.sub_diag, firstn_O, app_nil_r.
  rewrite <- Lb at 1. rewrite firstn_all.
  cbn [openAll]. unfold openChunk.
  destruct (Nat.ltb_spec (length body) 16) as [Hlt|_].
  { left. reflexivity. }
  unfold Subtle.gcmDecrypt. rewrite Lb.
  rewrite (firstn_all2 (gcmTag kd nonce [] (firstn (n - 16) body)))
    by (rewrite gcmTag_length; lia).
  destruct (Bytes.eqb (skipn (n - 16) body)
                      (gcmTag kd nonce [] (firstn (n - 16) body))) eqn:T.
  - right. now apply Bytes_eqb_eq.
  - left. reflexivity.
Qed.

(** ** What the decryptor authenticates *)

Lemma slice_middle (pre r post : bytes) :
  Bytes.slice (pre ++ r ++ post) (Bytes.size pre) (Bytes.size pre + Bytes.size r)
  = r.
Proof.
  pose proof (size_nonneg pre). pose proof (size_nonneg r).
  pose proof (size_nonneg post).
  rewrite slice_nonneg by lia. rewrite !size_app.
  replace (Z.min (Bytes.size pre)
                 (Bytes.size pre + (Bytes.size r + Bytes.size post)))
    with (Bytes.size pre) by lia.
  replace (Z.min (Bytes.size pre + Bytes.size r)
                 (Bytes.size pre + (Bytes.size r + Bytes.size post)))
    with (Bytes.size pre + Bytes.size r)%Z by lia.
  replace (Z.to_nat (Bytes.size pre)) with (length pre)
    by (unfold Bytes.size; lia).
  replace (Z.to_nat (Z.max (Bytes.size pre + Bytes.size r - Bytes.size pre) 0))
    with (length r) by (unfold Bytes.size; lia).
  rewrite skipn_app, skipn_all, Nat.sub_diag, skipn_O. cbn [app].
  rewrite firstn_app, firstn_all, Nat.sub_diag, firstn_O. apply app_nil_r.
Qed.

(** Ranges of exactly 2 MiB put one after the other are the ranges the
    decryptor reads. *)
Lemma chunksFrom_concat (rs : list bytes) (pre : bytes) :
  Forall (fun r => Bytes.size r = Crypto.chunkSize) rs ->
  chunksFrom (length rs) (pre ++ concat rs) (Bytes.size pre) = rs.
Proof.
  revert pre. induction rs as [|r rs IH]; intros pre F; [reflexivity|].
  inversion_clear F as [|? ? Hr Hrs].
  cbn [length chunksFrom concat]. f_equal.
  - rewrite <- Hr. apply slice_middle.
  - rewrite <- Hr, <- size_app, app_assoc. now apply IH.
Qed.

Lemma size_concat_full (rs : list bytes) :
  Forall (fun r => Bytes.size r = Crypto.chunkSize) rs ->
  Bytes.size (concat rs) = (Crypto.chunkSize * Z.of_nat (length rs))%Z.
Proof.
  induction 1 as [|r rs Hr _ IH]; cbn [concat length].
  - unfold Bytes.size. simpl. lia.
  - rewrite size_app, IH, Hr. lia.
Qed.

Lemma chunkCount_full (n : nat) :
  chunkCount (Crypto.chunkSize * Z.of_nat n) = n.
Proof.
  induction n as [|n IH].
  - apply chunkCount_done. lia.
  - rewrite chunkCount_step by (unfold Crypto.chunkSize; lia).
    f_equal. rewrite <- IH at 2. f_equal. lia.
Qed.

Lemma chunksOf_concat (rs : list bytes) :
  Forall (fun r => Bytes.size r = Crypto.chunkSize) rs ->
  chunksOf (concat rs) = rs.
Proof.
  intros F. unfold chunksOf.
  rewrite (size_concat_full rs F), chunkCount_full.
  apply (chunksFrom_concat rs [] F).
Qed.

Lemma openAll_Forall2 {P : Primitives} (k nonce : bytes) (rs ps : list bytes) :
  Forall2 (fun r p => openChunk k nonce r = Some p) rs ps ->
  openAll k nonce rs = Some ps.
Proof.
  induction 1 as [|r p rs ps Hr _ IH]; cbn [openAll]; [reflexivity|].
  now rewrite Hr, IH.
Qed.

Lemma largeContent_size : Bytes.size largeContent = (3 * 1024 * 1024)%Z.
Proof.
  unfold Bytes.size, largeContent. rewrite length_map, length_seq. lia.
Qed.

Lemma largeFile_size : (Crypto.chunkSize < Blob.size largeFile)%Z.
Proof.
  unfold Blob.size, largeFile. cbn [Blob.contents].
  rewrite largeContent_size. unfold Crypto.chunkSize. lia.
Qed.

Lemma largeContent_chunks : length (chunksOf largeContent) = 2%nat.
Proof.
  unfold chunksOf. rewrite chunksFrom_length, largeContent_size.
  reflexivity.
Qed.

Lemma encryptFileStream_reuses_nonce_witness :
  exists enc w1,
    Crypto.encryptFileStream (P := checksumPrimitives) largeFile sampleKey world0
    = (Ok enc, w1)
    /\ callsSince world0 w1
       = map (mkGcmCall (Subtle.keyData sampleKey)
                (drawn world0 Crypto.IV_LENGTH) [])
             (chunksOf (Blob.contents largeFile))
    /\ (2 <= length (callsSince world0 w1))%nat
    /\ ~ NoDup (map (fun c => (call_key c, call_iv c)) (callsSince world0 w1)).
Proof.
  apply (encryptFileStream_reuses_nonce checksumPrimitives largeFile
           sampleKey world0).
  - reflexivity.
  - exact largeFile_size.
Defined.

(** ** The 3 MiB payload under the checksum cores *)

Lemma xorBytes_map {A : Type} (f g : A -> byte) (l : list A) :
  xorBytes (map f l) (map g l) = map (fun i => xor8 (f i) (g i)) l.
Proof. induction l as [|x l IH]; cbn; [reflexivity | now rewrite IH]. Qed.

Lemma skipn_seq_tail (a n k : nat) :
  (k <= n)%nat -> skipn k (seq a n) = seq (a + k) (n - k).
Proof.
  revert a n. induction k as [|k IH]; intros a n H.
  - cbn. now rewrite Nat.add_0_r, Nat.sub_0_r.
  - destruct n as [|n]; [lia|]. cbn [seq skipn]. rewrite IH by lia.
    f_equal. lia.
Qed.

(** The ciphertext of the first chunk of the 3 MiB payload: byte [i] is
    [i % 256] under the [i]-th byte of the key stream. *)
Lemma largeFile_first_body :
  gcmBody (P := checksumPrimitives) (Subtle.keyData sampleKey)
    (drawn world0 Crypto.IV_LENGTH)
    (firstn (Z.to_nat Crypto.chunkSize) (Blob.contents largeFile))
  = map (fun i => xor8 (u8 (N.of_nat i)) (u8 (1410 + N.of_nat i)))
        (seq 0 (Z.to_nat Crypto.chunkSize)).
Proof.
  unfold gcmBody, Subtle.keystream.
  cbn [largeFile Blob.contents]. unfold largeContent.
  rewrite firstn_map, firstn_seq_le by (unfold Crypto.chunkSize; lia).
  rewrite length_map, length_seq.
  apply xorBytes_map.
Qed.

Lemma nth_one_of_last_sixteen (n : nat) (h : nat -> byte) : (16 <= n)%nat ->
  nth 1 (skipn (n - 16) (map h (seq 0 n))) x00 = h (S (n - 16)).
Proof.
  intros H. rewrite skipn_map, skipn_seq_tail by lia.
  replace (n - (n - 16))%nat with 16%nat by lia.
  cbn [Nat.add]. reflexivity.
Qed.

Lemma largeFile_second_tag_byte : forall n, Z.of_nat n = 2097152%Z ->
  xor8 (u8 (N.of_nat (S (n - 16)))) (u8 (1410 + N.of_nat (S (n - 16)))) <> x01.
Proof.
  intros n Hv.
  replace (N.of_nat (S (n - 16))) with 2097137%N by lia.
  vm_compute. discriminate.
Qed.

Lemma checksum_tag_second_byte c : nth 1 (@gcmTag checksumPrimitives (Subtle.keyData sampleKey)
       (drawn world0 Crypto.IV_LENGTH) [] c) x00 = x01.
Proof. reflexivity. Qed.

(** Its last 16 bytes are not the tag of the bytes before them: the
    second of them is 0x82 where the tag has 0x01. *)
Lemma largeFile_tag_mismatch :
  skipn (Z.to_nat Crypto.chunkSize - 16)
    (gcmBody (P := checksumPrimitives) (Subtle.keyData sampleKey)
       (drawn world0 Crypto.IV_LENGTH)
       (firstn (Z.to_nat Crypto.chunkSize) (Blob.contents largeFile)))
  <> @gcmTag checksumPrimitives (Subtle.keyData sampleKey)
       (drawn world0 Crypto.IV_LENGTH) []
       (firstn (Z.to_nat Crypto.chunkSize - 16)
          (gcmBody (P := checksumPrimitives) (Subtle.keyData sampleKey)
             (drawn world0 Crypto.IV_LENGTH)
             (firstn (Z.to_nat Crypto.chunkSize) (Blob.contents largeFile)))).
Proof.
  rewrite largeFile_first_body.
  remember (Z.to_nat Crypto.chunkSize) as n eqn:Hn.
  assert (Hv : Z.of_nat n = 2097152%Z) by (unfold Crypto.chunkSize in Hn; lia).
  clear Hn.
  intros E.
  apply (f_equal (fun l => nth 1 l x00)) in E.
  rewrite nth_one_of_last_sixteen, checksum_tag_second_byte in E by lia.
  exact (largeFile_second_tag_byte n Hv E).
Qed.

Lemma multi_chunk_stream_not_decryptable_witness :
  exists enc w1,
    Crypto.encryptFileStream (P := checksumPrimitives) largeFile sampleKey world0
    = (Ok enc, w1)
    /\ Crypto.decryptFileStream (P := checksumPrimitives)
         (Crypto.encryptedBlob enc) (Crypto.fileIv enc) sampleKey w1
       = (Throw OperationError, w1).
Proof.
  pose proof (multi_chunk_stream_not_decryptable checksumPrimitives
                checksumPrimitives_spec largeFile sampleKey world0
                sampleKey_valid largeFile_size) as H.
  destruct H as [enc [w1 [E H]]]. cbv zeta in H. destruct H as [T|F].
  - exists enc, w1. split; assumption.
  - exfalso. exact (largeFile_tag_mismatch F).
Defined.

(** C4, as the specification states it, fails.  The 3 MiB payload is
    encrypted as two chunks; in both AES-GCM calls the associated data is
    empty, so no position is bound; and the chunk sequence cut down to
    its first zero chunks is decrypted without error to the empty
    payload. *)
Lemma truncated_stream_accepted :
  exists enc w1 chunkCiphertexts,
    Crypto.encryptFileStream (P := checksumPrimitives) largeFile sampleKey world0
    = (Ok enc, w1)
    /\ Blob.contents (Crypto.encryptedBlob enc) = concat chunkCiphertexts
    /\ length chunkCiphertexts = 2%nat
    /\ map call_aad (callsSince world0 w1) = [[]; []]
    /\ Crypto.decryptFileStream (P := checksumPrimitives)
         (Blob.ofArray (concat (firstn 0 chunkCiphertexts)) None)
         (Crypto.fileIv enc) sampleKey w1
       = (Ok (Blob.ofArray [] None), w1).
Proof.
  rewrite (encryptFileStream_closed_form largeFile sampleKey world0
             sampleKey_valid).
  eexists. eexists.
  exists (map (Subtle.gcmEncrypt (P := checksumPrimitives)
                 (Subtle.keyData sampleKey) (drawn world0 Crypto.IV_LENGTH) [] 16)
              (chunksOf largeContent)).
  split; [reflexivity|]. split; [reflexivity|]. split; [|split].
  - rewrite length_map. apply largeContent_chunks.
  - rewrite callsSince_logged by reflexivity.
    rewrite map_map. cbn [call_aad]. rewrite map_const.
    cbn [largeFile Blob.contents]. now rewrite largeContent_chunks.
  - cbn [firstn concat Crypto.fileIv].
    rewrite (decryptFileStream_closed_form _ _ _ sampleKey _ sampleKey_valid
               (atob_btoa_bytes _)).
    reflexivity.
Qed.

(** C4, amended.  [decryptFileStream] binds no position.  It
    authenticates each 2 MiB range of the blob on its own, under the key
    and the nonce it is given and with no associated data, and nothing
    ties a range to its place or to the number of ranges.  For every
    sequence of 2 MiB ranges, in whatever order and of whatever length,
    down to none, it throws [OperationError] when one of the ranges,
    taken alone, fails AES-GCM verification, and otherwise returns the
    plaintexts of the ranges in the order given: swapped ranges give the
    swapped plaintext and a sequence cut at a range boundary gives the
    shortened plaintext. *)
Theorem decryptFileStream_position_independent :
  forall (P : Primitives) (key : Subtle.CryptoKey)
         (ivB64 decoded ty : JSString.t) (ranges : list bytes) (w : World),
    validRoomKey key = true ->
    Base64.atob ivB64 = Ok decoded ->
    Forall (fun r => Bytes.size r = Crypto.chunkSize) ranges ->
    Crypto.decryptFileStream (Blob.mk (concat ranges) ty) ivB64 key w
    = (match openAll (Subtle.keyData key) (JSString.toUint8Array decoded)
                     ranges with
       | Some plaintexts => Ok (Blob.ofArray (concat plaintexts) None)
       | None => Throw OperationError
       end, w).
Proof.
  intros P key ivB64 decoded ty ranges w V E F.
  rewrite (decryptFileStream_closed_form _ _ _ key _ V E).
  cbn [Blob.contents]. now rewrite (chunksOf_concat ranges F).
Qed.

(** Two ranges in the order [b], [a] give the plaintext of [b] followed by
    that of [a]. *)
Lemma decryptFileStream_position_independent_witness :
  let k := Subtle.keyData sampleKey in
  let nonce := JSString.toUint8Array (repeat 0%N 12) in
  let a := Subtle.gcmEncrypt (P := checksumPrimitives) k nonce [] 16
             (fullPlain x00) in
  let b := Subtle.gcmEncrypt (P := checksumPrimitives) k nonce [] 16
             (fullPlain x01) in
  Crypto.decryptFileStream (P := checksumPrimitives)
    (Blob.mk (concat [b; a]) []) (JSString.js "AAAAAAAAAAAAAAAA")
    sampleKey world0
  = (Ok (Blob.ofArray (concat [fullPlain x01; fullPlain x00]) None), world0).
Proof.
  intros k nonce a b.
  assert (Sz : forall x,
             Bytes.size (Subtle.gcmEncrypt (P := checksumPrimitives) k nonce []
                           16 (fullPlain x)) = Crypto.chunkSize).
  { intros x. unfold Bytes.size.
    rewrite (gcmEncrypt_length (PS := checksumPrimitives_spec)).
    unfold fullPlain. rewrite repeat_length. unfold Crypto.chunkSize. lia. }
  assert (O : openAll (P := checksumPrimitives) k nonce [b; a]
              = Some [fullPlain x01; fullPlain x00]).
  { apply openAll_Forall2.
    apply Forall2_cons;
      [apply (openChunk_gcmEncrypt (PS := checksumPrimitives_spec))|].
    apply Forall2_cons;
      [apply (openChunk_gcmEncrypt (PS := checksumPrimitives_spec))|].
    apply Forall2_nil. }
  rewrite (decryptFileStream_position_independent checksumPrimitives sampleKey
             (JSString.js "AAAAAAAAAAAAAAAA") (repeat 0%N 12) []
             [b; a] world0).
  - fold k nonce. rewrite O. reflexivity.
  - reflexivity.
  - reflexivity.
  - apply Forall_cons; [apply Sz|].
    apply Forall_cons; [apply Sz|]. apply Forall_nil.
Defined.


(* ================================================================== *)
(** * UTF-8: decoding undoes encoding *)
(* ================================================================== *)

Section Utf8Facts.

Import TextCodec.

Open Scope N_scope.

Lemma to_N_u8_small (n : N) : n < 256 -> Byte.to_N (u8 n) = n.
Proof. intros H. rewrite to_N_u8. now apply N.mod_small. Qed.

Lemma decodeFrom_start (st : DecoderState) (byte : byte) (rest : bytes) :
  bytesNeeded st = 0 ->
  decodeFrom st (byte :: rest)
  = fst (startByte (Byte.to_N byte))
    ++ decodeFrom (snd (startByte (Byte.to_N byte))) rest.
Proof.
  intros H. cbn [decodeFrom]. rewrite H. cbn [N.eqb].
  now destruct (startByte (Byte.to_N byte)).
Qed.

Lemma decodeFrom_last (st : DecoderState) (byte : byte) (rest : bytes) :
  bytesNeeded st <> 0 ->
  lowerBoundary st <= Byte.to_N byte <= upperBoundary st ->
  bytesSeen st + 1 = bytesNeeded st ->
  decodeFrom st (byte :: rest)
  = (codePoint st * 64 + (Byte.to_N byte - 0x80))
    :: decodeFrom initialState rest.
Proof.
  intros Hn [Hl Hu] Hs. cbn [decodeFrom].
  destruct (N.eqb_spec (bytesNeeded st) 0); [contradiction|].
  destruct (N.leb_spec (lowerBoundary st) (Byte.to_N byte)); [|lia].
  destruct (N.leb_spec (Byte.to_N byte) (upperBoundary st)); [|lia].
  cbn [andb]. destruct (N.eqb_spec (bytesSeen st + 1) (bytesNeeded st));
    [reflexivity | contradiction].
Qed.

Lemma decodeFrom_more (st : DecoderState) (byte : byte) (rest : bytes) :
  bytesNeeded st <> 0 ->
  lowerBoundary st <= Byte.to_N byte <= upperBoundary st ->
  bytesSeen st + 1 <> bytesNeeded st ->
  decodeFrom st (byte :: rest)
  = decodeFrom
      (mkDecoderState (codePoint st * 64 + (Byte.to_N byte - 0x80))
                      (bytesSeen st + 1) (bytesNeeded st) 0x80 0xBF)
      rest.
Proof.
  intros Hn [Hl Hu] Hs. cbn [decodeFrom].
  destruct (N.eqb_spec (bytesNeeded st) 0); [contradiction|].
  destruct (N.leb_spec (lowerBoundary st) (Byte.to_N byte)); [|lia].
  destruct (N.leb_spec (Byte.to_N byte) (upperBoundary st)); [|lia].
  cbn [andb]. destruct (N.eqb_spec (bytesSeen st + 1) (bytesNeeded st));
    [contradiction | reflexivity].
Qed.

Lemma startByte_ascii (b : N) : b <= 0x7F -> startByte b = ([b], initialState).
Proof.
  intros H. unfold startByte.
  destruct (N.leb_spec b 0x7F); [reflexivity | lia].
Qed.

Lemma startByte_two (b : N) :
  0xC2 <= b <= 0xDF ->
  startByte b = ([], mkDecoderState (b - 0xC0) 0 1 0x80 0xBF).
Proof.
  intros H. unfold startByte.
  destruct (N.leb_spec b 0x7F); [lia|].
  destruct (N.leb_spec 0xC2 b); [|lia].
  destruct (N.leb_spec b 0xDF); [|lia]. reflexivity.
Qed.

Lemma startByte_three (b : N) :
  0xE0 <= b <= 0xEF ->
  startByte b
  = ([], mkDecoderState (b - 0xE0) 0 2
           (if b =? 0xE0 then 0xA0 else 0x80)
           (if b =? 0xED then 0x9F else 0xBF)).
Proof.
  intros H. unfold startByte.
  destruct (N.leb_spec b 0x7F); [lia|].
  destruct (N.leb_spec 0xC2 b); [|lia].
  destruct (N.leb_spec b 0xDF); [lia|]. cbn [andb].
  destruct (N.leb_spec 0xE0 b); [|lia].
  destruct (N.leb_spec b 0xEF); [|lia]. reflexivity.
Qed.

Lemma startByte_four (b : N) :
  0xF0 <= b <= 0xF4 ->
  startByte b
  = ([], mkDecoderState (b - 0xF0) 0 3
           (if b =? 0xF0 then 0x90 else 0x80)
           (if b =? 0xF4 then 0x8F else 0xBF)).
Proof.
  intros H. unfold startByte.
  destruct (N.leb_spec b 0x7F); [lia|].
  destruct (N.leb_spec 0xC2 b); [|lia].
  destruct (N.leb_spec b 0xDF); [lia|]. cbn [andb].
  destruct (N.leb_spec 0xE0 b); [|lia].
  destruct (N.leb_spec b 0xEF); [lia|]. cbn [andb].
  destruct (N.leb_spec 0xF0 b); [|lia].
  destruct (N.leb_spec b 0xF4); [|lia]. reflexivity.
Qed.

(** The decoder reads the bytes of one scalar value back as that
    value, and is then again at the start of a sequence. *)
Lemma decodeFrom_encodeScalar (c : N) (rest : bytes) :
  isScalar c ->
  decodeFrom initialState (encodeScalar c ++ rest)
  = c :: decodeFrom initialState rest.
Proof.
  intros Hc. unfold isScalar in Hc. unfold encodeScalar.
  destruct (N.ltb_spec c 0x80) as [H1|H1].
  { cbn [app]. rewrite decodeFrom_start by reflexivity.
    rewrite to_N_u8_small by lia. rewrite startByte_ascii by lia.
    reflexivity. }
  destruct (N.ltb_spec c 0x800) as [H2|H2].
  { cbn [app]. rewrite decodeFrom_start by reflexivity.
    rewrite to_N_u8_small by dlia. rewrite startByte_two by dlia.
    cbn [fst snd app].
    rewrite decodeFrom_last;
      cbn [bytesNeeded bytesSeen lowerBoundary upperBoundary codePoint];
      rewrite ?to_N_u8_small by dlia; try dlia.
    f_equal. dlia. }
  destruct (N.ltb_spec c 0x10000) as [H3|H3].
  { cbn [app]. rewrite decodeFrom_start by reflexivity.
    rewrite to_N_u8_small by dlia. rewrite startByte_three by dlia.
    cbn [fst snd app].
    rewrite decodeFrom_more;
      cbn [bytesNeeded bytesSeen lowerBoundary upperBoundary codePoint];
      rewrite ?to_N_u8_small by dlia; try dlia.
    2:{ destruct (N.eqb_spec (0xE0 + c / 4096) 0xE0);
        destruct (N.eqb_spec (0xE0 + c / 4096) 0xED); dlia. }
    rewrite decodeFrom_last;
      cbn [bytesNeeded bytesSeen lowerBoundary upperBoundary codePoint];
      rewrite ?to_N_u8_small by dlia; try dlia.
    f_equal. dlia. }
  cbn [app]. rewrite decodeFrom_start by reflexivity.
  rewrite to_N_u8_small by dlia. rewrite startByte_four by dlia.
  cbn [fst snd app].
  rewrite decodeFrom_more;
    cbn [bytesNeeded bytesSeen lowerBoundary upperBoundary codePoint];
    rewrite ?to_N_u8_small by dlia; try dlia.
  2:{ destruct (N.eqb_spec (0xF0 + c / 262144) 0xF0);
      destruct (N.eqb_spec (0xF0 + c / 262144) 0xF4); dlia. }
  rewrite decodeFrom_more;
    cbn [bytesNeeded bytesSeen lowerBoundary upperBoundary codePoint];
    rewrite ?to_N_u8_small by dlia; try dlia.
  rewrite decodeFrom_last;
    cbn [bytesNeeded bytesSeen lowerBoundary upperBoundary codePoint];
    rewrite ?to_N_u8_small by dlia; try dlia.
  f_equal. dlia.
Qed.

Lemma decodeFrom_encode_scalars (cps : list N) :
  Forall isScalar cps ->
  decodeFrom initialState (flat_map encodeScalar cps) = cps.
Proof.
  induction 1 as [|c cps Hc _ IH]; [reflexivity|].
  cbn [flat_map]. rewrite decodeFrom_encodeScalar by assumption.
  now rewrite IH.
Qed.


Lemma surrogate_bounds (c : N) :
  (JSString.isLeadSurrogate c = true <-> 0xD800 <= c <= 0xDBFF)
  /\ (JSString.isTrailSurrogate c = true <-> 0xDC00 <= c <= 0xDFFF).
Proof.
  unfold JSString.isLeadSurrogate, JSString.isTrailSurrogate.
  rewrite !andb_true_iff, !N.leb_le. tauto.
Qed.

(** The scalar values of a well-formed string are scalar values, and
    their code units are the string. *)
Lemma toScalarValues_wellFormed (n : nat) :
  forall s, (length s <= n)%nat ->
    JSString.wellFormed s = true ->
    Forall isScalar (toScalarValues s)
    /\ flat_map codeUnits (toScalarValues s) = s.
Proof.
  induction n as [|n IH]; intros s Hlen Hwf.
  - destruct s; [|cbn [length] in Hlen; lia]. split; [constructor|reflexivity].
  - destruct s as [|c rest]; [split; [constructor|reflexivity]|].
    cbn [JSString.wellFormed toScalarValues] in *.
    destruct (JSString.isLeadSurrogate c) eqn:L.
    + destruct rest as [|d rest']; [discriminate|].
      apply andb_prop in Hwf. destruct Hwf as [T Hwf]. rewrite T.
      apply (proj1 (surrogate_bounds c)) in L.
      apply (proj2 (surrogate_bounds d)) in T.
      destruct (IH rest') as [F E]; [cbn [length] in Hlen; lia | assumption |].
      split.
      * constructor; [|assumption]. unfold isScalar. lia.
      * cbn [flat_map]. rewrite E. unfold codeUnits.
        destruct (N.ltb_spec (0x10000 + (c - 0xD800) * 0x400 + (d - 0xDC00))
                             0x10000); [lia|].
        cbn [app]. f_equal; [dlia|]. f_equal. dlia.
    + destruct (JSString.isTrailSurrogate c) eqn:T; [discriminate|].
      apply andb_prop in Hwf. destruct Hwf as [B Hwf].
      apply N.ltb_lt in B.
      assert (Hc : isScalar c).
      { unfold isScalar.
        destruct (N.lt_ge_cases c 0xD800) as [|G1]; [now left|].
        destruct (N.le_gt_cases c 0xDBFF) as [G2|G2].
        - assert (0xD800 <= c <= 0xDBFF) as G by lia.
          apply (proj1 (surrogate_bounds c)) in G. congruence.
        - destruct (N.le_gt_cases c 0xDFFF) as [G3|G3].
          + assert (0xDC00 <= c <= 0xDFFF) as G by lia.
            apply (proj2 (surrogate_bounds c)) in G. congruence.
          + right. lia. }
      destruct (IH rest) as [F E]; [cbn [length] in Hlen; lia | assumption |].
      split; [constructor; assumption|].
      cbn [flat_map]. rewrite E. unfold codeUnits.
      destruct (N.ltb_spec c 0x10000); [reflexivity | lia].
Qed.

Lemma wellFormed_withoutBOM (s : JSString.t) :
  JSString.wellFormed s = true ->
  JSString.wellFormed (withoutBOM s) = true
  /\ dropBOM (toScalarValues s) = toScalarValues (withoutBOM s).
Proof.
  intros Hwf. destruct s as [|c rest]; [split; reflexivity|].
  cbn [withoutBOM]. destruct (N.eqb_spec c 0xFEFF) as [->|Hne].
  - cbn [JSString.wellFormed toScalarValues] in *.
    change (JSString.isLeadSurrogate 65279) with false in *.
    change (JSString.isTrailSurrogate 65279) with false in *.
    cbv iota in *. apply andb_prop in Hwf. destruct Hwf as [_ Hwf].
    split; [assumption|]. cbn [dropBOM]. reflexivity.
  - split; [assumption|].
    cbn [JSString.wellFormed toScalarValues] in *.
    destruct (JSString.isLeadSurrogate c) eqn:L.
    + destruct rest as [|d rest']; [discriminate|].
      apply andb_prop in Hwf. destruct Hwf as [T _]. rewrite T.
      apply (proj1 (surrogate_bounds c)) in L.
      apply (proj2 (surrogate_bounds d)) in T.
      cbn [dropBOM].
      destruct (N.eqb_spec (0x10000 + (c - 0xD800) * 0x400 + (d - 0xDC00))
                           0xFEFF); [lia | reflexivity].
    + destruct (JSString.isTrailSurrogate c) eqn:T; [discriminate|].
      cbn [dropBOM].
      destruct (N.eqb_spec c 0xFEFF); [contradiction | reflexivity].
Qed.

(** [TextDecoder] undoes [TextEncoder] on a well-formed string, except
    that it drops a byte order mark at the start. *)
Lemma decode_encode (s : JSString.t) :
  JSString.wellFormed s = true ->
  decode (encode s) = withoutBOM s.
Proof.
  intros Hwf. unfold decode, encode.
  destruct (toScalarValues_wellFormed (length s) s (le_n _) Hwf) as [F _].
  rewrite (decodeFrom_encode_scalars _ F).
  destruct (wellFormed_withoutBOM s Hwf) as [Hwf' ->].
  apply (toScalarValues_wellFormed (length (withoutBOM s)) _ (le_n _) Hwf').
Qed.

End Utf8Facts.

(* ================================================================== *)
(** * The message cipher *)
(* ================================================================== *)

Section StringFacts.

Context {P : Primitives} {PS : PrimitivesSpec P}.

(** [decryptString] on the output of [encryptString] returns what
    [TextDecoder] makes of the bytes [TextEncoder] made of the
    plaintext. *)
Lemma string_round_trip_codec plaintext key w :
  validRoomKey key = true ->
  (Bytes.size (TextCodec.encode plaintext) <= Subtle.maxPlaintext)%Z ->
  exists es w1,
    Crypto.encryptString plaintext key w = (Ok es, w1)
    /\ Crypto.decryptString (Crypto.ciphertext es) (Crypto.iv es) key w1
       = (Ok (TextCodec.decode (TextCodec.encode plaintext)), w1).
Proof.
  intros V Hsz. unfold Crypto.encryptString.
  unfold bind at 1. rewrite getRandomValues_iv.
  unfold bind at 1. rewrite (encrypt_roomKey key _ _ _ V Hsz).
  unfold bind at 1, lift at 1. rewrite btoa_fromCharCode.
  unfold bind at 1, lift at 1. rewrite btoa_fromCharCode.
  unfold ret. eexists. eexists. split; [reflexivity|].
  cbn [Crypto.ciphertext Crypto.iv].
  unfold Crypto.decryptString.
  unfold bind at 1, lift at 1. rewrite atob_btoa_bytes.
  unfold bind at 1, lift at 1. rewrite atob_btoa_bytes.
  rewrite !toUint8Array_fromCharCode.
  unfold bind at 1. rewrite (decrypt_roomKey key _ _ _ V).
  rewrite openChunk_gcmEncrypt. reflexivity.
Qed.

End StringFacts.

(** C5 fails on the code.  For every well-formed string and every valid
    room key, [decryptString] on the ciphertext and IV of [encryptString]
    returns the string without the byte order mark U+FEFF it may begin
    with: [new TextDecoder()] does not ignore the mark.  A plaintext that
    begins with U+FEFF does not come back as it was; every other
    well-formed plaintext does.  (The bound on the length is the AES-GCM
    limit of 2^39 - 256 bytes, which no JavaScript string reaches.) *)
Theorem string_round_trip_drops_byte_order_mark :
  forall (P : Primitives) (PS : PrimitivesSpec P)
         (plaintext : JSString.t) (key : Subtle.CryptoKey) (w : World),
    validRoomKey key = true ->
    JSString.wellFormed plaintext = true ->
    (Bytes.size (TextCodec.encode plaintext) <= Subtle.maxPlaintext)%Z ->
    exists es w1,
      Crypto.encryptString plaintext key w = (Ok es, w1)
      /\ Crypto.decryptString (Crypto.ciphertext es) (Crypto.iv es) key w1
         = (Ok (withoutBOM plaintext), w1).
Proof.
  intros P PS plaintext key w V Hwf Hsz.
  destruct (string_round_trip_codec plaintext key w V Hsz) as [es [w1 [E D]]].
  exists es, w1. split; [assumption|].
  now rewrite <- (decode_encode plaintext Hwf).
Qed.

Lemma string_round_trip_drops_byte_order_mark_witness :
  (exists es w1,
      Crypto.encryptString (P := checksumPrimitives)
        (0xFEFF%N :: JSString.js "hi") sampleKey world0 = (Ok es, w1)
      /\ Crypto.decryptString (P := checksumPrimitives)
           (Crypto.ciphertext es) (Crypto.iv es) sampleKey w1
         = (Ok (JSString.js "hi"), w1))
  /\ JSString.js "hi" <> (0xFEFF%N :: JSString.js "hi").
Proof.
  split.
  - apply (string_round_trip_drops_byte_order_mark checksumPrimitives
             checksumPrimitives_spec (0xFEFF%N :: JSString.js "hi")
             sampleKey world0).
    + reflexivity.
    + reflexivity.
    + vm_compute. discriminate.
  - discriminate.
Defined.

(* ================================================================== *)
(** * Further properties of crypto.ts *)
(* ================================================================== *)

(** ** Salts *)


(* ================================================================== *)
(** * Further properties of crypto.ts *)
(* ================================================================== *)

(** ** Salts *)

Lemma drawn_length (w : World) (n : nat) : length (drawn w n) = n.
Proof. unfold drawn. now rewrite length_map, length_seq. Qed.

Lemma getRandomValues_salt (w : World) :
  getRandomValues Crypto.SALT_LENGTH w
  = (Ok (drawn w Crypto.SALT_LENGTH), advanced w Crypto.SALT_LENGTH).
Proof. reflexivity. Qed.

(** The base64 text of [n] bytes has four characters for every three
    bytes, the last group padded. *)
Lemma encode_length (l : list N) :
  length (Base64.encode l) = (4 * ((length l + 2) / 3))%nat.
Proof.
  induction l as [| a | a b | a b c l IH] using list_ind3; try reflexivity.
  change (Base64.encode (a :: b :: c :: l))
    with (Base64.digit (a / 4) :: Base64.digit (a mod 4 * 16 + b / 16)
          :: Base64.digit (b mod 16 * 4 + c / 64) :: Base64.digit (c mod 64)
          :: Base64.encode l)%N.
  cbn [length]. rewrite IH.
  generalize (length l). intros n.
  change (S (S (S n)) + 2)%nat with (3 + (n + 2))%nat. dlia.
Qed.

(** X1.  [generateSalt] never throws and returns 24 base64 characters:
    the encoding of the next 16 bytes of the random source, which [atob]
    gives back.  [deriveKey] accepts that string as a salt, in every
    world, and derives the key from those 16 bytes. *)
Theorem generateSalt_is_a_salt_for_deriveKey :
  forall (P : Primitives) (PS : PrimitivesSpec P)
         (roomCode : JSString.t) (w : World),
    exists salt,
      Crypto.generateSalt w = (Ok salt, advanced w 16)
      /\ length salt = 24%nat
      /\ Base64.atob salt = Ok (JSString.fromCharCode (drawn w 16))
      /\ length (drawn w 16) = 16%nat
      /\ forall w',
          Crypto.deriveKey roomCode (Crypto.SaltString salt) w'
          = (Ok (derivedKey roomCode (drawn w 16)), w').
Proof.
  intros P PS roomCode w.
  exists (Base64.encode (JSString.fromCharCode (drawn w 16))).
  split; [|split; [|split; [|split]]].
  - unfold Crypto.generateSalt, bind. rewrite getRandomValues_salt.
    unfold lift. now rewrite btoa_fromCharCode.
  - rewrite encode_length. unfold JSString.fromCharCode.
    now rewrite length_map, drawn_length.
  - apply atob_btoa_bytes.
  - apply drawn_length.
  - intros w'. rewrite deriveKey_closed_form. cbn [saltBytesOf].
    now rewrite atob_btoa_bytes, toUint8Array_fromCharCode.
Qed.

Lemma generateSalt_is_a_salt_for_deriveKey_witness :
  exists salt,
    Crypto.generateSalt world0 = (Ok salt, advanced world0 16)
    /\ length salt = 24%nat.
Proof.
  destruct (generateSalt_is_a_salt_for_deriveKey checksumPrimitives
              checksumPrimitives_spec (JSString.js "room") world0)
    as (salt & E & L & _).
  exists salt. split; [exact E | exact L].
Defined.

(** ** The message cipher: envelope, nonces, authenticity *)

Section StringCipherFacts.

Context {P : Primitives}.

(** [encryptString] in closed form. *)
Lemma encryptString_closed_form plaintext key w :
  validRoomKey key = true ->
  (Bytes.size (TextCodec.encode plaintext) <= Subtle.maxPlaintext)%Z ->
  Crypto.encryptString plaintext key w
  = (Ok (Crypto.mkEncryptedString
           (Base64.encode
              (JSString.fromCharCode
                 (Subtle.gcmEncrypt (Subtle.keyData key)
                    (drawn w Crypto.IV_LENGTH) [] 16
                    (TextCodec.encode plaintext))))
           (Base64.encode (JSString.fromCharCode (drawn w Crypto.IV_LENGTH)))),
     logged (advanced w Crypto.IV_LENGTH)
            [mkGcmCall (Subtle.keyData key) (drawn w Crypto.IV_LENGTH) []
                       (TextCodec.encode plaintext)]).
Proof.
  intros V Hsz. unfold Crypto.encryptString.
  unfold bind at 1. rewrite getRandomValues_iv.
  unfold bind at 1. rewrite (encrypt_roomKey key _ _ _ V Hsz).
  unfold bind at 1, lift at 1. rewrite btoa_fromCharCode.
  unfold bind at 1, lift at 1. rewrite btoa_fromCharCode.
  reflexivity.
Qed.

(** [decryptString] in closed form. *)
Lemma decryptString_closed_form ct ivB64 key w :
  validRoomKey key = true ->
  Crypto.decryptString ct ivB64 key w
  = (match Base64.atob ct with
     | Throw e => Throw e
     | Ok c =>
         match Base64.atob ivB64 with
         | Throw e => Throw e
         | Ok d =>
             match openChunk (Subtle.keyData key) (JSString.toUint8Array d)
                             (JSString.toUint8Array c) with
             | Some p => Ok (TextCodec.decode p)
             | None => Throw OperationError
             end
         end
     end, w).
Proof.
  intros V. unfold Crypto.decryptString.
  unfold bind at 1, lift at 1. destruct (Base64.atob ct) as [c|e]; [|reflexivity].
  unfold bind at 1, lift at 1.
  destruct (Base64.atob ivB64) as [d|e]; [|reflexivity].
  unfold bind at 1. rewrite (decrypt_roomKey key _ _ _ V).
  destruct (openChunk _ _ _); reflexivity.
Qed.

Lemma encode_injective (a b : bytes) :
  Base64.encode (JSString.fromCharCode a) = Base64.encode (JSString.fromCharCode b) ->
  a = b.
Proof.
  intros E. pose proof (atob_btoa_bytes a) as Ha. rewrite E in Ha.
  rewrite atob_btoa_bytes in Ha. injection Ha as Ha.
  rewrite <- (toUint8Array_fromCharCode a), <- (toUint8Array_fromCharCode b).
  now rewrite Ha.
Qed.

Context {PS : PrimitivesSpec P}.

(** What AES-GCM decryption accepts is an encryption: the data is the
    ciphertext and tag of the plaintext returned. *)
Lemma gcmDecrypt_genuine (k nonce aad data p : bytes) :
  (16 <= length data)%nat ->
  Subtle.gcmDecrypt k nonce aad 16 data = Some p ->
  data = Subtle.gcmEncrypt k nonce aad 16 p.
Proof.
  intros L. unfold Subtle.gcmDecrypt.
  set (n := (length data - 16)%nat).
  destruct (Bytes.eqb _ _) eqn:T; [|discriminate].
  intros [= <-]. apply Bytes_eqb_eq in T.
  rewrite (firstn_all2 (n := 16)) in T by (rewrite gcmTag_length; lia).
  assert (Lb : length (firstn n data) = n)
    by (rewrite length_firstn; unfold n; lia).
  unfold Subtle.gcmEncrypt. rewrite xorBytes_length, Lb.
  rewrite xorBytes_involutive.
  rewrite (firstn_all2 (n := 16)) by (rewrite gcmTag_length; lia).
  rewrite <- T. symmetry. apply firstn_skipn.
Qed.

Lemma openChunk_genuine (k nonce c p : bytes) :
  openChunk k nonce c = Some p -> c = Subtle.gcmEncrypt k nonce [] 16 p.
Proof.
  unfold openChunk. destruct (Nat.ltb_spec (length c) 16); [discriminate|].
  now apply gcmDecrypt_genuine.
Qed.

Lemma openChunk_length (k nonce c p : bytes) :
  openChunk k nonce c = Some p -> length c = (length p + 16)%nat.
Proof.
  intros H. rewrite (openChunk_genuine _ _ _ _ H) at 1.
  apply gcmEncrypt_length.
Qed.

End StringCipherFacts.



(** X3.  Two [encryptString] calls in succession draw their nonces from
    adjacent windows of the random source, 12 bytes each, so the two IVs
    returned are equal exactly when the random source repeats its 12
    bytes: the code itself never reuses a nonce between messages. *)
Theorem encryptString_draws_fresh_iv :
  forall (P : Primitives) (p1 p2 : JSString.t) (key : Subtle.CryptoKey) (w : World),
    validRoomKey key = true ->
    (Bytes.size (TextCodec.encode p1) <= Subtle.maxPlaintext)%Z ->
    (Bytes.size (TextCodec.encode p2) <= Subtle.maxPlaintext)%Z ->
    exists e1 w1 e2 w2,
      Crypto.encryptString p1 key w = (Ok e1, w1)
      /\ Crypto.encryptString p2 key w1 = (Ok e2, w2)
      /\ map call_iv (callsSince w w2)
         = [drawn w 12; drawn (advanced w 12) 12]
      /\ (Crypto.iv e1 = Crypto.iv e2
          <-> drawn w 12 = drawn (advanced w 12) 12).
Proof.
  intros P p1 p2 key w V H1 H2.
  eexists _, _, _, _.
  split; [apply (encryptString_closed_form _ _ _ V H1)|].
  split; [apply (encryptString_closed_form _ _ _ V H2)|].
  cbn [Crypto.iv]. split.
  - unfold callsSince, logged, advanced. cbn [gcmLog].
    rewrite <- app_assoc, skipn_app, Nat.sub_diag, skipn_all. reflexivity.
  - split.
    + intros E. apply encode_injective in E. exact E.
    + intros E. unfold Crypto.IV_LENGTH.
      change (drawn (logged (advanced w 12) ?c) 12) with (drawn (advanced w 12) 12).
      now rewrite <- E.
Qed.

Lemma encryptString_draws_fresh_iv_witness :
  exists e1 w1 e2 w2,
    Crypto.encryptString (P := checksumPrimitives) (JSString.js "hi") sampleKey world0
    = (Ok e1, w1)
    /\ Crypto.encryptString (P := checksumPrimitives) (JSString.js "ho") sampleKey w1
       = (Ok e2, w2)
    /\ Crypto.iv e1 <> Crypto.iv e2.
Proof.
  destruct (encryptString_draws_fresh_iv checksumPrimitives
              (JSString.js "hi") (JSString.js "ho") sampleKey world0)
    as (e1 & w1 & e2 & w2 & E1 & E2 & _ & I).
  - apply sampleKey_valid.
  - vm_compute. discriminate.
  - vm_compute. discriminate.
  - exists e1, w1, e2, w2. split; [exact E1|]. split; [exact E2|].
    intros E. apply I in E. vm_compute in E. discriminate.
Defined.

(** X4.  What [decryptString] returns is authenticated.  When it
    returns a string under a valid room key, both arguments are base64,
    the decoded ciphertext is the AES-GCM encryption, with 16-byte tag and
    no associated data, of some bytes under that key and the decoded IV,
    the string is the UTF-8 decoding of those bytes, and the world is
    unchanged. *)
Theorem decryptString_accepts_only_genuine :
  forall (P : Primitives) (PS : PrimitivesSpec P)
         (ct ivB64 : JSString.t) (key : Subtle.CryptoKey) (w w' : World)
         (s : JSString.t),
    validRoomKey key = true ->
    Crypto.decryptString ct ivB64 key w = (Ok s, w') ->
    exists c d p,
      Base64.atob ct = Ok c
      /\ Base64.atob ivB64 = Ok d
      /\ JSString.toUint8Array c
         = Subtle.gcmEncrypt (Subtle.keyData key) (JSString.toUint8Array d) [] 16 p
      /\ s = TextCodec.decode p
      /\ w' = w.
Proof.
  intros P PS ct ivB64 key w w' s V.
  rewrite (decryptString_closed_form _ _ _ _ V).
  destruct (Base64.atob ct) as [c|e]; [|discriminate].
  destruct (Base64.atob ivB64) as [d|e]; [|discriminate].
  destruct (openChunk _ _ _) as [p|] eqn:O; [|discriminate].
  intros [= <- <-]. exists c, d, p.
  repeat split. now apply openChunk_genuine.
Qed.

Lemma decryptString_accepts_only_genuine_witness :
  exists es w1 c p,
    Crypto.encryptString (P := checksumPrimitives) (JSString.js "hi") sampleKey world0
    = (Ok es, w1)
    /\ Base64.atob (Crypto.ciphertext es) = Ok c
    /\ JSString.toUint8Array c
       = Subtle.gcmEncrypt (P := checksumPrimitives) (Subtle.keyData sampleKey)
           (drawn world0 12) [] 16 p.
Proof.
  pose proof (encryptString_closed_form (P := checksumPrimitives)
                (JSString.js "hi") sampleKey world0 sampleKey_valid) as E.
  specialize (E ltac:(vm_compute; discriminate)).
  set (es := Crypto.mkEncryptedString _ _) in E.
  set (w1 := logged _ _) in E.
  assert (D : Crypto.decryptString (P := checksumPrimitives)
                (Crypto.ciphertext es) (Crypto.iv es) sampleKey w1
              = (Ok (JSString.js "hi"), w1)) by (vm_compute; reflexivity).
  destruct (decryptString_accepts_only_genuine checksumPrimitives
              checksumPrimitives_spec _ _ _ _ _ _ sampleKey_valid D)
    as (c & d & p & C & I & G & _).
  exists es, w1, c, p. split; [exact E|]. split; [exact C|].
  assert (Hd : JSString.toUint8Array d = drawn world0 12).
  { unfold es in I. cbn [Crypto.iv] in I. rewrite atob_btoa_bytes in I.
    injection I as <-. vm_compute. reflexivity. }
  now rewrite <- Hd.
Defined.

(** X5.  [decryptString] throws [OperationError] whenever the ciphertext
    decodes to fewer than 16 bytes, the empty string included: there is
    no room for the tag, whatever the key and the IV. *)
Theorem decryptString_rejects_short_ciphertext :
  forall (P : Primitives) (ct ivB64 c d : JSString.t)
         (key : Subtle.CryptoKey) (w : World),
    validRoomKey key = true ->
    Base64.atob ct = Ok c ->
    Base64.atob ivB64 = Ok d ->
    (length c < 16)%nat ->
    Crypto.decryptString ct ivB64 key w = (Throw OperationError, w).
Proof.
  intros P ct ivB64 c d key w V C D L.
  rewrite (decryptString_closed_form _ _ _ _ V), C, D.
  unfold openChunk, JSString.toUint8Array. rewrite length_map.
  apply Nat.ltb_lt in L. now rewrite L.
Qed.

Lemma decryptString_rejects_short_ciphertext_witness :
  Crypto.decryptString (P := checksumPrimitives) (JSString.js "")
    (JSString.js "AAAAAAAAAAAAAAAA") sampleKey world0
  = (Throw OperationError, world0).
Proof.
  apply (decryptString_rejects_short_ciphertext checksumPrimitives
           (JSString.js "") (JSString.js "AAAAAAAAAAAAAAAA")
           [] (repeat 0%N 12) sampleKey world0).
  - apply sampleKey_valid.
  - reflexivity.
  - vm_compute. reflexivity.
  - cbn. lia.
Defined.

(** ** The stream cipher: sizes and framing *)

Lemma slice_to_end (b : bytes) (a : Z) :
  (0 <= a)%Z ->
  Bytes.slice b a (Bytes.size b) = skipn (Z.to_nat (Z.min a (Bytes.size b))) b.
Proof.
  intros H. pose proof (size_nonneg b).
  rewrite slice_nonneg by lia.
  apply firstn_all2. rewrite length_skipn. unfold Bytes.size in *. lia.
Qed.

Lemma slice_split_end (b : bytes) (a m : Z) :
  (0 <= a <= m)%Z ->
  Bytes.slice b a m ++ Bytes.slice b m (Bytes.size b)
  = Bytes.slice b a (Bytes.size b).
Proof.
  intros H. rewrite !slice_to_end by lia. rewrite slice_nonneg by lia.
  set (a' := Z.to_nat (Z.min a (Bytes.size b))).
  replace (Z.to_nat (Z.min m (Bytes.size b)))
    with (Z.to_nat (Z.max (Z.min m (Bytes.size b) - Z.min a (Bytes.size b)) 0) + a')%nat
    by (unfold a'; lia).
  rewrite <- skipn_skipn. apply firstn_skipn.
Qed.

Lemma chunkCount_zero (sz : Z) : chunkCount sz = 0%nat -> (sz <= 0)%Z.
Proof. unfold chunkCount, Crypto.chunkSize. intros H. dlia. Qed.

Lemma concat_chunksFrom (b : bytes) (n : nat) :
  forall offset : Z,
    (0 <= offset)%Z ->
    n = chunkCount (Bytes.size b - offset) ->
    concat (chunksFrom n b offset) = Bytes.slice b offset (Bytes.size b).
Proof.
  induction n as [|n IH]; intros offset H0 Hn.
  - symmetry in Hn. apply chunkCount_zero in Hn.
    rewrite slice_to_end by lia. cbn [chunksFrom concat].
    symmetry. apply skipn_all2. unfold Bytes.size in *. lia.
  - assert (Hpos : (0 < Bytes.size b - offset)%Z).
    { destruct (Z.ltb_spec 0 (Bytes.size b - offset)) as [|Hle]; [assumption|].
      rewrite (chunkCount_done _ Hle) in Hn. discriminate. }
    rewrite (chunkCount_step _ Hpos) in Hn. injection Hn as Hn.
    cbn [chunksFrom concat].
    rewrite IH.
    + apply slice_split_end. unfold Crypto.chunkSize. lia.
    + unfold Crypto.chunkSize. lia.
    + rewrite Hn. f_equal. lia.
Qed.

(** The chunks of a payload, put end to end, are the payload. *)
Lemma concat_chunksOf (b : bytes) : concat (chunksOf b) = b.
Proof.
  unfold chunksOf. rewrite concat_chunksFrom.
  - apply slice_all. lia.
  - lia.
  - f_equal. lia.
Qed.

Lemma chunksOf_length (b : bytes) :
  length (chunksOf b) = chunkCount (Bytes.size b).
Proof. apply chunksFrom_length. Qed.

Section StreamSizes.

Context {P : Primitives} {PS : PrimitivesSpec P}.

Lemma size_sealed (k nonce : bytes) (cs : list bytes) :
  Bytes.size (concat (map (Subtle.gcmEncrypt k nonce [] 16) cs))
  = (Bytes.size (concat cs) + 16 * Z.of_nat (length cs))%Z.
Proof.
  induction cs as [|c cs IH]; cbn [map concat length]; [reflexivity|].
  rewrite !size_app, IH. unfold Bytes.size at 1 3.
  rewrite gcmEncrypt_length. lia.
Qed.

Lemma size_opened (k nonce : bytes) (rs : list bytes) :
  forall ps,
    openAll k nonce rs = Some ps ->
    Bytes.size (concat ps)
    = (Bytes.size (concat rs) - 16 * Z.of_nat (length rs))%Z.
Proof.
  induction rs as [|r rs IH]; intros ps; cbn [openAll].
  - intros [= <-]. reflexivity.
  - destruct (openChunk k nonce r) as [p|] eqn:O; [|discriminate].
    destruct (openAll k nonce rs) as [ps'|]; [|discriminate].
    intros [= <-]. cbn [concat length]. rewrite !size_app, (IH ps' eq_refl).
    apply openChunk_length in O. unfold Bytes.size at 1 3. lia.
Qed.

(** A blob whose last range is shorter than a tag is refused. *)
Lemma openAll_short_tail (k nonce b : bytes) (n : nat) :
  forall offset : Z,
    (0 <= offset)%Z ->
    n = chunkCount (Bytes.size b - offset) ->
    (1 <= (Bytes.size b - offset) mod Crypto.chunkSize <= 15)%Z ->
    (offset <= Bytes.size b)%Z ->
    openAll k nonce (chunksFrom n b offset) = None.
Proof.
  induction n as [|n IH]; intros offset H0 Hn Hm Hle.
  - symmetry in Hn. apply chunkCount_zero in Hn.
    replace (Bytes.size b - offset)%Z with 0%Z in Hm by lia.
    rewrite Z.mod_0_l in Hm by (unfold Crypto.chunkSize; lia). lia.
  - assert (Hpos : (0 < Bytes.size b - offset)%Z).
    { destruct (Z.ltb_spec 0 (Bytes.size b - offset)) as [|Hl]; [assumption|].
      rewrite (chunkCount_done _ Hl) in Hn. discriminate. }
    rewrite (chunkCount_step _ Hpos) in Hn. injection Hn as Hn.
    cbn [chunksFrom openAll].
    destruct (Z.leb_spec (Bytes.size b - offset) Crypto.chunkSize) as [Hs|Hs].
    + assert (L : Bytes.size (Bytes.slice b offset (offset + Crypto.chunkSize))
                  = ((Bytes.size b - offset) mod Crypto.chunkSize)%Z).
      { rewrite slice_length by (unfold Crypto.chunkSize; lia).
        unfold Crypto.chunkSize in *. dlia. }
      unfold openChunk at 1.
      destruct (Nat.ltb_spec
                  (length (Bytes.slice b offset (offset + Crypto.chunkSize))) 16)
        as [|Hge]; [reflexivity|].
      unfold Bytes.size in L at 1. lia.
    + rewrite (IH (offset + Crypto.chunkSize)%Z).
      * now destruct (openChunk _ _ _).
      * unfold Crypto.chunkSize. lia.
      * rewrite Hn. f_equal. lia.
      * replace (Bytes.size b - (offset + Crypto.chunkSize))%Z
          with (Bytes.size b - offset + (-1) * Crypto.chunkSize)%Z by lia.
        rewrite Z.mod_add by (unfold Crypto.chunkSize; lia). exact Hm.
      * lia.
Qed.

Lemma openAll_genuine (k nonce : bytes) (rs : list bytes) :
  forall ps,
    openAll k nonce rs = Some ps ->
    rs = map (Subtle.gcmEncrypt k nonce [] 16) ps.
Proof.
  induction rs as [|r rs IH]; intros ps; cbn [openAll].
  - intros [= <-]. reflexivity.
  - destruct (openChunk k nonce r) as [p|] eqn:O; [|discriminate].
    destruct (openAll k nonce rs) as [ps'|]; [|discriminate].
    intros [= <-]. cbn [map]. f_equal.
    + now apply openChunk_genuine.
    + now apply IH.
Qed.

Lemma decryptFileStream_bad_iv blob ivB64 key e w :
  Base64.atob ivB64 = Throw e ->
  Crypto.decryptFileStream blob ivB64 key w = (Throw e, w).
Proof.
  intros E. unfold Crypto.decryptFileStream, bind at 1, lift at 1.
  now rewrite E.
Qed.

End StreamSizes.

(** X6.  [encryptFileStream] under a valid room key never throws,
    whatever the size of the file.  The blob it returns has type
    [application/octet-stream] and 16 bytes more than the file for each
    chunk of 2 MiB begun; the plaintexts of its AES-GCM calls, end to
    end, are the file; and it draws 12 random bytes, once. *)
Theorem encryptFileStream_output_size :
  forall (P : Primitives) (PS : PrimitivesSpec P)
         (file : Blob.t) (key : Subtle.CryptoKey) (w : World),
    validRoomKey key = true ->
    exists enc w1,
      Crypto.encryptFileStream file key w = (Ok enc, w1)
      /\ Blob.size (Crypto.encryptedBlob enc)
         = (Blob.size file + 16 * Z.of_nat (chunkCount (Blob.size file)))%Z
      /\ Blob.type (Crypto.encryptedBlob enc) = JSString.js "application/octet-stream"
      /\ concat (map call_plaintext (callsSince w w1)) = Blob.contents file
      /\ cursor w1 = (cursor w + 12)%nat.
Proof.
  intros P PS file key w V.
  rewrite (encryptFileStream_closed_form file key w V).
  eexists _, _. split; [reflexivity|].
  cbn [Crypto.encryptedBlob]. unfold Blob.size. cbn [Blob.ofArray Blob.contents Blob.type].
  split; [|split; [reflexivity|split; [|reflexivity]]].
  - now rewrite size_sealed, concat_chunksOf, chunksOf_length.
  - rewrite callsSince_logged by reflexivity.
    rewrite map_map. cbn [call_plaintext]. rewrite map_id.
    apply concat_chunksOf.
Qed.

Lemma encryptFileStream_output_size_witness :
  exists enc w1,
    Crypto.encryptFileStream (P := checksumPrimitives)
      (Blob.mk [x68; x69] []) sampleKey world0 = (Ok enc, w1)
    /\ Blob.size (Crypto.encryptedBlob enc) = 18%Z.
Proof.
  destruct (encryptFileStream_output_size checksumPrimitives
              checksumPrimitives_spec (Blob.mk [x68; x69] []) sampleKey world0)
    as (enc & w1 & E & S & _).
  - apply sampleKey_valid.
  - exists enc, w1. split; [exact E|]. rewrite S. reflexivity.
Defined.

(** X7.  [decryptFileStream] throws [OperationError] for every blob
    whose size leaves a remainder of 1 to 15 bytes modulo 2 MiB: the last
    range it reads is shorter than a tag. *)
Theorem decryptFileStream_rejects_short_tail :
  forall (P : Primitives) (blob : Blob.t) (ivB64 decoded : JSString.t)
         (key : Subtle.CryptoKey) (w : World),
    validRoomKey key = true ->
    Base64.atob ivB64 = Ok decoded ->
    (1 <= Blob.size blob mod Crypto.chunkSize <= 15)%Z ->
    Crypto.decryptFileStream blob ivB64 key w = (Throw OperationError, w).
Proof.
  intros P blob ivB64 decoded key w V D Hm.
  rewrite (decryptFileStream_closed_form _ _ _ _ _ V D).
  unfold chunksOf. rewrite openAll_short_tail.
  - reflexivity.
  - lia.
  - now rewrite Z.sub_0_r.
  - rewrite Z.sub_0_r. exact Hm.
  - apply size_nonneg.
Qed.

Lemma decryptFileStream_rejects_short_tail_witness :
  Crypto.decryptFileStream (P := checksumPrimitives)
    (Blob.mk [x68; x69] []) (JSString.js "AAAAAAAAAAAAAAAA") sampleKey world0
  = (Throw OperationError, world0).
Proof.
  apply (decryptFileStream_rejects_short_tail checksumPrimitives
           (Blob.mk [x68; x69] []) (JSString.js "AAAAAAAAAAAAAAAA")
           (repeat 0%N 12) sampleKey world0).
  - apply sampleKey_valid.
  - vm_compute. reflexivity.
  - vm_compute. split; discriminate.
Defined.

(** X8.  Between the sizes that round-trip and the sizes of two chunks
    lies a gap: a file of 2,097,137 to 2,097,151 bytes is encrypted
    without error, but [decryptFileStream] on the result always throws
    [OperationError], for every choice of the cipher cores.  The
    ciphertext with its tag is then 1 to 15 bytes longer than the 2 MiB
    range the decryptor reads first. *)
Theorem stream_round_trip_gap :
  forall (P : Primitives) (PS : PrimitivesSpec P)
         (file : Blob.t) (key : Subtle.CryptoKey) (w : World),
    validRoomKey key = true ->
    (2097136 < Blob.size file < 2097152)%Z ->
    exists enc w1,
      Crypto.encryptFileStream file key w = (Ok enc, w1)
      /\ Crypto.decryptFileStream (Crypto.encryptedBlob enc)
           (Crypto.fileIv enc) key w1 = (Throw OperationError, w1).
Proof.
  intros P PS file key w V Hsz.
  rewrite (encryptFileStream_closed_form file key w V).
  eexists _, _. split; [reflexivity|].
  cbn [Crypto.encryptedBlob Crypto.fileIv].
  rewrite (decryptFileStream_closed_form _ _ _ key _ V (atob_btoa_bytes _)).
  cbn [Blob.ofArray Blob.contents].
  set (ct := concat _).
  assert (Hct : Bytes.size ct = (Blob.size file + 16)%Z).
  { unfold ct. rewrite size_sealed, concat_chunksOf, chunksOf_length.
    unfold Blob.size in *.
    rewrite chunkCount_one by (unfold Crypto.chunkSize; lia). lia. }
  unfold chunksOf. rewrite openAll_short_tail.
  - reflexivity.
  - lia.
  - now rewrite Z.sub_0_r.
  - rewrite Z.sub_0_r, Hct. unfold Crypto.chunkSize. dlia.
  - apply size_nonneg.
Qed.

Lemma stream_round_trip_gap_witness :
  exists enc w1,
    Crypto.encryptFileStream (P := checksumPrimitives)
      (Blob.mk (repeat x00 (Z.to_nat 2097137)) []) sampleKey world0 = (Ok enc, w1)
    /\ Crypto.decryptFileStream (P := checksumPrimitives)
         (Crypto.encryptedBlob enc) (Crypto.fileIv enc) sampleKey w1
       = (Throw OperationError, w1).
Proof.
  apply (stream_round_trip_gap checksumPrimitives checksumPrimitives_spec
           (Blob.mk (repeat x00 (Z.to_nat 2097137)) []) sampleKey world0).
  - apply sampleKey_valid.
  - unfold Blob.size, Bytes.size. cbn [Blob.contents].
    rewrite repeat_length. lia.
Defined.

(** X9.  What [decryptFileStream] returns is authenticated.  When it
    returns a blob under a valid room key, the IV is base64, the input is
    a sequence of AES-GCM encryptions under that key and the decoded IV,
    the output is their plaintexts end to end, 16 bytes shorter than the
    input for each range of 2 MiB begun, and the world is unchanged. *)
Theorem decryptFileStream_accepts_only_genuine :
  forall (P : Primitives) (PS : PrimitivesSpec P)
         (blob out : Blob.t) (ivB64 : JSString.t)
         (key : Subtle.CryptoKey) (w w' : World),
    validRoomKey key = true ->
    Crypto.decryptFileStream blob ivB64 key w = (Ok out, w') ->
    exists d ps,
      Base64.atob ivB64 = Ok d
      /\ Blob.contents blob
         = concat (map (Subtle.gcmEncrypt (Subtle.keyData key)
                          (JSString.toUint8Array d) [] 16) ps)
      /\ Blob.contents out = concat ps
      /\ Blob.size out
         = (Blob.size blob - 16 * Z.of_nat (chunkCount (Blob.size blob)))%Z
      /\ w' = w.
Proof.
  intros P PS blob out ivB64 key w w' V.
  destruct (Base64.atob ivB64) as [d|e] eqn:D.
  - rewrite (decryptFileStream_closed_form _ _ _ _ _ V D).
    destruct (openAll _ _ _) as [ps|] eqn:O; [|discriminate].
    intros [= <- <-]. exists d, ps.
    split; [reflexivity|].
    split; [|split; [reflexivity|split; [|reflexivity]]].
    + rewrite <- (openAll_genuine _ _ _ _ O). symmetry. apply concat_chunksOf.
    + unfold Blob.size. cbn [Blob.ofArray Blob.contents].
      now rewrite (size_opened _ _ _ _ O), concat_chunksOf, chunksOf_length.
  - rewrite (decryptFileStream_bad_iv blob ivB64 key e w D). discriminate.
Qed.

Lemma decryptFileStream_accepts_only_genuine_witness :
  exists enc w1 out,
    Crypto.encryptFileStream (P := checksumPrimitives)
      (Blob.mk [x68; x69] []) sampleKey world0 = (Ok enc, w1)
    /\ Crypto.decryptFileStream (P := checksumPrimitives)
         (Crypto.encryptedBlob enc) (Crypto.fileIv enc) sampleKey w1
       = (Ok out, w1)
    /\ Blob.size out = 2%Z.
Proof.
  pose proof (encryptFileStream_closed_form (P := checksumPrimitives)
                (Blob.mk [x68; x69] []) sampleKey world0 sampleKey_valid) as E.
  set (enc := Crypto.mkEncryptedFile _ _) in E.
  set (w1 := logged _ _) in E.
  assert (D : Crypto.decryptFileStream (P := checksumPrimitives)
                (Crypto.encryptedBlob enc) (Crypto.fileIv enc) sampleKey w1
              = (Ok (Blob.ofArray [x68; x69] None), w1)).
  { unfold enc. cbn [Crypto.encryptedBlob Crypto.fileIv].
    rewrite (decryptFileStream_closed_form _ _ _ sampleKey w1 sampleKey_valid
               (atob_btoa_bytes _)).
    vm_compute. reflexivity. }
  destruct (decryptFileStream_accepts_only_genuine checksumPrimitives
              checksumPrimitives_spec _ _ _ _ _ _ sampleKey_valid D)
    as (d & ps & _ & _ & _ & S & _).
  exists enc, w1, (Blob.ofArray [x68; x69] None).
  split; [exact E|]. split; [exact D|].
  rewrite S. vm_compute. reflexivity.
Defined.

(** X10.  [computeVerifierHash] returns a hash exactly for an
    extractable AES-GCM key: 44 base64 characters that decode to the
    SHA-256 digest of the raw key.  For a key that is not extractable it
    throws [InvalidAccessError], and for an extractable PBKDF2 key
    [NotSupportedError]. *)
Theorem computeVerifierHash_needs_extractable_key :
  forall (P : Primitives) (PS : PrimitivesSpec P)
         (key : Subtle.CryptoKey) (w : World),
    match Subtle.extractable key, Subtle.algorithm key with
    | true, Subtle.AES_GCM_key _ =>
        exists h,
          Crypto.computeVerifierHash key w = (Ok h, w)
          /\ length h = 44%nat
          /\ Base64.atob h
             = Ok (JSString.fromCharCode (sha256 (Subtle.keyData key)))
    | true, Subtle.PBKDF2_key =>
        Crypto.computeVerifierHash key w = (Throw NotSupportedError, w)
    | false, _ =>
        Crypto.computeVerifierHash key w = (Throw InvalidAccessError, w)
    end.
Proof.
  intros P PS key w.
  unfold Crypto.computeVerifierHash, bind, Subtle.exportKey.
  destruct (Subtle.extractable key); cbn [negb]; [|reflexivity].
  destruct (Subtle.algorithm key) as [|n]; [reflexivity|].
  unfold ret, Subtle.digest, ret, lift. rewrite btoa_fromCharCode.
  eexists. split; [reflexivity|]. split.
  - rewrite encode_length. unfold JSString.fromCharCode.
    now rewrite length_map, sha256_length.
  - apply atob_btoa_bytes.
Qed.

Lemma computeVerifierHash_needs_extractable_key_witness :
  Crypto.computeVerifierHash (P := checksumPrimitives) sampleKey world0
  = (Throw InvalidAccessError, world0).
Proof.
  exact (computeVerifierHash_needs_extractable_key checksumPrimitives
           checksumPrimitives_spec sampleKey world0).
Defined.

(* ================================================================== *)
(** * Properties of RoomJoin.tsx *)
(* ================================================================== *)

(** ** Room identifiers *)

Lemma hexDigit_injective (a b : N) :
  (a < 16)%N -> (b < 16)%N -> JSText.hexDigit a = JSText.hexDigit b -> a = b.
Proof.
  unfold JSText.hexDigit. intros Ha Hb.
  destruct (N.ltb_spec a 10); destruct (N.ltb_spec b 10); lia.
Qed.

Lemma hexDigit_lower (a : N) :
  (a < 16)%N -> isLowerHex (JSText.hexDigit a) = true.
Proof.
  unfold JSText.hexDigit, isLowerHex. intros Ha.
  destruct (N.ltb_spec a 10).
  - replace (48 <=? 48 + a)%N with true by (symmetry; apply N.leb_le; lia).
    replace (48 + a <=? 57)%N with true by (symmetry; apply N.leb_le; lia).
    reflexivity.
  - replace (97 <=? 87 + a)%N with true by (symmetry; apply N.leb_le; lia).
    replace (87 + a <=? 102)%N with true by (symmetry; apply N.leb_le; lia).
    now rewrite orb_true_r.
Qed.

(** Each byte is written with two digits: [padStart] supplies the
    leading zero that [toString] leaves out. *)
Lemma padStart_toString16 (b : byte) :
  JSText.padStart (JSText.toString16 b) 2 (JSString.js "0")
  = [JSText.hexDigit (Byte.to_N b / 16); JSText.hexDigit (Byte.to_N b mod 16)]%N.
Proof.
  unfold JSText.toString16. pose proof (to_N_lt_256 b) as Hb.
  destruct (N.ltb_spec (Byte.to_N b) 16) as [Hs|Hs].
  - rewrite N.div_small, N.mod_small by assumption. reflexivity.
  - reflexivity.
Qed.

Lemma hex_join (h : bytes) :
  concat (map (fun b => JSText.padStart (JSText.toString16 b) 2 (JSString.js "0")) h)
  = hexOf h.
Proof.
  unfold hexOf. rewrite flat_map_concat_map. f_equal.
  apply map_ext. intros b. apply padStart_toString16.
Qed.

Lemma hexOf_length (h : bytes) : length (hexOf h) = (2 * length h)%nat.
Proof.
  unfold hexOf. induction h as [|x h IH]; [reflexivity|].
  cbn [flat_map length app]. rewrite IH. lia.
Qed.

Lemma hexOf_app (a b : bytes) : hexOf (a ++ b) = hexOf a ++ hexOf b.
Proof. unfold hexOf. apply flat_map_app. Qed.

Lemma hexOf_lower (h : bytes) : forallb isLowerHex (hexOf h) = true.
Proof.
  unfold hexOf. induction h as [|x h IH]; [reflexivity|].
  pose proof (to_N_lt_256 x) as Hx.
  cbn [flat_map app forallb].
  rewrite !hexDigit_lower, IH; [reflexivity| |].
  - apply N.mod_lt. lia.
  - apply N.Div0.div_lt_upper_bound. lia.
Qed.

Lemma hexOf_injective (a : bytes) :
  forall b, hexOf a = hexOf b -> a = b.
Proof.
  unfold hexOf. induction a as [|x a IH]; intros [|y b] E;
    try reflexivity; try discriminate.
  cbn [flat_map app] in E. injection E as E1 E2 E3.
  pose proof (to_N_lt_256 x) as Hx. pose proof (to_N_lt_256 y) as Hy.
  apply hexDigit_injective in E1;
    [| apply N.Div0.div_lt_upper_bound; lia | apply N.Div0.div_lt_upper_bound; lia].
  apply hexDigit_injective in E2; [| apply N.mod_lt; lia | apply N.mod_lt; lia].
  f_equal.
  - rewrite <- (u8_to_N x), <- (u8_to_N y). f_equal.
    rewrite (N.div_mod (Byte.to_N x) 16), (N.div_mod (Byte.to_N y) 16) by lia.
    now rewrite E1, E2.
  - now apply IH.
Qed.

Lemma substring_prefix (s : JSString.t) (n : nat) :
  JSText.substring s 0 n = firstn n s.
Proof.
  unfold JSText.substring. cbn [Nat.min Nat.max Nat.sub skipn].
  rewrite Nat.sub_0_r.
  destruct (Nat.le_ge_cases n (length s)) as [L|L].
  - now rewrite Nat.min_l by assumption.
  - rewrite Nat.min_r by assumption. now rewrite !firstn_all2 by lia.
Qed.

Lemma firstn_exact {A : Type} (a b : list A) (n : nat) :
  length a = n -> firstn n (a ++ b) = a.
Proof.
  intros <-. induction a as [|x a IH]; cbn [length firstn app].
  - now destruct b.
  - now rewrite IH.
Qed.

Section RoomIdFacts.

Context {P : Primitives} {PS : PrimitivesSpec P}.

Lemma generateRoomId_closed_form (code : JSString.t) (w : World) :
  RoomJoin.generateRoomId code w = (Ok (roomIdOf code), w).
Proof.
  unfold RoomJoin.generateRoomId, bind, Subtle.digest, ret, roomIdOf.
  rewrite hex_join, substring_prefix.
  set (h := sha256 (TextCodec.encode code)).
  rewrite <- (firstn_skipn 16 h) at 1. rewrite hexOf_app.
  assert (L : length (hexOf (firstn 16 h)) = 32%nat).
  { rewrite hexOf_length, length_firstn. unfold h. rewrite sha256_length. lia. }
  now rewrite (firstn_exact _ _ _ L).
Qed.

End RoomIdFacts.

(** X11.  [generateRoomId] never throws and leaves the world as it was.
    The room identifier is 32 lower-case hexadecimal digits: the first 16
    bytes of the SHA-256 digest of the UTF-8 room code, two digits for
    each byte, with the leading zero that [toString(16)] leaves out.  Two
    room codes have the same identifier exactly when their digests agree
    on the first 16 bytes; no salt enters. *)
Theorem generateRoomId_is_truncated_hash :
  forall (P : Primitives) (PS : PrimitivesSpec P) (code : JSString.t) (w : World),
    RoomJoin.generateRoomId code w
    = (Ok (hexOf (firstn 16 (sha256 (TextCodec.encode code)))), w)
    /\ length (roomIdOf code) = 32%nat
    /\ forallb isLowerHex (roomIdOf code) = true
    /\ forall code',
         roomIdOf code' = roomIdOf code
         <-> firstn 16 (sha256 (TextCodec.encode code'))
             = firstn 16 (sha256 (TextCodec.encode code)).
Proof.
  intros P PS code w.
  split; [apply generateRoomId_closed_form|].
  split; [|split].
  - unfold roomIdOf. rewrite hexOf_length, length_firstn, sha256_length. lia.
  - apply hexOf_lower.
  - intros code'. unfold roomIdOf. split.
    + apply hexOf_injective.
    + now intros ->.
Qed.

Lemma generateRoomId_is_truncated_hash_witness :
  RoomJoin.generateRoomId (P := checksumPrimitives) (JSString.js "room") world0
  = (Ok (hexOf (firstn 16 (sha256 (Primitives := checksumPrimitives)
                             (TextCodec.encode (JSString.js "room"))))), world0).
Proof.
  apply (generateRoomId_is_truncated_hash checksumPrimitives
           checksumPrimitives_spec (JSString.js "room") world0).
Defined.

(** ** Creating and joining a room *)

Lemma generateSalt_closed_form (w : World) :
  Crypto.generateSalt w
  = (Ok (Base64.encode (JSString.fromCharCode (drawn w 16))), advanced w 16).
Proof.
  unfold Crypto.generateSalt, bind. rewrite getRandomValues_salt.
  unfold lift. now rewrite btoa_fromCharCode.
Qed.

Section JoinFacts.

Context {P : Primitives}.

(** The verifier of [crypto.ts] answers [false], whatever it is asked. *)
Lemma verifyRoomCode_false (code salt expected : JSString.t) (w : World) :
  Crypto.verifyRoomCode code salt expected w = (Ok false, w).
Proof.
  destruct (deriveKey_not_extractable code (Crypto.SaltString salt) w)
    as [Hw Hx].
  unfold Crypto.verifyRoomCode, tryCatch, bind, ret.
  destruct (Crypto.deriveKey code (Crypto.SaltString salt) w)
    as [[key|e] w']; cbn [fst snd] in *; subst w'; [|reflexivity].
  now rewrite (computeVerifierHash_not_extractable key w (Hx key eq_refl)).
Qed.

Context {PS : PrimitivesSpec P}.

Lemma deriveKey_base64_salt (code salt decoded : JSString.t) (w : World) :
  Base64.atob salt = Ok decoded ->
  Crypto.deriveKey code (Crypto.SaltString salt) w
  = (Ok (derivedKey code (JSString.toUint8Array decoded)), w).
Proof.
  intros D. rewrite deriveKey_closed_form. cbn [saltBytesOf]. now rewrite D.
Qed.

End JoinFacts.

(** X12.  [handleCreateRoom] never creates a room.  For a room code that
    is blank after [trim] it sets the error line [Please enter a room
    code] and does nothing else.  For every other room code it draws the
    16 bytes of a salt and derives the key, and then
    [computeVerifierHash] throws [InvalidAccessError] on the key, which
    is not extractable: the handler logs the error, sets the error line
    [Failed to create room. Please try again.] and clears [isCreating];
    [createRoom], [generatePeerId] and [onJoin] are never called,
    whatever they would do. *)
Theorem handleCreateRoom_never_creates_a_room :
  forall (P : Primitives) (PS : PrimitivesSpec P) (Env : Type)
         (createRoom : JSString.t -> JSString.t -> option JSString.t ->
                       Env -> Outcome unit * Env)
         (generatePeerId : Env -> Outcome JSString.t * Env)
         (onJoin : RoomJoin.RoomState -> Env -> Outcome unit * Env)
         (p : Page RoomJoin.State Env),
    RoomJoin.handleCreateRoom createRoom generatePeerId onJoin p
    = (Done tt,
       if JSText.truthy (JSText.trim (RoomJoin.roomCode (ui p))) then
         mkPage (joinState (ui p) false (RoomJoin.isJoining (ui p))
                   (Some "Failed to create room. Please try again."%string))
                (services p) (advanced (world p) 16)
                (notices p ++ [ConsoleError (JSString.js "Error creating room:")
                                 (DomException InvalidAccessError)])
       else
         mkPage (joinState (ui p) (RoomJoin.isCreating (ui p))
                   (RoomJoin.isJoining (ui p))
                   (Some "Please enter a room code"%string))
                (services p) (world p) (notices p)).
Proof.
  intros P PS Env createRoom generatePeerId onJoin [s env w ns].
  unfold RoomJoin.handleCreateRoom, hbind at 1, getState. cbn [ui].
  destruct (JSText.truthy (JSText.trim (RoomJoin.roomCode s))); cbn [negb].
  - unfold hbind, RoomJoin.setIsCreating, RoomJoin.setError, setState,
      hfinally, hcatch, await, notify.
    cbn [ui services world notices].
    rewrite generateSalt_closed_form.
    rewrite (deriveKey_base64_salt _ _ _ _ (atob_btoa_bytes _)).
    rewrite computeVerifierHash_not_extractable by reflexivity.
    reflexivity.
  - reflexivity.
Qed.

Lemma handleCreateRoom_never_creates_a_room_witness :
  exists ui',
    RoomJoin.handleCreateRoom (P := checksumPrimitives)
      sampleCreateRoom samplePeerId sampleOnJoin
      (mkPage (RoomJoin.mkState (JSString.js "room") false false None) [] world0 [])
    = (Done tt, mkPage ui' [] (advanced world0 16)
                  [ConsoleError (JSString.js "Error creating room:")
                     (DomException InvalidAccessError)])
    /\ RoomJoin.error ui'
       = Some (JSString.js "Failed to create room. Please try again.").
Proof.
  eexists. split.
  - apply (handleCreateRoom_never_creates_a_room checksumPrimitives
             checksumPrimitives_spec _ sampleCreateRoom samplePeerId sampleOnJoin
             (mkPage (RoomJoin.mkState (JSString.js "room") false false None)
                [] world0 [])).
  - reflexivity.
Defined.


(** X14.  [handleJoinRoom] joins a room stored without a verifier hash.
    When [getRoomMetadata] finds the room, its [verifierHash] is
    [undefined] or empty, and its salt is base64, the handler calls
    [onJoin] with the room identifier of the room code, the room code,
    the key derived from the room code and the decoded salt, the stored
    salt and the peer identifier; it ends without an error line and with
    [isJoining] cleared. *)
Theorem handleJoinRoom_joins_a_room_without_verifier :
  forall (P : Primitives) (PS : PrimitivesSpec P) (Env : Type)
         (getRoomMetadata : JSString.t -> Env ->
                            Outcome (option Firebase.RoomMetadata) * Env)
         (generatePeerId : Env -> Outcome JSString.t * Env)
         (onJoin : RoomJoin.RoomState -> Env -> Outcome unit * Env)
         (p : Page RoomJoin.State Env)
         (metadata : Firebase.RoomMetadata) (decoded peerId : JSString.t)
         (env1 env2 env3 : Env),
    let code := RoomJoin.roomCode (ui p) in
    let joined :=
      RoomJoin.mkRoomState (roomIdOf code) code
        (derivedKey code (JSString.toUint8Array decoded))
        (Firebase.salt metadata) peerId in
    JSText.truthy (JSText.trim code) = true ->
    getRoomMetadata (roomIdOf code) (services p) = (Done (Some metadata), env1) ->
    JSText.truthyOpt (Firebase.verifierHash metadata) = false ->
    Base64.atob (Firebase.salt metadata) = Ok decoded ->
    generatePeerId env1 = (Done peerId, env2) ->
    onJoin joined env2 = (Done tt, env3) ->
    RoomJoin.handleJoinRoom getRoomMetadata generatePeerId onJoin p
    = (Done tt,
       mkPage (joinState (ui p) (RoomJoin.isCreating (ui p)) false None)
              env3 (world p) (notices p)).
Proof.
  intros P PS Env getRoomMetadata generatePeerId onJoin [s env w ns]
         metadata decoded peerId env1 env2 env3 code joined T G V D I J.
  subst code joined. cbn [ui services] in *.
  unfold RoomJoin.handleJoinRoom, hbind at 1, getState. cbn [ui].
  rewrite T. cbn [negb].
  unfold hbind, RoomJoin.setIsJoining, RoomJoin.setError, setState,
    hfinally, hcatch, await, service, notify.
  cbn [ui services world notices].
  rewrite generateRoomId_closed_form. cbn [ui services world notices].
  rewrite G. cbn [ui services world notices].
  destruct (Firebase.verifierHash metadata) as [expected|].
  - cbn [JSText.truthyOpt] in V. rewrite V.
    cbn [world services ui notices]. rewrite (deriveKey_base64_salt _ _ _ _ D).
    cbn [world services ui notices]. rewrite I.
    cbn [world services ui notices]. rewrite J. reflexivity.
  - cbn [world services ui notices]. rewrite (deriveKey_base64_salt _ _ _ _ D).
    cbn [world services ui notices]. rewrite I.
    cbn [world services ui notices]. rewrite J. reflexivity.
Qed.


Lemma handleJoinRoom_joins_a_room_without_verifier_witness :
  RoomJoin.handleJoinRoom (P := checksumPrimitives)
    sampleGetRoomMetadata samplePeerId sampleOnJoin (joinPage plainRoom)
  = (Done tt,
     mkPage (RoomJoin.mkState (JSString.js "room") false false None)
            (services (joinPage plainRoom)) world0 []).
Proof.
  apply (handleJoinRoom_joins_a_room_without_verifier
           checksumPrimitives checksumPrimitives_spec _
           sampleGetRoomMetadata samplePeerId sampleOnJoin
           (joinPage plainRoom) plainRoom (repeat 0%N 16)
           (JSString.js "peer_0_abcdefghi")
           (services (joinPage plainRoom)) (services (joinPage plainRoom))
           (services (joinPage plainRoom))).
  - reflexivity.
  - vm_compute. reflexivity.
  - reflexivity.
  - vm_compute. reflexivity.
  - reflexivity.
  - reflexivity.
Defined.

(** X15.  [handleJoinRoom] always settles.  For a room code that is not
    blank, whatever the services answer, the handler does not reject, it
    draws no randomness, it leaves [isJoining] cleared, and its error
    line is empty or one of its three messages; every failure of a
    service or of the platform ends in [Failed to join room...] with one
    line on the console. *)
Theorem handleJoinRoom_always_settles :
  forall (P : Primitives) (PS : PrimitivesSpec P) (Env : Type)
         (getRoomMetadata : JSString.t -> Env ->
                            Outcome (option Firebase.RoomMetadata) * Env)
         (generatePeerId : Env -> Outcome JSString.t * Env)
         (onJoin : RoomJoin.RoomState -> Env -> Outcome unit * Env)
         (p : Page RoomJoin.State Env),
    JSText.truthy (JSText.trim (RoomJoin.roomCode (ui p))) = true ->
    exists (e : option string) env' ns,
      RoomJoin.handleJoinRoom getRoomMetadata generatePeerId onJoin p
      = (Done tt,
         mkPage (joinState (ui p) (RoomJoin.isCreating (ui p)) false e)
                env' (world p) (notices p ++ ns))
      /\ (e = None
          \/ e = Some "Room not found. Please check your room code."%string
          \/ e = Some "Invalid room code. Please check and try again."%string
          \/ (e = Some "Failed to join room. Please check your room code and try again."%string
              /\ exists f, ns = [ConsoleError (JSString.js "Error joining room:") f])).
Proof.
  intros P PS Env getRoomMetadata generatePeerId onJoin [s env w ns] T.
  cbn [ui services world notices] in *.
  unfold RoomJoin.handleJoinRoom, hbind at 1, getState. cbn [ui].
  rewrite T. cbn [negb].
  unfold hbind, RoomJoin.setIsJoining, RoomJoin.setError, setState,
    hfinally, hcatch, await, service, notify.
  cbn [ui services world notices].
  rewrite generateRoomId_closed_form.
  repeat (cbn [ui services world notices negb saltBytesOf];
          first
            [ rewrite verifyRoomCode_false
            | rewrite deriveKey_closed_form
            | match goal with
              | |- context [getRoomMetadata ?a ?b] =>
                  destruct (getRoomMetadata a b) as [[[?|]|?] ?]
              | |- context [generatePeerId ?a] =>
                  destruct (generatePeerId a) as [[?|?] ?]
              | |- context [onJoin ?a ?b] =>
                  destruct (onJoin a b) as [[[]|?] ?]
              | |- context [Base64.atob ?a] => destruct (Base64.atob a)
              | |- context [Firebase.verifierHash ?a] =>
                  destruct (Firebase.verifierHash a)
              | |- context [JSText.truthy ?a] => destruct (JSText.truthy a)
              end ]).
  all: first
         [ exists None; eexists _, []; rewrite app_nil_r;
           split; [reflexivity | now left]
         | eexists (Some _), _, []; rewrite app_nil_r;
           split; [reflexivity | first [now (right; left) | now (right; right; left)]]
         | eexists (Some _), _, [_];
           split; [reflexivity | repeat right; split; [reflexivity | now eexists]] ].
Qed.

Lemma handleJoinRoom_always_settles_witness :
  exists (e : option string) env' ns,
    RoomJoin.handleJoinRoom (P := checksumPrimitives)
      sampleGetRoomMetadata samplePeerId sampleOnJoin (joinPage verifiedRoom)
    = (Done tt,
       mkPage (joinState (ui (joinPage verifiedRoom)) false false e)
              env' world0 ([] ++ ns)).
Proof.
  destruct (handleJoinRoom_always_settles checksumPrimitives
              checksumPrimitives_spec _ sampleGetRoomMetadata samplePeerId
              sampleOnJoin (joinPage verifiedRoom))
    as (e & env' & ns & E & _).
  - reflexivity.
  - exists e, env', ns. exact E.
Defined.

(* ================================================================== *)
(** * Properties of ChatRoom.tsx *)
(* ================================================================== *)

Lemma truthy_encode (l : list N) :
  l <> [] -> JSText.truthy (Base64.encode l) = true.
Proof.
  destruct l as [|a [|b [|c l]]]; intros H; [contradiction | reflexivity ..].
Qed.

Lemma truthy_base64 (b : bytes) : b <> [] -> JSText.truthy (base64 b) = true.
Proof.
  intros H. apply truthy_encode. destruct b; [contradiction | discriminate].
Qed.

Section ChatFacts.

Context {P : Primitives}.

Lemma decryptString_opened ct ivB64 key w :
  validRoomKey key = true ->
  Crypto.decryptString ct ivB64 key w = (opened key ct ivB64, w).
Proof.
  intros V. rewrite (decryptString_closed_form _ _ _ _ V). unfold opened.
  destruct (Base64.atob ct); [|reflexivity].
  destruct (Base64.atob ivB64); [|reflexivity].
  now destruct (openChunk _ _ _).
Qed.

Lemma encryptString_sealed plaintext key w :
  validRoomKey key = true ->
  (Bytes.size (TextCodec.encode plaintext) <= Subtle.maxPlaintext)%Z ->
  Crypto.encryptString plaintext key w
  = (Ok (Crypto.mkEncryptedString (sealedText key (drawn w 12) plaintext)
           (base64 (drawn w 12))),
     logged (advanced w 12)
       [mkGcmCall (Subtle.keyData key) (drawn w 12) [] (TextCodec.encode plaintext)]).
Proof. apply encryptString_closed_form. Qed.

Context {PS : PrimitivesSpec P}.

Lemma truthy_sealedText key nonce s :
  JSText.truthy (sealedText key nonce s) = true.
Proof.
  unfold sealedText. apply truthy_encode. intros E.
  apply (f_equal (@length N)) in E. unfold JSString.fromCharCode in E.
  rewrite length_map, gcmEncrypt_length in E. cbn in E. lia.
Qed.

Lemma truthy_base64_nonce (w : World) :
  JSText.truthy (base64 (drawn w 12)) = true.
Proof. reflexivity. Qed.

Lemma opened_sealedText key nonce s :
  JSString.wellFormed s = true ->
  opened key (sealedText key nonce s) (base64 nonce) = Ok (withoutBOM s).
Proof.
  intros Hwf. unfold opened, sealedText, base64.
  rewrite !atob_btoa_bytes, !toUint8Array_fromCharCode.
  rewrite openChunk_gcmEncrypt. now rewrite decode_encode.
Qed.

End ChatFacts.



(** X17.  [decryptMessage] rejects only for the text.  When the
    message has a text and [decryptString] fails on it, the handler logs
    the error and rejects with it.  Otherwise it returns a message, with
    the identifier it was given, the text, the content type and the date
    of the timestamp: a file name or a MIME type that fails to decrypt
    costs a warning on the console, nothing more, and the page is
    otherwise unchanged. *)
Theorem decryptMessage_rejects_only_for_the_text :
  forall (P : Primitives) (Env Doc : Type) (roomState : RoomJoin.RoomState)
         (msgId : JSString.t) (encryptedMsg : Messages.EncryptedMessage)
         (q : Page (ChatRoom.State Doc) Env),
    validRoomKey (RoomJoin.key roomState) = true ->
    let m := Messages.body encryptedMsg in
    match (if JSText.truthy (Messages.ciphertext m)
           then opened (RoomJoin.key roomState) (Messages.ciphertext m)
                  (Messages.iv m)
           else Ok []) with
    | Throw e =>
        ChatRoom.decryptMessage roomState msgId encryptedMsg q
        = (Failed (DomException e),
           mkPage (ui q) (services q) (world q)
             (notices q ++ [ConsoleError (JSString.js "Decryption error:")
                              (DomException e)]))
    | Ok text =>
        exists message warnings,
          ChatRoom.decryptMessage roomState msgId encryptedMsg q
          = (Done message,
             mkPage (ui q) (services q) (world q) (notices q ++ warnings))
          /\ forallb isWarning warnings = true
          /\ ChatRoom.id message = msgId
          /\ ChatRoom.content message = text
          /\ ChatRoom.contentType message = Messages.contentType m
          /\ ChatRoom.timestamp message
             = Messages.toDate (Messages.timestamp encryptedMsg)
    end.
Proof.
  intros P Env Doc roomState msgId
         [[ct iv fp cty meta] t] [s env w ns] V m.
  subst m. unfold ChatRoom.decryptMessage.
  cbn [Messages.body Messages.ciphertext Messages.iv Messages.mediaMeta
       Messages.contentType Messages.timestamp].
  unfold hcatch, hbind, await, hret, notify.
  destruct meta as [[sp [fn|] [fniv|] fs [mt|] [mtiv|] miv]|];
    cbn [Messages.storagePath Messages.fileName Messages.fileNameIv
         Messages.mimeType Messages.mimeTypeIv Messages.mediaIv
         Messages.fileSize].
  all: repeat (cbn [ui services world notices negb andb];
               first
                 [ match goal with
                   | |- context [JSText.truthy ?a] => destruct (JSText.truthy a)
                   end
                 | rewrite (decryptString_opened _ _ _ _ V)
                 | match goal with
                   | |- context [opened ?k ?a ?b] => destruct (opened k a b)
                   end ]).
  all: cbn [ui services world notices negb andb].
  all: try reflexivity.
  all: try (eexists _, []; rewrite app_nil_r; repeat split; reflexivity).
  all: try (eexists _, [_]; repeat split; reflexivity).
  all: try (eexists _, [_; _]; rewrite <- app_assoc; repeat split; reflexivity).
Qed.

Lemma decryptMessage_rejects_only_for_the_text_witness :
  exists message warnings,
    ChatRoom.decryptMessage (P := checksumPrimitives) (roomWith sampleKey)
      (JSString.js "doc1")
      (Messages.mkEncryptedMessage
         (Messages.mkOutgoing [] (JSString.js "AAAAAAAAAAAAAAAA") None Messages.file
            (Some (Messages.mkMediaMeta (JSString.js "https://storage/0")
                     (Some (JSString.js "AAAA")) (Some (JSString.js "AAAAAAAAAAAAAAAA"))
                     None None None None)))
         (Firebase.mkTimestamp 1 0))
      chatPage
    = (Done message, mkPage (ui chatPage) [] world0 ([] ++ warnings))
    /\ forallb isWarning warnings = true
    /\ ChatRoom.id message = JSString.js "doc1"
    /\ ChatRoom.content message = []
    /\ ChatRoom.contentType message = Messages.file
    /\ ChatRoom.timestamp message = 1000%Z.
Proof.
  exact (decryptMessage_rejects_only_for_the_text checksumPrimitives _ unit
           (roomWith sampleKey) (JSString.js "doc1")
           (Messages.mkEncryptedMessage
              (Messages.mkOutgoing [] (JSString.js "AAAAAAAAAAAAAAAA") None
                 Messages.file
                 (Some (Messages.mkMediaMeta (JSString.js "https://storage/0")
                          (Some (JSString.js "AAAA"))
                          (Some (JSString.js "AAAAAAAAAAAAAAAA"))
                          None None None None)))
              (Firebase.mkTimestamp 1 0))
           chatPage sampleKey_valid).
Defined.

(** ** Sharing a file *)

Section FileFacts.

Context {P : Primitives} {PS : PrimitivesSpec P}.

Lemma encryptFileStream_sealed file key w :
  validRoomKey key = true ->
  Crypto.encryptFileStream file key w
  = (Ok (Crypto.mkEncryptedFile (sealedBlob key (drawn w 12) (Blob.contents file))
           (base64 (drawn w 12))),
     logged (advanced w 12)
       (map (mkGcmCall (Subtle.keyData key) (drawn w 12) [])
            (chunksOf (Blob.contents file)))).
Proof. apply encryptFileStream_closed_form. Qed.

Lemma decryptFileStream_sealed_small (b : bytes) key nonce w :
  validRoomKey key = true ->
  (Bytes.size b <= 2097136)%Z ->
  Crypto.decryptFileStream (sealedBlob key nonce b) (base64 nonce) key w
  = (Ok (Blob.ofArray b None), w).
Proof.
  intros V Hsz. unfold sealedBlob, base64.
  rewrite (decryptFileStream_closed_form _ _ _ key _ V (atob_btoa_bytes _)).
  rewrite toUint8Array_fromCharCode. cbn [Blob.ofArray Blob.contents].
  destruct (Z_le_gt_dec (Bytes.size b) 0) as [Z0|Zpos].
  - rewrite (size_zero_nil b Z0). reflexivity.
  - rewrite (chunksOf_single b) by (unfold Crypto.chunkSize; lia).
    cbn [map concat]. rewrite app_nil_r.
    rewrite chunksOf_single.
    + cbn [openAll]. rewrite openChunk_gcmEncrypt.
      cbn [concat]. now rewrite app_nil_r.
    + unfold Bytes.size in *. rewrite gcmEncrypt_length.
      unfold Crypto.chunkSize. lia.
Qed.

Lemma decryptFileStream_sealed_gap (b : bytes) key nonce w :
  validRoomKey key = true ->
  (2097136 < Bytes.size b < 2097152)%Z ->
  Crypto.decryptFileStream (sealedBlob key nonce b) (base64 nonce) key w
  = (Throw OperationError, w).
Proof.
  intros V Hsz. unfold sealedBlob, base64.
  rewrite (decryptFileStream_closed_form _ _ _ key _ V (atob_btoa_bytes _)).
  cbn [Blob.ofArray Blob.contents].
  set (ct := concat _).
  assert (Hct : Bytes.size ct = (Bytes.size b + 16)%Z).
  { unfold ct. rewrite size_sealed, concat_chunksOf, chunksOf_length.
    rewrite chunkCount_one by (unfold Crypto.chunkSize; lia). lia. }
  unfold chunksOf. rewrite openAll_short_tail.
  - reflexivity.
  - lia.
  - now rewrite Z.sub_0_r.
  - rewrite Z.sub_0_r, Hct. unfold Crypto.chunkSize. dlia.
  - apply size_nonneg.
Qed.

End FileFacts.

(** X18.  The description of a shared file is received.  When the file
    identifier is made and the upload of the encrypted blob answers a
    non-empty address, [handleSendFile] makes one call of [sendMessage],
    with an empty text and the IV of the blob, after drawing three nonces
    of 12 bytes: one for the blob, one for the name, one for the type.
    [decryptMessage] under the same key turns that message into one with
    the address as [mediaUrl], the IV of the blob as [mediaIv], the file
    name, the size of the file, and the MIME type, or
    [application/octet-stream] for a file without one. *)
Theorem shared_file_metadata_is_received :
  forall (P : Primitives) (PS : PrimitivesSpec P) (Env Doc : Type)
         (roomState : RoomJoin.RoomState)
         (sendMessage : JSString.t -> Messages.Outgoing -> Env ->
                        Outcome JSString.t * Env)
         (uploadEncryptedFile : JSString.t -> JSString.t -> Blob.t -> Env ->
                                Outcome JSString.t * Env)
         (newFileId : Env -> Outcome JSString.t * Env)
         (file : ChatRoom.File) (p : Page (ChatRoom.State Doc) Env)
         (fileId url : JSString.t) (env1 env2 : Env),
    let key := RoomJoin.key roomState in
    validRoomKey key = true ->
    JSString.wellFormed (ChatRoom.name file) = true ->
    JSString.wellFormed (Blob.type (ChatRoom.blob file)) = true ->
    (Bytes.size (TextCodec.encode (ChatRoom.name file)) <= Subtle.maxPlaintext)%Z ->
    (Bytes.size (TextCodec.encode (Blob.type (ChatRoom.blob file)))
     <= Subtle.maxPlaintext)%Z ->
    newFileId (services p) = (Done fileId, env1) ->
    uploadEncryptedFile (RoomJoin.roomId roomState) fileId
      (sealedBlob key (drawn (world p) 12) (Blob.contents (ChatRoom.blob file)))
      env1 = (Done url, env2) ->
    JSText.truthy url = true ->
    exists (m : Messages.Outgoing) (w3 : World),
      ChatRoom.handleSendFile roomState sendMessage uploadEncryptedFile
        newFileId file p
      = (Done tt,
         match sendMessage (RoomJoin.roomId roomState) m env2 with
         | (Done _, env3) => mkPage (ui p) env3 w3 (notices p)
         | (Failed f, env3) =>
             mkPage (ui p) env3 w3
               (notices p
                ++ [ConsoleError (JSString.js "Error sending file:") f;
                    Alert (JSString.js "Failed to send file. Please try again.")])
         end)
      /\ cursor w3 = (cursor (world p) + 12 + 12 + 12)%nat
      /\ Messages.ciphertext m = []
      /\ Messages.iv m = base64 (drawn (world p) 12)
      /\ forall (Env' Doc' : Type) (msgId : JSString.t) (t : Firebase.Timestamp)
                (q : Page (ChatRoom.State Doc') Env'),
           ChatRoom.decryptMessage roomState msgId
             (Messages.mkEncryptedMessage m t) q
           = (Done (ChatRoom.mkDecryptedMessage msgId [] (Messages.toDate t)
                      (Messages.contentType m) (Some url)
                      (base64 (drawn (world p) 12))
                      (Some (withoutBOM (ChatRoom.name file)))
                      (Some (Blob.size (ChatRoom.blob file)))
                      (Some (withoutBOM (typeSent file)))), q).
Proof.
  intros P PS Env Doc roomState sendMessage uploadEncryptedFile newFileId
         file [s env w ns] fileId url env1 env2 key V Wn Wt Bn Bt I U T.
  cbn [ui services world notices] in *.
  assert (Wt' : JSString.wellFormed (typeSent file) = true).
  { unfold typeSent.
    destruct (JSText.truthy (Blob.type (ChatRoom.blob file)));
      [assumption | reflexivity]. }
  assert (Bt' : (Bytes.size (TextCodec.encode (typeSent file))
                 <= Subtle.maxPlaintext)%Z).
  { unfold typeSent.
    destruct (JSText.truthy (Blob.type (ChatRoom.blob file))); [assumption|].
    vm_compute. discriminate. }
  set (w1 := logged (advanced w 12)
               (map (mkGcmCall (Subtle.keyData key) (drawn w 12) [])
                    (chunksOf (Blob.contents (ChatRoom.blob file))))).
  set (w2 := logged (advanced w1 12)
               [mkGcmCall (Subtle.keyData key) (drawn w1 12) []
                  (TextCodec.encode (ChatRoom.name file))]).
  set (w3 := logged (advanced w2 12)
               [mkGcmCall (Subtle.keyData key) (drawn w2 12) []
                  (TextCodec.encode (typeSent file))]).
  unfold ChatRoom.handleSendFile. cbv zeta.
  match goal with
  | |- context [if JSText.startsWith ?t ?i then ?a else ?b] =>
      set (kind := if JSText.startsWith t i then a else b)
  end.
  exists (Messages.mkOutgoing [] (base64 (drawn w 12)) None kind
             (Some (Messages.mkMediaMeta url
                      (Some (sealedText key (drawn w1 12) (ChatRoom.name file)))
                      (Some (base64 (drawn w1 12)))
                      (Some (Blob.size (ChatRoom.blob file)))
                      (Some (sealedText key (drawn w2 12) (typeSent file)))
                      (Some (base64 (drawn w2 12)))
                      (Some (base64 (drawn w 12)))))), w3.
  split; [|split; [|split; [|split]]].
  - unfold hcatch, hbind, await, service, notify, hret.
    cbn [ui services world notices].
    fold key. rewrite (encryptFileStream_sealed _ _ _ V).
    cbn [ui services world notices Crypto.encryptedBlob Crypto.fileIv].
    rewrite I. cbn [ui services world notices]. rewrite U.
    cbn [ui services world notices].
    fold w1. rewrite (encryptString_sealed _ _ _ V Bn).
    cbn [ui services world notices]. fold w2.
    fold (typeSent file). rewrite (encryptString_sealed _ _ _ V Bt').
    cbn [ui services world notices Crypto.ciphertext Crypto.iv]. fold w3.
    destruct (sendMessage _ _ env2) as [[docId|f] env3]; [reflexivity|].
    cbn [ui services world notices]. now rewrite <- app_assoc.
  - reflexivity.
  - reflexivity.
  - reflexivity.
  - intros Env' Doc' msgId t [s' env' w' ns'].
    unfold ChatRoom.decryptMessage.
    cbn [Messages.body Messages.ciphertext Messages.iv Messages.mediaMeta
         Messages.contentType Messages.timestamp Messages.storagePath
         Messages.fileName Messages.fileNameIv Messages.mimeType
         Messages.mimeTypeIv Messages.mediaIv Messages.fileSize JSText.truthy].
    rewrite T, !truthy_sealedText.
    change (JSText.truthy (base64 (drawn w1 12))) with true.
    change (JSText.truthy (base64 (drawn w2 12))) with true.
    cbn [andb].
    unfold hcatch, hbind, await, hret. cbn [ui services world notices].
    fold key.
    rewrite (decryptString_opened _ _ _ _ V), (opened_sealedText _ _ _ Wn).
    cbn [ui services world notices].
    rewrite (decryptString_opened _ _ _ _ V), (opened_sealedText _ _ _ Wt').
    reflexivity.
Qed.

Lemma shared_file_metadata_is_received_witness :
  exists (m : Messages.Outgoing) (w3 : World) (c : Cloud),
    ChatRoom.handleSendFile (P := checksumPrimitives) (roomWith sampleKey)
      cloudSend cloudUpload cloudFileId sampleFile (cloudPage (mkCloud [] [] []))
    = (Done tt, mkPage (ui (cloudPage (mkCloud [] [] []))) c w3 [])
    /\ ChatRoom.decryptMessage (P := checksumPrimitives) (roomWith sampleKey)
         (JSString.js "doc1")
         (Messages.mkEncryptedMessage m (Firebase.mkTimestamp 1 0)) chatPage
       = (Done (ChatRoom.mkDecryptedMessage (JSString.js "doc1") [] 1000
                  (Messages.contentType m) (Some (JSString.js "https://storage/0"))
                  (base64 (drawn world0 12))
                  (Some (JSString.js "a.txt")) (Some 2%Z)
                  (Some (JSString.js "text/plain"))), chatPage).
Proof.
  destruct (shared_file_metadata_is_received checksumPrimitives
              checksumPrimitives_spec _ unit (roomWith sampleKey)
              cloudSend cloudUpload cloudFileId sampleFile
              (cloudPage (mkCloud [] [] []))
              (JSString.js "0_abcdefghi") (JSString.js "https://storage/0")
              (mkCloud [] [] [])
              (mkCloud [sealedBlob (P := checksumPrimitives) sampleKey
                          (drawn world0 12) [x68; x69]] [] []))
    as (m & w3 & S & _ & _ & _ & R).
  - reflexivity.
  - reflexivity.
  - reflexivity.
  - vm_compute. discriminate.
  - vm_compute. discriminate.
  - reflexivity.
  - reflexivity.
  - reflexivity.
  - exists m, w3. eexists. split; [exact S|].
    exact (R _ unit (JSString.js "doc1") (Firebase.mkTimestamp 1 0) chatPage).
Defined.

(** X19.  A shared file of at most 2,097,136 bytes is downloaded as it
    was.  When the address of the message answers the blob
    [encryptFileStream] made of the payload under the IV of the message,
    [handleDownloadMedia] hands the payload itself to the download,
    under the file name of the message, or [download] when it has
    none. *)
Theorem shared_file_is_downloaded :
  forall (P : Primitives) (PS : PrimitivesSpec P) (Env Doc : Type)
         (roomState : RoomJoin.RoomState)
         (downloadEncryptedFile : JSString.t -> Env -> Outcome Blob.t * Env)
         (saveAs : Blob.t -> JSString.t -> Env -> Outcome unit * Env)
         (payload nonce : bytes) (message : ChatRoom.DecryptedMessage)
         (url : JSString.t) (q : Page (ChatRoom.State Doc) Env) (env1 : Env),
    let key := RoomJoin.key roomState in
    validRoomKey key = true ->
    (Bytes.size payload <= 2097136)%Z ->
    ChatRoom.mediaUrl message = Some url ->
    JSText.truthy url = true ->
    ChatRoom.mediaIv message = base64 nonce ->
    nonce <> [] ->
    downloadEncryptedFile url (services q)
    = (Done (sealedBlob key nonce payload), env1) ->
    ChatRoom.handleDownloadMedia roomState downloadEncryptedFile saveAs message q
    = (Done tt,
       match saveAs (Blob.ofArray payload None)
               (ChatRoom.orElse (ChatRoom.fileName message) (JSString.js "download"))
               env1 with
       | (Done _, env2) => mkPage (ui q) env2 (world q) (notices q)
       | (Failed f, env2) =>
           mkPage (ui q) env2 (world q)
             (notices q
              ++ [ConsoleError (JSString.js "Error downloading media:") f;
                  Alert (JSString.js "Failed to download media.")])
       end).
Proof.
  intros P PS Env Doc roomState downloadEncryptedFile saveAs payload nonce
         message url [s env w ns] env1 key V Hsz U T I N D.
  cbn [ui services world notices] in *.
  unfold ChatRoom.handleDownloadMedia. rewrite U, T, I.
  rewrite (truthy_base64 _ N).
  cbn [negb orb].
  unfold hcatch, hbind, await, service, notify, hret.
  cbn [ui services world notices]. rewrite D.
  cbn [ui services world notices]. fold key.
  rewrite (decryptFileStream_sealed_small _ _ _ _ V Hsz).
  cbn [ui services world notices].
  destruct (saveAs _ _ env1) as [[[]|f] env2]; [reflexivity|].
  cbn [ui services world notices]. now rewrite <- app_assoc.
Qed.

(** X20.  A shared file of 2,097,137 to 2,097,151 bytes is never
    downloaded.  [handleSendFile] encrypts and sends it as any other, but
    on the blob [encryptFileStream] made of it [handleDownloadMedia]
    always ends with the console line of [OperationError] and the alert
    [Failed to download media.]; nothing is saved. *)
Theorem shared_file_in_the_gap_is_never_downloaded :
  forall (P : Primitives) (PS : PrimitivesSpec P) (Env Doc : Type)
         (roomState : RoomJoin.RoomState)
         (downloadEncryptedFile : JSString.t -> Env -> Outcome Blob.t * Env)
         (saveAs : Blob.t -> JSString.t -> Env -> Outcome unit * Env)
         (payload nonce : bytes) (message : ChatRoom.DecryptedMessage)
         (url : JSString.t) (q : Page (ChatRoom.State Doc) Env) (env1 : Env),
    let key := RoomJoin.key roomState in
    validRoomKey key = true ->
    (2097136 < Bytes.size payload < 2097152)%Z ->
    ChatRoom.mediaUrl message = Some url ->
    JSText.truthy url = true ->
    ChatRoom.mediaIv message = base64 nonce ->
    nonce <> [] ->
    downloadEncryptedFile url (services q)
    = (Done (sealedBlob key nonce payload), env1) ->
    ChatRoom.handleDownloadMedia roomState downloadEncryptedFile saveAs message q
    = (Done tt,
       mkPage (ui q) env1 (world q)
         (notices q
          ++ [ConsoleError (JSString.js "Error downloading media:")
                (DomException OperationError);
              Alert (JSString.js "Failed to download media.")])).
Proof.
  intros P PS Env Doc roomState downloadEncryptedFile saveAs payload nonce
         message url [s env w ns] env1 key V Hsz U T I N D.
  cbn [ui services world notices] in *.
  unfold ChatRoom.handleDownloadMedia. rewrite U, T, I.
  rewrite (truthy_base64 _ N).
  cbn [negb orb].
  unfold hcatch, hbind, await, service, notify, hret.
  cbn [ui services world notices]. rewrite D.
  cbn [ui services world notices]. fold key.
  rewrite (decryptFileStream_sealed_gap _ _ _ _ V Hsz).
  cbn [ui services world notices]. now rewrite <- app_assoc.
Qed.

Lemma shared_file_is_downloaded_witness :
  let stored := sealedBlob (P := checksumPrimitives) sampleKey
                  (drawn world0 12) [x68; x69] in
  ChatRoom.handleDownloadMedia (P := checksumPrimitives) (roomWith sampleKey)
    cloudDownload cloudSaveAs sampleMedia (cloudPage (mkCloud [stored] [] []))
  = (Done tt,
     cloudPage (mkCloud [stored] []
                  [(Blob.ofArray [x68; x69] None, JSString.js "a.txt")])).
Proof.
  intros stored.
  apply (shared_file_is_downloaded checksumPrimitives checksumPrimitives_spec
           _ unit (roomWith sampleKey) cloudDownload cloudSaveAs
           [x68; x69] (drawn world0 12) sampleMedia
           (JSString.js "https://storage/0")
           (cloudPage (mkCloud [stored] [] [])) (mkCloud [stored] [] [])).
  - reflexivity.
  - vm_compute. discriminate.
  - reflexivity.
  - reflexivity.
  - reflexivity.
  - discriminate.
  - reflexivity.
Defined.

Lemma gapPayload_size : (2097136 < Bytes.size gapPayload < 2097152)%Z.
Proof. unfold Bytes.size, gapPayload. rewrite repeat_length. lia. Qed.

Lemma shared_file_in_the_gap_is_never_downloaded_witness :
  let stored := sealedBlob (P := checksumPrimitives) sampleKey
                  (drawn world0 12) gapPayload in
  ChatRoom.handleDownloadMedia (P := checksumPrimitives) (roomWith sampleKey)
    cloudDownload cloudSaveAs sampleMedia (cloudPage (mkCloud [stored] [] []))
  = (Done tt,
     mkPage (ui (cloudPage (mkCloud [stored] [] []))) (mkCloud [stored] [] [])
       world0
       [ConsoleError (JSString.js "Error downloading media:")
          (DomException OperationError);
        Alert (JSString.js "Failed to download media.")]).
Proof.
  intros stored.
  apply (shared_file_in_the_gap_is_never_downloaded checksumPrimitives
           checksumPrimitives_spec _ unit (roomWith sampleKey)
           cloudDownload cloudSaveAs gapPayload (drawn world0 12) sampleMedia
           (JSString.js "https://storage/0")
           (cloudPage (mkCloud [stored] [] [])) (mkCloud [stored] [] [])).
  - reflexivity.
  - exact gapPayload_size.
  - reflexivity.
  - reflexivity.
  - reflexivity.
  - discriminate.
  - reflexivity.
Defined.

(** ** Loading and receiving messages *)

Section LoadFacts.

Context {P : Primitives}.
Variables (Env Doc : Type) (roomState : RoomJoin.RoomState).
Hypothesis V : validRoomKey (RoomJoin.key roomState) = true.

(** [decryptMessage] reads nothing of the page but the key: a readable
    message gives the same decrypted message on every page, up to the
    [id] it is given, and adds only warnings. *)
Lemma decryptMessage_readable (em : Messages.EncryptedMessage) :
  readable (RoomJoin.key roomState) em = true ->
  exists (d : ChatRoom.DecryptedMessage) (warnings : list Notice),
    forall (msgId : JSString.t) (q : Page (ChatRoom.State Doc) Env),
      ChatRoom.decryptMessage roomState msgId em q
      = (Done (withId msgId d), noticed q warnings).
Proof.
  destruct em as [[ct iv fp cty meta] t].
  unfold readable, ChatRoom.decryptMessage, noticed.
  cbn [Messages.body Messages.ciphertext Messages.iv Messages.mediaMeta
       Messages.contentType Messages.timestamp].
  unfold hcatch, hbind, await, hret, notify.
  destruct meta as [[sp [fn|] [fniv|] fs [mt|] [mtiv|] miv]|];
    cbn [Messages.storagePath Messages.fileName Messages.fileNameIv
         Messages.mimeType Messages.mimeTypeIv Messages.mediaIv
         Messages.fileSize].
  all: repeat match goal with
              | |- context [JSText.truthy ?a] => destruct (JSText.truthy a)
              end.
  all: destruct (opened (RoomJoin.key roomState) ct iv) eqn:Oc.
  all: intros R; try discriminate R.
  all: try (destruct (opened (RoomJoin.key roomState) fn fniv) eqn:On).
  all: try (destruct (opened (RoomJoin.key roomState) mt mtiv) eqn:Om).
  all: eexists (ChatRoom.mkDecryptedMessage [] _ _ _ _ _ _ _ _).
  all: first
         [ exists []; intros msgId [s env w ns];
           cbn [ui services world notices andb];
           repeat (rewrite (decryptString_opened _ _ _ _ V);
                   rewrite ?Oc, ?On, ?Om;
                   cbn [ui services world notices]);
           rewrite ?app_nil_r; reflexivity
         | eexists [_]; intros msgId [s env w ns];
           cbn [ui services world notices andb];
           repeat (rewrite (decryptString_opened _ _ _ _ V);
                   rewrite ?Oc, ?On, ?Om;
                   cbn [ui services world notices]);
           reflexivity
         | eexists [_; _]; intros msgId [s env w ns];
           cbn [ui services world notices andb];
           repeat (rewrite (decryptString_opened _ _ _ _ V);
                   rewrite ?Oc, ?On, ?Om;
                   cbn [ui services world notices]);
           rewrite <- ?app_assoc; reflexivity ].
Qed.

Lemma noticed_noticed {S E : Type} (q : Page S E) (a b : list Notice) :
  noticed (noticed q a) b = noticed q (a ++ b).
Proof. unfold noticed. cbn [ui services world notices]. now rewrite app_assoc. Qed.

Lemma noticed_nil {S E : Type} (q : Page S E) : noticed q [] = q.
Proof. destruct q. unfold noticed. cbn. now rewrite app_nil_r. Qed.

Lemma promiseAll_readable (ems : list Messages.EncryptedMessage) :
  forallb (readable (RoomJoin.key roomState)) ems = true ->
  exists (ds : list ChatRoom.DecryptedMessage) (warnings : list Notice),
    Forall2 (decryptsTo Env Doc roomState) ems ds
    /\ forall q : Page (ChatRoom.State Doc) Env,
        promiseAll (map (ChatRoom.decryptMessage roomState []) ems) q
        = (Done (map (withId []) ds), noticed q warnings).
Proof.
  induction ems as [|em ems IH]; cbn [forallb map promiseAll].
  - intros _. exists [], []. split; [constructor|].
    intros q. now rewrite noticed_nil.
  - intros R. apply andb_prop in R. destruct R as [R1 R2].
    destruct (decryptMessage_readable em R1) as (d & ws & D).
    destruct (IH R2) as (ds & ws' & F & A).
    exists (d :: ds), (ws ++ ws'). split.
    + constructor; [now exists ws | assumption].
    + intros q. rewrite D, A. now rewrite noticed_noticed.
Qed.

End LoadFacts.

Lemma Forall2_In_l {A B : Type} (R : A -> B -> Prop) (l : list A) (l' : list B)
    (x : A) :
  Forall2 R l l' -> In x l -> exists y, In y l' /\ R x y.
Proof.
  induction 1 as [|a b l l' Hab _ IH]; intros Hx; [contradiction|].
  destruct Hx as [<-|Hx].
  - exists b. split; [now left | assumption].
  - destruct (IH Hx) as (y & Hy & Hr). exists y. split; [now right | assumption].
Qed.

(** No message with the empty [id] is taken for one with another [id]. *)
Lemma existsb_withId_nil (msgId : JSString.t) (ds : list ChatRoom.DecryptedMessage) :
  msgId <> [] ->
  existsb (fun m => JSString.eqb (ChatRoom.id m) msgId) (map (withId []) ds)
  = false.
Proof.
  intros N. induction ds as [|d ds IH]; [reflexivity|].
  cbn [map existsb withId ChatRoom.id]. rewrite IH.
  unfold JSString.eqb. destruct (list_eq_dec N.eq_dec [] msgId) as [E|E].
  - now subst msgId.
  - reflexivity.
Qed.

(** X21.  A message of the history is shown again when the subscription
    delivers it.  [loadMessages] decrypts each message of the page under
    the empty [id], so after it every message shown has the empty [id];
    it also stores the cursor, sets [hasMore] to whether the page had 50
    messages, and clears [loading].  The callback of
    [subscribeToMessages] compares identifiers: given a message of the
    page under its document identifier, it finds no duplicate and appends
    the message, which the list then holds twice. *)
Theorem loaded_message_is_shown_again :
  forall (P : Primitives) (Env Doc : Type) (roomState : RoomJoin.RoomState)
         (getMessages : JSString.t -> option nat -> option Doc -> Env ->
                        Outcome (Messages.MessagePage Doc) * Env)
         (p : Page (ChatRoom.State Doc) Env)
         (page : Messages.MessagePage Doc) (env1 : Env)
         (msgId : JSString.t) (encryptedMsg : Messages.EncryptedMessage),
    validRoomKey (RoomJoin.key roomState) = true ->
    getMessages (RoomJoin.roomId roomState) None None (services p)
    = (Done page, env1) ->
    forallb (readable (RoomJoin.key roomState)) (Messages.messages page) = true ->
    In encryptedMsg (Messages.messages page) ->
    msgId <> [] ->
    exists (p1 p2 : Page (ChatRoom.State Doc) Env)
           (shown : ChatRoom.DecryptedMessage),
      ChatRoom.loadMessages roomState getMessages p = (Done tt, p1)
      /\ Forall (fun d => ChatRoom.id d = []) (ChatRoom.messages (ui p1))
      /\ length (ChatRoom.messages (ui p1)) = length (Messages.messages page)
      /\ ChatRoom.hasMore (ui p1)
         = (length (Messages.messages page) =? 50)%nat
      /\ ChatRoom.lastDocRef (ui p1) = Messages.lastDoc page
      /\ ChatRoom.loading (ui p1) = false
      /\ ChatRoom.onMessage roomState msgId encryptedMsg p1 = (Done tt, p2)
      /\ ChatRoom.messages (ui p2) = ChatRoom.messages (ui p1) ++ [shown]
      /\ ChatRoom.id shown = msgId
      /\ In (withId [] shown) (ChatRoom.messages (ui p1)).
Proof.
  intros P Env Doc roomState getMessages [s env w ns] page env1 msgId em
         V G R I N.
  cbn [ui services world notices] in *.
  destruct (promiseAll_readable Env Doc roomState V _ R) as (ds & ws & F & A).
  destruct (Forall2_In_l _ _ _ _ F I) as (d & Id & [ws1 D]).
  exists (mkPage (ChatRoom.mkState (map (withId []) ds) false
                    (ChatRoom.loadingMore s)
                    (length (Messages.messages page) =? 50)%nat
                    (Messages.lastDoc page) (ChatRoom.isInCall s))
            env1 w (ns ++ ws)).
  eexists. exists (withId msgId d).
  split; [|split; [|split; [|split; [|split; [|split; [|split; [|split; [|split]]]]]]]].
  - unfold ChatRoom.loadMessages, hfinally, hcatch, hbind, service,
      ChatRoom.setLoading, ChatRoom.setMessages, ChatRoom.setLastDocRef,
      ChatRoom.setHasMore, setState.
    cbn [ui services world notices]. rewrite G.
    cbn [ui services world notices]. rewrite A. reflexivity.
  - cbn [ui ChatRoom.messages]. apply Forall_forall. intros x Hx.
    apply in_map_iff in Hx. destruct Hx as (y & <- & _). reflexivity.
  - cbn [ui ChatRoom.messages]. rewrite length_map.
    symmetry. apply (Forall2_length F).
  - reflexivity.
  - reflexivity.
  - reflexivity.
  - unfold ChatRoom.onMessage, hcatch, hbind, ChatRoom.setMessages, setState.
    rewrite D. cbn [ui services world notices noticed ChatRoom.messages].
    rewrite existsb_withId_nil by assumption. reflexivity.
  - reflexivity.
  - reflexivity.
  - cbn [ui ChatRoom.messages]. apply in_map_iff. exists d. split; [reflexivity | assumption].
Qed.

Lemma loaded_message_is_shown_again_witness :
  exists (p1 p2 : Page (ChatRoom.State unit) (list Messages.Outgoing))
         (shown : ChatRoom.DecryptedMessage),
    ChatRoom.loadMessages (P := checksumPrimitives) (roomWith sampleKey)
      sampleGetMessages chatPage = (Done tt, p1)
    /\ ChatRoom.onMessage (P := checksumPrimitives) (roomWith sampleKey)
         (JSString.js "doc1") sampleMessage p1 = (Done tt, p2)
    /\ ChatRoom.messages (ui p2) = ChatRoom.messages (ui p1) ++ [shown]
    /\ In (withId [] shown) (ChatRoom.messages (ui p1)).
Proof.
  destruct (loaded_message_is_shown_again checksumPrimitives _ unit
              (roomWith sampleKey) sampleGetMessages chatPage
              (Messages.mkMessagePage [sampleMessage] (Some tt)) []
              (JSString.js "doc1") sampleMessage)
    as (p1 & p2 & shown & L & _ & _ & _ & _ & _ & O & A & _ & I).
  - reflexivity.
  - reflexivity.
  - vm_compute. reflexivity.
  - now left.
  - discriminate.
  - exists p1, p2, shown. repeat split; assumption.
Defined.

(** ** Pages of messages *)

Lemma collect_snapshot {Doc : Type} (data : Doc -> Messages.EncryptedMessage)
    (snapshot : list Doc) :
  forall (acc : list Messages.EncryptedMessage) (first : option Doc),
    fold_left
      (fun (a : list Messages.EncryptedMessage * option Doc) doc =>
         (fst a ++ [data doc],
          match snd a with
          | None => Some doc
          | Some d => Some d
          end))
      snapshot (acc, first)
    = (acc ++ map data snapshot,
       match first with
       | None => hd_error snapshot
       | Some d => Some d
       end).
Proof.
  induction snapshot as [|doc rest IH]; intros acc first; cbn [fold_left map fst snd].
  - rewrite app_nil_r. now destruct first.
  - rewrite IH, <- app_assoc. now destruct first.
Qed.

(** X22.  The cursor [getMessages] returns is the newest message of the
    page.  Whatever the documents of the snapshot, the messages come back
    oldest first and [lastDoc] is the first document of the snapshot,
    which Firestore orders newest first: the cursor is the document of
    the last message returned, not of the first. *)
Theorem getMessages_cursor_is_the_newest_message :
  forall (Env Doc : Type) (data : Doc -> Messages.EncryptedMessage)
         (getDocs : Messages.Query Doc -> Env -> Outcome (list Doc) * Env)
         (roomId : JSString.t) (pageSize : option nat) (lastDoc : option Doc)
         (env env' : Env) (snapshot : list Doc),
    getDocs (Messages.mkQuery roomId lastDoc
               (match pageSize with Some n => n | None => 50%nat end)) env
    = (Done snapshot, env') ->
    Messages.getMessages data getDocs roomId pageSize lastDoc env
    = (Done (Messages.mkMessagePage (rev (map data snapshot))
               (hd_error snapshot)), env')
    /\ (forall newest older,
          snapshot = newest :: older ->
          last (rev (map data snapshot)) (data newest) = data newest
          /\ hd_error snapshot = Some newest).
Proof.
  intros Env Doc data getDocs roomId pageSize lastDoc env env' snapshot G.
  split.
  - unfold Messages.getMessages.
    replace (match lastDoc with
             | Some d => Messages.mkQuery roomId (Some d) _
             | None => Messages.mkQuery roomId None _
             end)
      with (Messages.mkQuery roomId lastDoc
              (match pageSize with Some n => n | None => 50%nat end))
      by now destruct lastDoc.
    rewrite G, collect_snapshot. reflexivity.
  - intros newest older ->. split; [|reflexivity].
    cbn [map rev]. apply last_last.
Qed.

Lemma getMessages_cursor_is_the_newest_message_witness :
  Messages.getMessages numbered numberedDocs (JSString.js "room") None None
    [5; 4; 3]%nat
  = (Done (Messages.mkMessagePage [numbered 3; numbered 4; numbered 5] (Some 5%nat)),
     [5; 4; 3]%nat).
Proof.
  apply (getMessages_cursor_is_the_newest_message _ _ numbered numberedDocs
           (JSString.js "room") None None [5; 4; 3]%nat [5; 4; 3]%nat
           [5; 4; 3]%nat).
  reflexivity.
Defined.

(** X23.  The page after the cursor starts one document later.  Over a
    Firestore that answers a query with the documents that follow the
    cursor, up to the limit, [getMessages] with the cursor the first page
    returned gives documents 2 to 51 of the room, not 51 to 100: all but
    one message of the second page were in the first. *)
Theorem getMessages_next_page_starts_one_document_later :
  forall (Env Doc : Type) (data : Doc -> Messages.EncryptedMessage)
         (getDocs : Messages.Query Doc -> Env -> Outcome (list Doc) * Env)
         (same : Doc -> Doc -> bool) (docsOf : Env -> JSString.t -> list Doc)
         (roomId : JSString.t) (env : Env) (newest : Doc) (older : list Doc),
    (forall q e, getDocs q e = (Done (answer same (docsOf e (Messages.room q)) q), e)) ->
    docsOf env roomId = newest :: older ->
    same newest newest = true ->
    exists page1 page2,
      Messages.getMessages data getDocs roomId None None env = (Done page1, env)
      /\ Messages.getMessages data getDocs roomId (Some 50%nat)
           (Messages.lastDoc page1) env = (Done page2, env)
      /\ Messages.messages page1 = rev (map data (firstn 50 (newest :: older)))
      /\ Messages.messages page2 = rev (map data (firstn 50 older)).
Proof.
  intros Env Doc data getDocs same docsOf roomId env newest older S D R.
  assert (G1 : getDocs (Messages.mkQuery roomId None 50) env
               = (Done (firstn 50 (newest :: older)), env)).
  { rewrite S. unfold answer. cbn [Messages.room Messages.startAfter Messages.limit].
    now rewrite D. }
  assert (G2 : getDocs (Messages.mkQuery roomId (Some newest) 50) env
               = (Done (firstn 50 older), env)).
  { rewrite S. unfold answer. cbn [Messages.room Messages.startAfter Messages.limit].
    rewrite D. cbn [after]. now rewrite R. }
  eexists _, _. split; [|split; [|split]].
  - unfold Messages.getMessages. rewrite G1, collect_snapshot. reflexivity.
  - cbn [Messages.lastDoc firstn hd_error].
    unfold Messages.getMessages. rewrite G2, collect_snapshot. reflexivity.
  - reflexivity.
  - reflexivity.
Qed.

Lemma getMessages_next_page_starts_one_document_later_witness :
  exists page1 page2,
    Messages.getMessages numbered numberedDocs (JSString.js "room") None None
      (rev (seq 0 60)) = (Done page1, rev (seq 0 60))
    /\ Messages.getMessages numbered numberedDocs (JSString.js "room")
         (Some 50%nat) (Messages.lastDoc page1) (rev (seq 0 60))
       = (Done page2, rev (seq 0 60))
    /\ Messages.messages page1 = map numbered (seq 10 50)
    /\ Messages.messages page2 = map numbered (seq 9 50).
Proof.
  destruct (getMessages_next_page_starts_one_document_later _ _ numbered
              numberedDocs Nat.eqb (fun env _ => env) (JSString.js "room")
              (rev (seq 0 60)) 59%nat (rev (seq 0 59)))
    as (page1 & page2 & G1 & G2 & M1 & M2).
  - reflexivity.
  - reflexivity.
  - reflexivity.
  - exists page1, page2. split; [exact G1|]. split; [exact G2|].
    rewrite M1, M2. split; reflexivity.
Defined.

Lemma getMessages_answer {Env Doc : Type} (data : Doc -> Messages.EncryptedMessage)
    (getDocs : Messages.Query Doc -> Env -> Outcome (list Doc) * Env)
    (same : Doc -> Doc -> bool) (docsOf : Env -> JSString.t -> list Doc)
    (roomId : JSString.t) (pageSize : option nat) (lastDoc : option Doc) (env : Env) :
  (forall q e, getDocs q e = (Done (answer same (docsOf e (Messages.room q)) q), e)) ->
  Messages.getMessages data getDocs roomId pageSize lastDoc env
  = (let snapshot :=
       answer same (docsOf env roomId)
         (Messages.mkQuery roomId lastDoc
            (match pageSize with Some n => n | None => 50%nat end)) in
     (Done (Messages.mkMessagePage (rev (map data snapshot)) (hd_error snapshot)),
      env)).
Proof.
  intros S. unfold Messages.getMessages.
  replace (match lastDoc with
           | Some d => Messages.mkQuery roomId (Some d) _
           | None => Messages.mkQuery roomId None _
           end)
    with (Messages.mkQuery roomId lastDoc
            (match pageSize with Some n => n | None => 50%nat end))
    by now destruct lastDoc.
  rewrite S, collect_snapshot. reflexivity.
Qed.

Lemma forallb_all {A : Type} (f : A -> bool) (l : list A) :
  (forall x, f x = true) -> forallb f l = true.
Proof. intros H. apply forallb_forall. intros x _. apply H. Qed.

(** X24.  Loading older messages repeats the history.  Over the same
    Firestore, in a room of at least 50 readable messages,
    [loadMessages] followed by [loadMoreMessages] leaves the page with
    the messages of documents 2 to 51 in front of those of documents 1
    to 50, and with document 2 as the next cursor. *)
Theorem load_more_repeats_the_history :
  forall (P : Primitives) (Env Doc : Type) (roomState : RoomJoin.RoomState)
         (data : Doc -> Messages.EncryptedMessage)
         (getDocs : Messages.Query Doc -> Env -> Outcome (list Doc) * Env)
         (same : Doc -> Doc -> bool) (docsOf : Env -> JSString.t -> list Doc)
         (p : Page (ChatRoom.State Doc) Env) (newest : Doc) (older : list Doc),
    let getMessages := Messages.getMessages data getDocs in
    validRoomKey (RoomJoin.key roomState) = true ->
    (forall q e, getDocs q e = (Done (answer same (docsOf e (Messages.room q)) q), e)) ->
    docsOf (services p) (RoomJoin.roomId roomState) = newest :: older ->
    same newest newest = true ->
    (49 <= length older)%nat ->
    (forall d, readable (RoomJoin.key roomState) (data d) = true) ->
    ChatRoom.loadingMore (ui p) = false ->
    exists (p1 p2 : Page (ChatRoom.State Doc) Env)
           (first second : list ChatRoom.DecryptedMessage),
      ChatRoom.loadMessages roomState getMessages p = (Done tt, p1)
      /\ ChatRoom.loadMoreMessages roomState getMessages p1 = (Done tt, p2)
      /\ Forall2 (decryptsTo Env Doc roomState)
           (rev (map data (firstn 50 (newest :: older)))) first
      /\ Forall2 (decryptsTo Env Doc roomState)
           (rev (map data (firstn 50 older))) second
      /\ ChatRoom.messages (ui p1) = map (withId []) first
      /\ ChatRoom.messages (ui p2)
         = map (withId []) second ++ map (withId []) first
      /\ ChatRoom.lastDocRef (ui p2) = hd_error older.
Proof.
  intros P Env Doc roomState data getDocs same docsOf [s env w ns] newest older
         getMessages V S D R L A M.
  cbn [ui services world notices] in *. subst getMessages.
  assert (A1 : forallb (readable (RoomJoin.key roomState))
                 (rev (map data (firstn 50 (newest :: older)))) = true)
    by (apply forallb_forall; intros x Hx; apply in_rev, in_map_iff in Hx;
        destruct Hx as (d & <- & _); apply A).
  assert (A2 : forallb (readable (RoomJoin.key roomState))
                 (rev (map data (firstn 50 older))) = true)
    by (apply forallb_forall; intros x Hx; apply in_rev, in_map_iff in Hx;
        destruct Hx as (d & <- & _); apply A).
  destruct (promiseAll_readable Env Doc roomState V _ A1) as (ds1 & ws1 & F1 & P1).
  destruct (promiseAll_readable Env Doc roomState V _ A2) as (ds2 & ws2 & F2 & P2).
  assert (L1 : length (rev (map data (firstn 50 (newest :: older)))) = 50%nat).
  { rewrite length_rev, length_map, length_firstn. cbn [length]. lia. }
  assert (L2 : (length (rev (map data (firstn 50 older))) =? 0)%nat = false).
  { rewrite length_rev, length_map, length_firstn. apply Nat.eqb_neq. lia. }
  assert (H2 : hd_error (firstn 50 older) = hd_error older).
  { destruct older; [cbn in L; lia | reflexivity]. }
  exists (mkPage (ChatRoom.mkState (map (withId []) ds1) false
                    (ChatRoom.loadingMore s) true (Some newest)
                    (ChatRoom.isInCall s))
            env w (ns ++ ws1)).
  eexists. exists ds1, ds2.
  split; [|split; [|split; [exact F1|split; [exact F2|]]]].
  - unfold ChatRoom.loadMessages, hfinally, hcatch, hbind, service,
      ChatRoom.setLoading, ChatRoom.setMessages, ChatRoom.setLastDocRef,
      ChatRoom.setHasMore, setState.
    cbn [ui services world notices].
    rewrite (getMessages_answer data getDocs same docsOf _ _ _ _ S).
    cbv zeta. unfold answer.
    cbn [Messages.startAfter Messages.limit Messages.messages Messages.lastDoc
         ui services world notices].
    rewrite D, P1, L1. reflexivity.
  - unfold ChatRoom.loadMoreMessages, hbind at 1, getState.
    cbn [ui ChatRoom.loadingMore ChatRoom.hasMore Nat.eqb orb negb
         firstn hd_error].
    rewrite M. cbn [orb negb].
    unfold hfinally, hcatch, hbind, service,
      ChatRoom.setLoadingMore, ChatRoom.setMessages, ChatRoom.setLastDocRef,
      ChatRoom.setHasMore, setState.
    cbn [ui services world notices ChatRoom.lastDocRef].
    rewrite (getMessages_answer data getDocs same docsOf _ _ _ _ S).
    cbv zeta. unfold answer.
    cbn [Messages.startAfter Messages.limit Messages.messages Messages.lastDoc
         ui services world notices].
    rewrite D. cbn [after]. rewrite R, L2, P2.
    cbn [ui services world notices ChatRoom.messages noticed]. reflexivity.
  - split; [reflexivity|]. split; [reflexivity|].
    cbn [ui ChatRoom.lastDocRef]. exact H2.
Qed.

Lemma load_more_repeats_the_history_witness :
  exists (p1 p2 : Page (ChatRoom.State nat) (list nat)),
    ChatRoom.loadMessages (P := checksumPrimitives) (roomWith sampleKey)
      (Messages.getMessages numbered numberedDocs) (historyPage (rev (seq 0 60)))
    = (Done tt, p1)
    /\ ChatRoom.loadMoreMessages (P := checksumPrimitives) (roomWith sampleKey)
         (Messages.getMessages numbered numberedDocs) p1 = (Done tt, p2)
    /\ length (ChatRoom.messages (ui p1)) = 50%nat
    /\ length (ChatRoom.messages (ui p2)) = 100%nat
    /\ ChatRoom.lastDocRef (ui p2) = Some 58%nat.
Proof.
  destruct (load_more_repeats_the_history checksumPrimitives _ _
              (roomWith sampleKey) numbered numberedDocs Nat.eqb
              (fun env _ => env) (historyPage (rev (seq 0 60)))
              59%nat (rev (seq 0 59)))
    as (p1 & p2 & first & second & L1 & L2 & F1 & F2 & M1 & M2 & C).
  - reflexivity.
  - reflexivity.
  - reflexivity.
  - reflexivity.
  - rewrite length_rev, length_seq. lia.
  - reflexivity.
  - reflexivity.
  - exists p1, p2. split; [exact L1|]. split; [exact L2|].
    apply Forall2_length in F1, F2.
    rewrite M2, M1, length_app, !length_map, <- F1, <- F2.
    repeat split; try reflexivity. exact C.
Defined.

(** ** Viewing media *)

Lemma mapGet_mapSet (m : list (JSString.t * JSString.t)) (k v : JSString.t) :
  MessageList.mapGet (MessageList.mapSet m k v) k = Some v.
Proof.
  unfold MessageList.mapGet.
  assert (E : JSString.eqb k k = true).
  { unfold JSString.eqb. now destruct (list_eq_dec N.eq_dec k k). }
  induction m as [|e m IH]; cbn [MessageList.mapSet find fst].
  - now rewrite E.
  - destruct (JSString.eqb (fst e) k) eqn:K; cbn [find fst].
    + now rewrite E.
    + now rewrite K.
Qed.

(** X25.  Messages with one identifier share one media.  After
    [handleViewMedia] has decrypted the media of a message, the list
    shows the same object address for every message with the same [id],
    and [handleViewMedia] on such a message does nothing.  Every message
    of the history has the empty [id] (X21), so the media viewed first
    stands for all of them. *)
Theorem messages_with_one_id_share_one_media :
  forall (P : Primitives) (PS : PrimitivesSpec P) (Env : Type)
         (roomState : RoomJoin.RoomState)
         (downloadEncryptedFile : JSString.t -> Env -> Outcome Blob.t * Env)
         (createObjectURL : Blob.t -> Env -> Outcome JSString.t * Env)
         (viewed other : ChatRoom.DecryptedMessage)
         (payload nonce : bytes) (url address : JSString.t)
         (q : Page MessageList.State Env) (env1 env2 : Env),
    let key := RoomJoin.key roomState in
    validRoomKey key = true ->
    (Bytes.size payload <= 2097136)%Z ->
    ChatRoom.mediaUrl viewed = Some url ->
    JSText.truthy url = true ->
    ChatRoom.mediaIv viewed = base64 nonce ->
    nonce <> [] ->
    MessageList.mapHas (MessageList.mediaUrls (ui q)) (ChatRoom.id viewed) = false ->
    downloadEncryptedFile url (services q)
    = (Done (sealedBlob key nonce payload), env1) ->
    createObjectURL (Blob.ofArray payload None) env1 = (Done address, env2) ->
    ChatRoom.id other = ChatRoom.id viewed ->
    exists q1 : Page MessageList.State Env,
      MessageList.handleViewMedia roomState downloadEncryptedFile
        createObjectURL viewed q = (Done tt, q1)
      /\ services q1 = env2
      /\ MessageList.shownMedia (ui q1) viewed = Some address
      /\ MessageList.shownMedia (ui q1) other = Some address
      /\ MessageList.handleViewMedia roomState downloadEncryptedFile
           createObjectURL other q1 = (Done tt, q1).
Proof.
  intros P PS Env roomState downloadEncryptedFile createObjectURL viewed other
         payload nonce url address [s env w ns] env1 env2 key V Hsz U T I N
         M D C E.
  cbn [ui services world notices] in *.
  eexists. split; [|split; [|split; [|split]]].
  - unfold MessageList.handleViewMedia, hbind at 1, getState. cbn [ui].
    rewrite U, T, I, (truthy_base64 _ N), M. cbn [negb orb].
    unfold hfinally, hcatch, hbind, await, service, notify, hret,
      MessageList.setDecryptingMedia, MessageList.setMediaUrls, setState.
    cbn [ui services world notices]. rewrite D.
    cbn [ui services world notices]. fold key.
    rewrite (decryptFileStream_sealed_small _ _ _ _ V Hsz).
    cbn [ui services world notices]. rewrite C. reflexivity.
  - reflexivity.
  - unfold MessageList.shownMedia, MessageList.mapHas.
    cbn [ui MessageList.mediaUrls]. now rewrite mapGet_mapSet.
  - unfold MessageList.shownMedia, MessageList.mapHas.
    cbn [ui MessageList.mediaUrls]. rewrite E. now rewrite mapGet_mapSet.
  - unfold MessageList.handleViewMedia, hbind at 1, getState.
    cbn [ui MessageList.mediaUrls].
    unfold MessageList.mapHas. rewrite E, mapGet_mapSet.
    destruct (ChatRoom.mediaUrl other) as [u|]; [|reflexivity].
    now rewrite !orb_true_r.
Qed.

Lemma messages_with_one_id_share_one_media_witness :
  let stored := sealedBlob (P := checksumPrimitives) sampleKey
                  (drawn world0 12) [x68; x69] in
  exists q1 : Page MessageList.State Cloud,
    MessageList.handleViewMedia (P := checksumPrimitives) (roomWith sampleKey)
      cloudDownload cloudObjectURL historyMedia
      (listPage (mkCloud [stored] [] [])) = (Done tt, q1)
    /\ MessageList.shownMedia (ui q1) otherHistoryMedia
       = Some (JSString.js "blob:0").
Proof.
  intros stored.
  destruct (messages_with_one_id_share_one_media checksumPrimitives
              checksumPrimitives_spec _ (roomWith sampleKey)
              cloudDownload cloudObjectURL historyMedia otherHistoryMedia
              [x68; x69] (drawn world0 12) (JSString.js "https://storage/0")
              (JSString.js "blob:0") (listPage (mkCloud [stored] [] []))
              (mkCloud [stored] [] [])
              (mkCloud [stored] [] [(Blob.ofArray [x68; x69] None, [])]))
    as (q1 & H1 & _ & _ & H2 & _).
  - reflexivity.
  - vm_compute. discriminate.
  - reflexivity.
  - reflexivity.
  - reflexivity.
  - discriminate.
  - reflexivity.
  - reflexivity.
  - reflexivity.
  - reflexivity.
  - exists q1. split; assumption.
Defined.

(* ================================================================== *)
(** * Messages that are not well formed *)
(* ================================================================== *)




